(** * U2-Net topology

    A shallow embedding of
    [mindspore_segmentation/u2net/src/model.py] (ConvBNReLU, DownConvBNReLU,
    UpConvBNReLU, RSU, RSU4F, U2Net, u2net_full, u2net_lite).

    The numerical kernels belong to the tensor framework.  A tensor is
    therefore represented by the computation graph that produced it: every
    framework call made by the Python code becomes one node, and the shape
    of a tensor is computed from its graph by the framework's shape rules.
    Python-level behaviour (loops, list [append]/[insert]/[pop], [assert],
    dictionary lookups) is modelled step by step, with Python exceptions as
    an error result.  The framework's own validation of its arguments
    (channel counts, broadcasting) is not part of the graph construction: a
    framework call always yields a node, and the predicate [well_shaped]
    says of a graph that every call in it was given shapes that fit. *)

From stdpp Require Import base option list strings gmap.
From Stdlib Require Import ZArith Lia.

Set Warnings "-register-all".
#[local] Open Scope Z_scope.

(** ** Python exceptions *)

Inductive PyError := AssertionError | IndexError | KeyError | ValueError.

Inductive Result (A : Type) : Type :=
| Ok (a : A)
| Raise (e : PyError).
Arguments Ok {A} a.
Arguments Raise {A} e.

#[global] Instance Result_ret : MRet Result := fun _ a => Ok a.
#[global] Instance Result_bind : MBind Result := fun _ _ f r =>
  match r with
  | Ok a => f a
  | Raise e => Raise e
  end.
#[global] Instance Result_fmap : FMap Result := fun _ _ f r =>
  match r with
  | Ok a => Ok (f a)
  | Raise e => Raise e
  end.

(** [assert b] *)
Definition py_assert (b : bool) : Result unit :=
  if b then Ok tt else Raise AssertionError.

(** [l.pop()]: removes and returns the last element; [IndexError] on an
    empty list. *)
Definition pop {A} (l : list A) : Result (A * list A) :=
  match last l with
  | Some x => Ok (x, removelast l)
  | None => Raise IndexError
  end.

(** A [for] loop whose body may raise: the state is threaded from left to
    right and the first exception aborts the loop. *)
Fixpoint for_each {A St} (body : St → A → Result St) (xs : list A) (s : St)
  : Result St :=
  match xs with
  | [] => Ok s
  | x :: xs' => s' ← body s x; for_each body xs' s'
  end.

(** [enumerate(l)] *)
Definition enumerate {A} (l : list A) : list (Z * A) :=
  zip (seqZ 0 (Z.of_nat (length l))) l.

(** ** Tensors as computation graphs *)

(** All tensors handled by the networks are 4-D, in NCHW layout
    ([_, _, h, w = x.shape]). *)
Record Shape := mkShape { dimN : Z; dimC : Z; dimH : Z; dimW : Z }.

(** [nn.Conv2d] as the source configures it.  Arguments the source never
    passes keep the framework defaults ([stride = 1]). *)
Record Conv2d := mkConv2d {
  in_channels : Z;
  out_channels : Z;
  kernel_size : Z;
  stride : Z;
  padding : Z;
  dilation : Z;
  has_bias : bool
}.

Definition nn_Conv2d (in_ch out_ch kernel_size padding dilation : Z)
    (has_bias : bool) : Conv2d :=
  mkConv2d in_ch out_ch kernel_size 1 padding dilation has_bias.

Inductive InterpMode := bilinear | nearest.

Inductive Tensor :=
| Input (s : Shape)
| Conv2dOp (c : Conv2d) (x : Tensor)
| BatchNorm2dOp (num_features : Z) (x : Tensor)
| ReLUOp (x : Tensor)
| MaxPool2dOp (kernel_size stride : Z) (ceil_mode : bool) (x : Tensor)
| InterpolateOp (size : Z * Z) (mode : InterpMode) (align_corners : bool)
    (x : Tensor)
| CatOp (xs : list Tensor) (axis : Z)
| AddOp (x y : Tensor)
| SigmoidOp (x : Tensor).

(** *** Shape rules of the framework operators *)

(** Output extent of a convolution with explicit padding:
    [(n + 2p - d(k-1) - 1) // s + 1]. *)
Definition conv_out (c : Conv2d) (n : Z) : Z :=
  (n + 2 * padding c - dilation c * (kernel_size c - 1) - 1) `div` stride c + 1.

(** Output extent of an unpadded pooling window. *)
Definition pool_out (k s : Z) (ceil_mode : bool) (n : Z) : Z :=
  if ceil_mode then - ((- (n - k)) `div` s) + 1 else (n - k) `div` s + 1.

Fixpoint shape (t : Tensor) : Shape :=
  match t with
  | Input s => s
  | Conv2dOp c x =>
      let s := shape x in
      mkShape (dimN s) (out_channels c) (conv_out c (dimH s)) (conv_out c (dimW s))
  | BatchNorm2dOp _ x => shape x
  | ReLUOp x => shape x
  | MaxPool2dOp k st ceil x =>
      let s := shape x in
      mkShape (dimN s) (dimC s) (pool_out k st ceil (dimH s))
        (pool_out k st ceil (dimW s))
  | InterpolateOp sz _ _ x =>
      let s := shape x in
      mkShape (dimN s) (dimC s) sz.1 sz.2
  | CatOp xs _ =>
      let ss := shape <$> xs in
      match ss with
      | [] => mkShape 0 0 0 0
      | s :: _ => mkShape (dimN s) (foldr Z.add 0 (dimC <$> ss)) (dimH s) (dimW s)
      end
  | AddOp x y =>
      let s := shape x in
      let s' := shape y in
      mkShape (Z.max (dimN s) (dimN s')) (Z.max (dimC s) (dimC s'))
        (Z.max (dimH s) (dimH s')) (Z.max (dimW s) (dimW s'))
  | SigmoidOp x => shape x
  end.

(** [x.shape[2:]] *)
Definition spatial (t : Tensor) : Z * Z := (dimH (shape t), dimW (shape t)).

(** Every node of a graph, the graph's root first. *)
Fixpoint nodes (t : Tensor) : list Tensor :=
  t ::
  match t with
  | Input _ => []
  | Conv2dOp _ x | BatchNorm2dOp _ x | ReLUOp x | MaxPool2dOp _ _ _ x
  | InterpolateOp _ _ _ x | SigmoidOp x => nodes x
  | CatOp xs _ => concat (nodes <$> xs)
  | AddOp x y => nodes x ++ nodes y
  end.

(** A node that changes the spatial resolution by pooling or resizing. *)
Definition is_resample (t : Tensor) : bool :=
  match t with
  | MaxPool2dOp _ _ _ _ | InterpolateOp _ _ _ _ => true
  | _ => false
  end.

(** ** [ConvBNReLU], [DownConvBNReLU], [UpConvBNReLU] *)

Record ConvBNReLU := mkConvBNReLU {
  conv : Conv2d;
  bn : Z   (* nn.BatchNorm2d(out_ch) *)
}.

Definition ConvBNReLU_init (in_ch out_ch kernel_size dilation : Z) : ConvBNReLU :=
  let padding := if decide (dilation = 1) then kernel_size `div` 2 else dilation in
  mkConvBNReLU (nn_Conv2d in_ch out_ch kernel_size padding dilation false) out_ch.

Definition ConvBNReLU_construct (m : ConvBNReLU) (x : Tensor) : Tensor :=
  ReLUOp (BatchNorm2dOp (bn m) (Conv2dOp (conv m) x)).

Record DownConvBNReLU := mkDown {
  down_base : ConvBNReLU;
  down_flag : bool
}.

Definition DownConvBNReLU_init (in_ch out_ch kernel_size dilation : Z)
    (flag : bool) : DownConvBNReLU :=
  mkDown (ConvBNReLU_init in_ch out_ch kernel_size dilation) flag.

Definition DownConvBNReLU_construct (m : DownConvBNReLU) (x : Tensor) : Tensor :=
  let x := if down_flag m then MaxPool2dOp 2 2 true x else x in
  ReLUOp (BatchNorm2dOp (bn (down_base m)) (Conv2dOp (conv (down_base m)) x)).

Record UpConvBNReLU := mkUp {
  up_base : ConvBNReLU;
  up_flag : bool
}.

Definition UpConvBNReLU_init (in_ch out_ch kernel_size dilation : Z)
    (flag : bool) : UpConvBNReLU :=
  mkUp (ConvBNReLU_init in_ch out_ch kernel_size dilation) flag.

Definition UpConvBNReLU_construct (m : UpConvBNReLU) (x1 x2 : Tensor) : Tensor :=
  let x1 := if up_flag m then InterpolateOp (spatial x2) bilinear false x1 else x1 in
  ReLUOp (BatchNorm2dOp (bn (up_base m)) (Conv2dOp (conv (up_base m)) (CatOp [x1; x2] 1))).

(** ** [RSU] *)

(** The cells that [RSU.__init__] collects in [encode_list]. *)
Inductive EncodeCell :=
| EncDown (m : DownConvBNReLU)
| EncPlain (m : ConvBNReLU).

Definition EncodeCell_construct (m : EncodeCell) (x : Tensor) : Tensor :=
  match m with
  | EncDown m => DownConvBNReLU_construct m x
  | EncPlain m => ConvBNReLU_construct m x
  end.

Record RSU := mkRSU {
  rsu_conv_in : ConvBNReLU;
  rsu_encode_modules : list EncodeCell;
  rsu_decode_modules : list UpConvBNReLU
}.

(** [range(n)] *)
Definition range (n : Z) : list Z := seqZ 0 n.

(** Body of the loop [for i in range(height - 2)] of [RSU.__init__]. *)
Definition RSU_init_step (height mid_ch out_ch : Z)
    (st : list EncodeCell * list UpConvBNReLU) (i : Z)
  : list EncodeCell * list UpConvBNReLU :=
  let '(encode_list, decode_list) := st in
  (encode_list ++ [EncDown (DownConvBNReLU_init mid_ch mid_ch 3 1 true)],
   decode_list ++
     [UpConvBNReLU_init (mid_ch * 2)
        (if decide (i < height - 3) then mid_ch else out_ch) 3 1 true]).

Definition RSU_init (height in_ch mid_ch out_ch : Z) : Result RSU :=
  _ ← py_assert (bool_decide (height >= 2));
  let conv_in := ConvBNReLU_init in_ch out_ch 3 1 in
  let encode_list := [EncDown (DownConvBNReLU_init out_ch mid_ch 3 1 false)] in
  let decode_list := [UpConvBNReLU_init (mid_ch * 2) mid_ch 3 1 false] in
  let '(encode_list, decode_list) :=
    foldl (RSU_init_step height mid_ch out_ch) (encode_list, decode_list)
      (range (height - 2)) in
  let encode_list := encode_list ++ [EncPlain (ConvBNReLU_init mid_ch mid_ch 3 2)] in
  Ok (mkRSU conv_in encode_list decode_list).

(** Body of [for m in self.encode_modules]: the state is [(x, encode_outputs)]. *)
Definition encode_step {M} (call : M → Tensor → Tensor)
    (st : Tensor * list Tensor) (m : M) : Tensor * list Tensor :=
  let '(x, encode_outputs) := st in
  let x := call m x in
  (x, encode_outputs ++ [x]).

(** Body of [for m in self.decode_modules] of [RSU.construct]. *)
Definition RSU_decode_step (st : Tensor * list Tensor) (m : UpConvBNReLU)
  : Result (Tensor * list Tensor) :=
  let '(x, encode_outputs) := st in
  '(x2, encode_outputs) ← pop encode_outputs;
  Ok (UpConvBNReLU_construct m x x2, encode_outputs).

(** [RSU.construct], returning also what is left in [encode_outputs] when
    the decoder loop ends. *)
Definition RSU_run (m : RSU) (x : Tensor) : Result (Tensor * list Tensor) :=
  let x_in := ConvBNReLU_construct (rsu_conv_in m) x in
  let x := x_in in
  let encode_outputs := [] in
  let '(x, encode_outputs) :=
    foldl (encode_step EncodeCell_construct) (x, encode_outputs)
      (rsu_encode_modules m) in
  '(x, encode_outputs) ← pop encode_outputs;
  '(x, encode_outputs) ← for_each RSU_decode_step (rsu_decode_modules m)
                            (x, encode_outputs);
  Ok (AddOp x x_in, encode_outputs).

Definition RSU_construct (m : RSU) (x : Tensor) : Result Tensor :=
  fst <$> RSU_run m x.

(** ** [RSU4F] *)

Record RSU4F := mkRSU4F {
  rsu4f_conv_in : ConvBNReLU;
  rsu4f_encode_modules : list ConvBNReLU;
  rsu4f_decode_modules : list ConvBNReLU
}.

Definition RSU4F_init (in_ch mid_ch out_ch : Z) : RSU4F :=
  mkRSU4F (ConvBNReLU_init in_ch out_ch 3 1)
    [ConvBNReLU_init out_ch mid_ch 3 1;
     ConvBNReLU_init mid_ch mid_ch 3 2;
     ConvBNReLU_init mid_ch mid_ch 3 4;
     ConvBNReLU_init mid_ch mid_ch 3 8]
    [ConvBNReLU_init (mid_ch * 2) mid_ch 3 4;
     ConvBNReLU_init (mid_ch * 2) mid_ch 3 2;
     ConvBNReLU_init (mid_ch * 2) out_ch 3 1].

(** Body of [for m in self.decode_modules] of [RSU4F.construct]. *)
Definition RSU4F_decode_step (st : Tensor * list Tensor) (m : ConvBNReLU)
  : Result (Tensor * list Tensor) :=
  let '(x, encode_outputs) := st in
  '(x2, encode_outputs) ← pop encode_outputs;
  Ok (ConvBNReLU_construct m (CatOp [x; x2] 1), encode_outputs).

Definition RSU4F_run (m : RSU4F) (x : Tensor) : Result (Tensor * list Tensor) :=
  let x_in := ConvBNReLU_construct (rsu4f_conv_in m) x in
  let x := x_in in
  let encode_outputs := [] in
  let '(x, encode_outputs) :=
    foldl (encode_step ConvBNReLU_construct) (x, encode_outputs)
      (rsu4f_encode_modules m) in
  '(x, encode_outputs) ← pop encode_outputs;
  '(x, encode_outputs) ← for_each RSU4F_decode_step (rsu4f_decode_modules m)
                            (x, encode_outputs);
  Ok (AddOp x x_in, encode_outputs).

Definition RSU4F_construct (m : RSU4F) (x : Tensor) : Result Tensor :=
  fst <$> RSU4F_run m x.

(** ** [U2Net] *)

(** One row [c] of the configuration:
    [[height, in_ch, mid_ch, out_ch, RSU4F, side]]. *)
Record StageCfg := mkStageCfg {
  c_height : Z;
  c_in_ch : Z;
  c_mid_ch : Z;
  c_out_ch : Z;
  c_RSU4F : bool;
  c_side : bool
}.

Inductive Stage :=
| StageRSU (m : RSU)
| StageRSU4F (m : RSU4F).

Definition Stage_construct (m : Stage) (x : Tensor) : Result Tensor :=
  match m with
  | StageRSU m => RSU_construct m x
  | StageRSU4F m => RSU4F_construct m x
  end.

Record U2Net := mkU2Net {
  encode_num : Z;
  encode_modules : list Stage;
  decode_modules : list Stage;
  side_modules : list Conv2d;
  out_conv : Conv2d
}.

(** [RSU( *c[:4]) if c[4] is False else RSU4F( *c[1:4])] *)
Definition make_stage (c : StageCfg) : Result Stage :=
  if c_RSU4F c
  then Ok (StageRSU4F (RSU4F_init (c_in_ch c) (c_mid_ch c) (c_out_ch c)))
  else StageRSU <$> RSU_init (c_height c) (c_in_ch c) (c_mid_ch c) (c_out_ch c).

(** Body of the two loops [for c in cfg[...]] of [U2Net.__init__]; the state
    is the stage list under construction and the shared [side_list]. *)
Definition U2Net_init_step (out_ch : Z) (st : list Stage * list Conv2d)
    (c : StageCfg) : Result (list Stage * list Conv2d) :=
  let '(stage_list, side_list) := st in
  m ← make_stage c;
  let stage_list := stage_list ++ [m] in
  let side_list :=
    if c_side c
    then side_list ++ [nn_Conv2d (c_out_ch c) out_ch 3 1 1 false]
    else side_list in
  Ok (stage_list, side_list).

(** [cfg[key]] *)
Definition dict_get {V} (cfg : gmap string V) (key : string) : Result V :=
  match cfg !! key with
  | Some v => Ok v
  | None => Raise KeyError
  end.

(** [key in cfg] *)
Definition dict_in {V} (key : string) (cfg : gmap string V) : bool :=
  bool_decide (is_Some (cfg !! key)).

Definition U2Net_init (cfg : gmap string (list StageCfg)) (out_ch : Z)
  : Result U2Net :=
  _ ← py_assert (dict_in "encode" cfg);
  _ ← py_assert (dict_in "decode" cfg);
  cfg_encode ← dict_get cfg "encode";
  let encode_num := Z.of_nat (length cfg_encode) in
  '(encode_list, side_list) ← for_each (U2Net_init_step out_ch) cfg_encode ([], []);
  cfg_decode ← dict_get cfg "decode";
  '(decode_list, side_list) ← for_each (U2Net_init_step out_ch) cfg_decode ([], side_list);
  Ok (mkU2Net encode_num encode_list decode_list side_list
        (nn_Conv2d (encode_num * out_ch) out_ch 1 0 1 false)).

(** Body of [for i, m in enumerate(self.encode_modules)]. *)
Definition U2Net_encode_step (encode_num : Z) (st : Tensor * list Tensor)
    (im : Z * Stage) : Result (Tensor * list Tensor) :=
  let '(x, encode_outputs) := st in
  let '(i, m) := im in
  x ← Stage_construct m x;
  let encode_outputs := encode_outputs ++ [x] in
  let x := if decide (i ≠ encode_num - 1) then MaxPool2dOp 2 2 true x else x in
  Ok (x, encode_outputs).

(** "collect encode outputs" *)
Definition U2Net_collect_encode (m : U2Net) (x : Tensor)
  : Result (Tensor * list Tensor) :=
  for_each (U2Net_encode_step (encode_num m)) (enumerate (encode_modules m)) (x, []).

(** Body of [for m in self.decode_modules]; the state is
    [(x, encode_outputs, decode_outputs)]. *)
Definition U2Net_decode_step (st : Tensor * list Tensor * list Tensor)
    (m : Stage) : Result (Tensor * list Tensor * list Tensor) :=
  let '(x, encode_outputs, decode_outputs) := st in
  '(x2, encode_outputs) ← pop encode_outputs;
  let x := InterpolateOp (spatial x2) bilinear false x in
  x ← Stage_construct m (CatOp [x; x2] 1);
  Ok (x, encode_outputs, x :: decode_outputs).

(** "collect decode outputs": returns what is left of [encode_outputs] and
    the list [decode_outputs]. *)
Definition U2Net_collect_decode (m : U2Net) (encode_outputs : list Tensor)
  : Result (list Tensor * list Tensor) :=
  '(x, encode_outputs) ← pop encode_outputs;
  let decode_outputs := [x] in
  '(_, encode_outputs, decode_outputs) ←
    for_each U2Net_decode_step (decode_modules m) (x, encode_outputs, decode_outputs);
  Ok (encode_outputs, decode_outputs).

(** Body of [for m in self.side_modules]; the state is
    [(decode_outputs, side_outputs)]. *)
Definition U2Net_side_step (h w : Z) (st : list Tensor * list Tensor)
    (m : Conv2d) : Result (list Tensor * list Tensor) :=
  let '(decode_outputs, side_outputs) := st in
  '(x, decode_outputs) ← pop decode_outputs;
  let x := InterpolateOp (h, w) bilinear false (Conv2dOp m x) in
  Ok (decode_outputs, x :: side_outputs).

(** "collect side outputs": returns what is left of [decode_outputs] and the
    list [side_outputs]. *)
Definition U2Net_collect_side (m : U2Net) (h w : Z) (decode_outputs : list Tensor)
  : Result (list Tensor * list Tensor) :=
  for_each (U2Net_side_step h w) (side_modules m) (decode_outputs, []).

(** The value returned by [U2Net.construct]: [Union[Tensor, List[Tensor]]]. *)
Inductive Output :=
| OutTensor (t : Tensor)
| OutList (ts : list Tensor).

(** [U2Net.construct]; [training] is the cell's [self.training] attribute. *)
Definition U2Net_construct (m : U2Net) (training : bool) (x : Tensor)
  : Result Output :=
  let h := dimH (shape x) in
  let w := dimW (shape x) in
  '(_, encode_outputs) ← U2Net_collect_encode m x;
  '(_, decode_outputs) ← U2Net_collect_decode m encode_outputs;
  '(_, side_outputs) ← U2Net_collect_side m h w decode_outputs;
  let x := Conv2dOp (out_conv m) (CatOp side_outputs 1) in
  if training
  then Ok (OutList ([x] ++ side_outputs))
  else Ok (OutTensor (SigmoidOp x)).

(** The rows of [cfg] in [u2net_full]: En1 .. En6 and De5 .. De1. *)
Definition u2net_full_encode : list StageCfg :=
  [mkStageCfg 7 3 32 64 false false;
   mkStageCfg 6 64 32 128 false false;
   mkStageCfg 5 128 64 256 false false;
   mkStageCfg 4 256 128 512 false false;
   mkStageCfg 4 512 256 512 true false;
   mkStageCfg 4 512 256 512 true true].

Definition u2net_full_decode : list StageCfg :=
  [mkStageCfg 4 1024 256 512 true true;
   mkStageCfg 4 1024 128 256 false true;
   mkStageCfg 5 512 64 128 false true;
   mkStageCfg 6 256 32 64 false true;
   mkStageCfg 7 128 16 64 false true].

Definition u2net_full_cfg : gmap string (list StageCfg) :=
  {[ "encode" := u2net_full_encode; "decode" := u2net_full_decode ]}.

Definition u2net_full (out_ch : Z) : Result U2Net :=
  U2Net_init u2net_full_cfg out_ch.

(** The rows of [cfg] in [u2net_lite]: En1 .. En6 and De5 .. De1. *)
Definition u2net_lite_encode : list StageCfg :=
  [mkStageCfg 7 3 16 64 false false;
   mkStageCfg 6 64 16 64 false false;
   mkStageCfg 5 64 16 64 false false;
   mkStageCfg 4 64 16 64 false false;
   mkStageCfg 4 64 16 64 true false;
   mkStageCfg 4 64 16 64 true true].

Definition u2net_lite_decode : list StageCfg :=
  [mkStageCfg 4 128 16 64 true true;
   mkStageCfg 4 128 16 64 false true;
   mkStageCfg 5 128 16 64 false true;
   mkStageCfg 6 128 16 64 false true;
   mkStageCfg 7 128 16 64 false true].

Definition u2net_lite_cfg : gmap string (list StageCfg) :=
  {[ "encode" := u2net_lite_encode; "decode" := u2net_lite_decode ]}.

Definition u2net_lite (out_ch : Z) : Result U2Net :=
  U2Net_init u2net_lite_cfg out_ch.

(** ** Notions used to state the properties of the networks *)

(** The successive outputs of a stack of cells, each fed with the output of
    the one before it. *)
Fixpoint chain {M} (call : M → Tensor → Tensor) (ms : list M) (x : Tensor)
  : list Tensor :=
  match ms with
  | [] => []
  | m :: ms' => let y := call m x in y :: chain call ms' y
  end.

(** An encoder cell of [RSU] that down-samples: a [DownConvBNReLU] whose
    flag is set ([EncodeCell_construct_pools] relates this to [construct]). *)
Definition pools (c : EncodeCell) : bool :=
  match c with
  | EncDown m => down_flag m
  | EncPlain _ => false
  end.

(** The encoder stages of an [RSU] block that apply max pooling. *)
Definition pooling_stages (m : RSU) : list EncodeCell :=
  filter (λ c, pools c = true) (rsu_encode_modules m).

Definition is_DownConvBNReLU (c : EncodeCell) : bool :=
  match c with
  | EncDown _ => true
  | EncPlain _ => false
  end.

(** Every [ConvBNReLU] (sub)cell of a block. *)
Definition EncodeCell_base (c : EncodeCell) : ConvBNReLU :=
  match c with
  | EncDown m => down_base m
  | EncPlain m => m
  end.

Definition RSU_cells (m : RSU) : list ConvBNReLU :=
  rsu_conv_in m :: (EncodeCell_base <$> rsu_encode_modules m)
    ++ (up_base <$> rsu_decode_modules m).

Definition RSU4F_cells (m : RSU4F) : list ConvBNReLU :=
  rsu4f_conv_in m :: rsu4f_encode_modules m ++ rsu4f_decode_modules m.

(** A cell built with the default kernel size 3 and a dilation [d >= 1]. *)
Definition default_kernel (c : ConvBNReLU) : Prop :=
  ∃ in_ch out_ch d, d >= 1 ∧ c = ConvBNReLU_init in_ch out_ch 3 d.

(** The encoder outputs of an [RSU] block on input [x], first stage first. *)
Definition RSU_encoder_outputs (m : RSU) (x : Tensor) : list Tensor :=
  chain EncodeCell_construct (rsu_encode_modules m)
    (ConvBNReLU_construct (rsu_conv_in m) x).

(** The decoder of [RSU] as the specification words it: a stage takes the
    previous decoder output [prev], up-samples it to the resolution of the
    matching encoder output [skip] when its flag is set, and applies its
    ConvBNReLU to the channel-wise concatenation of the two. *)
Definition decoder_stage_spec (prev : Tensor) (ms : UpConvBNReLU * Tensor) : Tensor :=
  let '(m, skip) := ms in
  let up := if up_flag m
            then InterpolateOp (spatial skip) bilinear false prev
            else prev in
  ConvBNReLU_construct (up_base m) (CatOp [up; skip] 1).

(** The specification's reading of [RSU.construct]: the decoder stages are
    paired with the encoder outputs below the bottleneck, taken in reverse
    order, and the block's input projection is added at the end. *)
Definition RSU_spec (m : RSU) (x : Tensor) : option Tensor :=
  let x_in := ConvBNReLU_construct (rsu_conv_in m) x in
  let outs := RSU_encoder_outputs m x in
  bottleneck ← last outs;
  let skips := reverse (removelast outs) in
  if decide (length (rsu_decode_modules m) = length skips)
  then Some (AddOp (foldl decoder_stage_spec bottleneck
                      (zip (rsu_decode_modules m) skips)) x_in)
  else None.

(** A node [t] of a graph computed from [x] leaves the resolution alone:
    either it belongs to the graph of [x] itself, or it is neither a pooling
    nor a resizing node and has the height and width of [x]. *)
Definition keeps_resolution (x t : Tensor) : Prop :=
  t ∈ nodes x ∨ (is_resample t = false ∧ spatial t = spatial x).

(** All of the graph [y], computed from [x], leaves the resolution alone. *)
Definition resolution_kept (x y : Tensor) : Prop :=
  spatial y = spatial x ∧ ∀ t, t ∈ nodes y → keeps_resolution x t.

(** A side output: the side convolution [c] applied to [t], resized to
    [(h, w)]. *)
Definition side_output (h w : Z) (c : Conv2d) (t : Tensor) : Tensor :=
  InterpolateOp (h, w) bilinear false (Conv2dOp c t).

(** [t] is the output of one of the decoder stages of [m]. *)
Definition is_decode_stage_output (m : U2Net) (t : Tensor) : Prop :=
  ∃ d y, d ∈ decode_modules m ∧ Stage_construct d y = Ok t.

(** [t] is the output of one of the encoder stages of [m]. *)
Definition is_encode_stage_output (m : U2Net) (t : Tensor) : Prop :=
  ∃ e y, e ∈ encode_modules m ∧ Stage_construct e y = Ok t.

Definition Stage_conv_in (s : Stage) : ConvBNReLU :=
  match s with
  | StageRSU m => rsu_conv_in m
  | StageRSU4F m => rsu4f_conv_in m
  end.

(** The side heads that the loops of [U2Net.__init__] create for the rows
    [cfgs], starting from an empty [side_list]. *)
Definition side_heads (out_ch : Z) (cfgs : list StageCfg) : Result (list Conv2d) :=
  snd <$> for_each (U2Net_init_step out_ch) cfgs ([], []).

(** The stage [s] returns [t] on some input. *)
Definition produced (s : Stage) (t : Tensor) : Prop :=
  ∃ y, Stage_construct s y = Ok t.

(** The stage never raises, and what it returns is a residual sum whose
    second operand is the stage's input projection. *)
Definition Stage_total (s : Stage) : Prop :=
  ∀ x, ∃ d, Stage_construct s x = Ok (AddOp d (ConvBNReLU_construct (Stage_conv_in s) x)).

(** The stages built for the rows [cfgs], in order. *)
Fixpoint make_stages (cfgs : list StageCfg) : Result (list Stage) :=
  match cfgs with
  | [] => Ok []
  | c :: cfgs' => s ← make_stage c; ss ← make_stages cfgs'; Ok (s :: ss)
  end.

(** The side convolutions created for the rows whose [side] entry is set. *)
Definition side_convs (out_ch : Z) (cfgs : list StageCfg) : list Conv2d :=
  (λ c, nn_Conv2d (c_out_ch c) out_ch 3 1 1 false) <$> filter (λ c, c_side c = true) cfgs.

(** The lists of [construct] cannot run empty: the stages never raise, there
    is an encoder output for the first [pop] and for every decoder stage,
    and a decode output for every side module. *)
Definition U2Net_wf (m : U2Net) : Prop :=
  Forall Stage_total (encode_modules m) ∧
  Forall Stage_total (decode_modules m) ∧
  (length (decode_modules m) < length (encode_modules m))%nat ∧
  (length (side_modules m) ≤ S (length (decode_modules m)))%nat.

(** The two networks the module builds. *)
Definition shipped : list (Z → Result U2Net) := [u2net_full; u2net_lite].

(** The two networks, each with the encoder rows (En1 .. En6) and the
    decoder rows (De5 .. De1) of its configuration. *)
Definition shipped_rows : list ((Z → Result U2Net) * list StageCfg * list StageCfg) :=
  [(u2net_full, u2net_full_encode, u2net_full_decode);
   (u2net_lite, u2net_lite_encode, u2net_lite_decode)].

(** The side convolution [__init__] creates for a row that asks for one. *)
Definition side_head (out_ch : Z) (c : StageCfg) : Conv2d :=
  nn_Conv2d (c_out_ch c) out_ch 3 1 1 false.

(** What [u2net_full] and [u2net_lite] have in common: six encoder stages,
    five decoder stages, six side convolutions with [out_ch] output
    channels, a fusion convolution with [6 * out_ch] input channels, and a
    deepest encoder stage whose input projection differs from that of every
    decoder stage. *)
Record six_stage_net (out_ch : Z) (m : U2Net) : Prop := {
  six_encode_num : encode_num m = 6;
  six_encoders : length (encode_modules m) = 6%nat;
  six_decoders : length (decode_modules m) = 5%nat;
  six_sides : length (side_modules m) = 6%nat;
  six_sides_out : Forall (λ c, out_channels c = out_ch ∧ kernel_size c = 3 ∧ padding c = 1)
                    (side_modules m);
  six_out_conv : out_conv m = nn_Conv2d (6 * out_ch) out_ch 1 0 1 false;
  six_wf : U2Net_wf m;
  six_deepest : ∃ e6, last (encode_modules m) = Some e6 ∧ Stage_total e6 ∧
                      Forall (λ d, Stage_conv_in d ≠ Stage_conv_in e6) (decode_modules m)
}.

(** ** A small network for concrete runs *)

(** Two encoder rows and one decoder row; small enough for its graphs to
    be computed on a concrete input. *)
Definition tiny_cfg : gmap string (list StageCfg) :=
  {[ "encode" := [mkStageCfg 3 3 4 8 false false; mkStageCfg 4 8 4 8 true true];
     "decode" := [mkStageCfg 3 16 4 8 false true] ]}.

Definition output_shapes (o : Output) : list Shape :=
  match o with
  | OutList ts => shape <$> ts
  | OutTensor t => [shape t]
  end.

(** ** Shape agreement and data flow *)

(** Two extents that elementwise addition accepts: equal, or one of them 1. *)
Definition broadcast_dim (a b : Z) : Prop := a = b ∨ a = 1 ∨ b = 1.

Definition broadcastable (s s' : Shape) : Prop :=
  broadcast_dim (dimN s) (dimN s') ∧ broadcast_dim (dimC s) (dimC s') ∧
  broadcast_dim (dimH s) (dimH s') ∧ broadcast_dim (dimW s) (dimW s').

(** The operators of the graph [t] are all applied to arguments whose
    shapes fit: a convolution and a batch normalisation get the channel
    count they were built for, a concatenation along the channels gets
    tensors, at least one, that agree in the other dimensions, an addition
    gets broadcastable shapes. *)
Fixpoint well_shaped (t : Tensor) : Prop :=
  match t with
  | Input _ => True
  | Conv2dOp c x => well_shaped x ∧ dimC (shape x) = in_channels c
  | BatchNorm2dOp n x => well_shaped x ∧ dimC (shape x) = n
  | ReLUOp x | MaxPool2dOp _ _ _ x | InterpolateOp _ _ _ x | SigmoidOp x =>
      well_shaped x
  | CatOp xs _ =>
      foldr (λ x P, well_shaped x ∧ P) True xs ∧
      match shape <$> xs with
      | [] => False
      | s :: ss =>
          Forall (λ s', dimN s' = dimN s ∧ dimH s' = dimH s ∧ dimW s' = dimW s) ss
      end
  | AddOp x y => well_shaped x ∧ well_shaped y ∧ broadcastable (shape x) (shape y)
  end.

(** [t] is well shaped, with batch size [N] and [c] channels. *)
Definition batch_channels (N c : Z) (t : Tensor) : Prop :=
  well_shaped t ∧ dimN (shape t) = N ∧ dimC (shape t) = c.

(** Extent after a 2x2 max pooling of stride 2 in ceil mode. *)
Definition ceil_half (n : Z) : Z := (n + 1) `div` 2.

Definition ceil_half2 (hw : Z * Z) : Z * Z := (ceil_half hw.1, ceil_half hw.2).

(** A row whose stage has [c_out_ch] output channels: an RSU4F row, or an
    RSU row of height at least 3. *)
Definition row_ok (c : StageCfg) : bool :=
  c_RSU4F c || bool_decide (c_height c >= 3).

(** A row for which [U2Net.__init__] can build the stage. *)
Definition row_valid (c : StageCfg) : bool :=
  c_RSU4F c || bool_decide (c_height c >= 2).

(** The data flow of the encoder loop of [U2Net.construct]: every stage is
    run on the output of the stage before it, max-pooled unless that stage
    has index [n - 1]; [ys] are the outputs. *)
Fixpoint fed (n : Z) (ims : list (Z * Stage)) (x : Tensor) (ys : list Tensor) : Prop :=
  match ims, ys with
  | [], [] => True
  | (i, s) :: ims', y :: ys' =>
      Stage_construct s x = Ok y ∧
      fed n ims' (if decide (i ≠ n - 1) then MaxPool2dOp 2 2 true y else y) ys'
  | _, _ => False
  end.

(** The data flow of the decoder loop of [U2Net.construct]: every stage is
    run on the concatenation of the previous output, resized to the
    resolution of its skip connection, with that skip connection. *)
Fixpoint joined (ds : list Stage) (skips : list Tensor) (x : Tensor)
    (ys : list Tensor) : Prop :=
  match ds, skips, ys with
  | [], _, [] => True
  | d :: ds', k :: skips', y :: ys' =>
      Stage_construct d (CatOp [InterpolateOp (spatial k) bilinear false x; k] 1) = Ok y ∧
      joined ds' skips' y ys'
  | _, _, _ => False
  end.

(** The encoder rows are chained: every row builds a stage with [c_out_ch]
    output channels and takes as many input channels as the row before it
    gives ([cin] for the first). *)
Fixpoint enc_wired (cin : Z) (ce : list StageCfg) : bool :=
  match ce with
  | [] => true
  | c :: ce' => row_ok c && bool_decide (c_in_ch c = cin) && enc_wired (c_out_ch c) ce'
  end.

(** The decoder rows are chained: every row takes the channels of the row
    before it ([cprev] for the first) plus those of its skip connection
    ([ks], one channel count per row). *)
Fixpoint dec_wired (cprev : Z) (cd : list StageCfg) (ks : list Z) : bool :=
  match cd, ks with
  | [], _ => true
  | c :: cd', k :: ks' =>
      row_ok c && bool_decide (c_in_ch c = cprev + k) && dec_wired (c_out_ch c) cd' ks'
  | _ :: _, [] => false
  end.

(** A configuration whose channel counts fit together on inputs with [cin]
    channels: chained encoder rows, one decoder row per encoder row but the
    last, each taking the channels of the previous stage plus those of the
    encoder stage at its level, and a side output for the last encoder row
    and for every decoder row. *)
Definition U2Net_wired (cin : Z) (ce cd : list StageCfg) : bool :=
  match reverse (c_out_ch <$> ce) with
  | [] => false
  | c_last :: ks =>
      enc_wired cin ce && dec_wired c_last cd ks
      && bool_decide (length ce = S (length cd))
      && bool_decide (c_side <$> ce = replicate (length cd) false ++ [true])
      && forallb c_side cd
  end.

(** The tensors [U2Net.construct] returns. *)
Definition output_tensors (o : Output) : list Tensor :=
  match o with
  | OutList ts => ts
  | OutTensor t => [t]
  end.

(** ** Configuration rows as Python lists *)

(** [U2Net.__init__] receives each row [c] as a list, checks its length and
    tests two of its entries for identity with [False] and [True].  The
    values a row holds are integers and booleans. *)
Inductive PyVal :=
| PyInt (n : Z)
| PyBool (b : bool).

(** [v is False] and [v is True]: identity with the two singletons, which
    no integer is, not even 0 or 1. *)
Definition is_False (v : PyVal) : bool :=
  match v with
  | PyBool false => true
  | _ => false
  end.

Definition is_True (v : PyVal) : bool :=
  match v with
  | PyBool true => true
  | _ => false
  end.

(** The number a value is used as ([bool] is a subclass of [int]). *)
Definition int_of (v : PyVal) : Z :=
  match v with
  | PyInt n => n
  | PyBool b => if b then 1 else 0
  end.

(** Body of the two loops [for c in cfg[...]] of [U2Net.__init__] on a row
    given as a list.  After [assert len(c) == 6] the row has six entries:
    [c[:4]] are the first four, [c[1:4]] the second to fourth, and the last
    branch of the match is not reached.  On a row written with four
    integers and two booleans this is [U2Net_init_step]. *)
Definition U2Net_init_row (out_ch : Z) (st : list Stage * list Conv2d)
    (c : list PyVal) : Result (list Stage * list Conv2d) :=
  let '(stage_list, side_list) := st in
  _ ← py_assert (bool_decide (length c = 6%nat));
  match c with
  | [c0; c1; c2; c3; c4; c5] =>
      m ← (if is_False c4
           then StageRSU <$> RSU_init (int_of c0) (int_of c1) (int_of c2) (int_of c3)
           else Ok (StageRSU4F (RSU4F_init (int_of c1) (int_of c2) (int_of c3))));
      let stage_list := stage_list ++ [m] in
      let side_list :=
        if is_True c5
        then side_list ++ [nn_Conv2d (int_of c3) out_ch 3 1 1 false]
        else side_list in
      Ok (stage_list, side_list)
  | _ => Raise AssertionError
  end.

(** [U2Net.__init__] on a configuration whose rows are lists. *)
Definition U2Net_init_rows (cfg : gmap string (list (list PyVal))) (out_ch : Z)
  : Result U2Net :=
  _ ← py_assert (dict_in "encode" cfg);
  _ ← py_assert (dict_in "decode" cfg);
  cfg_encode ← dict_get cfg "encode";
  let encode_num := Z.of_nat (length cfg_encode) in
  '(encode_list, side_list) ← for_each (U2Net_init_row out_ch) cfg_encode ([], []);
  cfg_decode ← dict_get cfg "decode";
  '(decode_list, side_list) ← for_each (U2Net_init_row out_ch) cfg_decode ([], side_list);
  Ok (mkU2Net encode_num encode_list decode_list side_list
        (nn_Conv2d (encode_num * out_ch) out_ch 1 0 1 false)).

(** A row as the list [[height, in_ch, mid_ch, out_ch, RSU4F, side]]. *)
Definition row_list (c : StageCfg) : list PyVal :=
  [PyInt (c_height c); PyInt (c_in_ch c); PyInt (c_mid_ch c); PyInt (c_out_ch c);
   PyBool (c_RSU4F c); PyBool (c_side c)].

(** How [__init__] reads a list of six entries: the fifth entry selects
    [RSU] only when it is [False], the sixth asks for a side output only
    when it is [True]. *)
Definition read_row (c : list PyVal) : option StageCfg :=
  match c with
  | [c0; c1; c2; c3; c4; c5] =>
      Some (mkStageCfg (int_of c0) (int_of c1) (int_of c2) (int_of c3)
              (negb (is_False c4)) (is_True c5))
  | _ => None
  end.

(** The assertions [__init__] runs for a row pass: the row has six entries
    and, when it asks for an [RSU] block, a height of at least 2. *)
Definition row_passes (c : list PyVal) : bool :=
  match read_row c with
  | Some r => row_valid r
  | None => false
  end.

(** The channel counts of a row, [c[1:4]], are positive integers: what
    the framework's constructors are given is then a positive [int]. *)
Definition channels_positive (c : list PyVal) : bool :=
  forallb (λ v, match v with
                | PyInt n => bool_decide (0 < n)
                | PyBool _ => false
                end) (take 3 (drop 1 c)).

(** A configuration that writes two of its flags as integers: [0] for the
    [RSU4F] entry of the second encoder row and [1] for the [side] entry of
    the decoder row. *)
Definition int_flags_cfg : gmap string (list (list PyVal)) :=
  {[ "encode" := [[PyInt 3; PyInt 3; PyInt 4; PyInt 8; PyBool false; PyBool false];
                  [PyInt 4; PyInt 8; PyInt 4; PyInt 8; PyInt 0; PyBool true]];
     "decode" := [[PyInt 3; PyInt 16; PyInt 4; PyInt 8; PyBool false; PyInt 1]] ]}.

(** * Properties *)

(** ** Concrete runs *)

Example RSU_init_height_1 : RSU_init 1 3 4 8 = Raise AssertionError.
Proof. reflexivity. Qed.

Example RSU_init_height_4_pools :
  (λ m, pools <$> rsu_encode_modules m) <$> RSU_init 4 3 4 8
  = Ok [false; true; true; false].
Proof. vm_compute. reflexivity. Qed.

Example RSU_run_height_4 :
  (m ← RSU_init 4 3 4 8;
   '(y, rest) ← RSU_run m (Input (mkShape 1 3 9 9));
   Ok (shape y, rest, spatial <$> RSU_encoder_outputs m (Input (mkShape 1 3 9 9))))
  = Ok (mkShape 1 8 9 9, [], [(9, 9); (5, 5); (3, 3); (3, 3)]).
Proof. vm_compute. reflexivity. Qed.

Example tiny_training :
  (m ← U2Net_init tiny_cfg 1;
   out ← U2Net_construct m true (Input (mkShape 1 3 7 5));
   Ok (output_shapes out))
  = Ok [mkShape 1 1 7 5; mkShape 1 1 7 5; mkShape 1 1 7 5].
Proof. vm_compute. reflexivity. Qed.

Example tiny_inference :
  (m ← U2Net_init tiny_cfg 1;
   out ← U2Net_construct m false (Input (mkShape 1 3 7 5));
   Ok (output_shapes out))
  = Ok [mkShape 1 1 7 5].
Proof. vm_compute. reflexivity. Qed.

(** As many decoder rows as encoder rows: the decoder loop pops from an
    empty [encode_outputs]. *)
Example unbalanced_cfg_raises :
  (m ← U2Net_init {[ "encode" := [mkStageCfg 3 3 4 8 false false];
                     "decode" := [mkStageCfg 3 16 4 8 false true] ]} 1;
   U2Net_construct m true (Input (mkShape 1 3 7 5)))
  = Raise IndexError.
Proof. vm_compute. reflexivity. Qed.

Example missing_decode_key : U2Net_init {[ "encode" := [] ]} 1 = Raise AssertionError.
Proof. vm_compute. reflexivity. Qed.

(** Flags written as integers: [0 is False] does not hold, so the second
    encoder row builds an [RSU4F] block; [1 is True] does not hold, so the
    decoder row gets no side convolution. *)
Example int_flags_stages :
  ∃ m r1 f2 r3,
    U2Net_init_rows int_flags_cfg 1 = Ok m ∧
    encode_modules m = [StageRSU r1; StageRSU4F f2] ∧
    decode_modules m = [StageRSU r3] ∧
    side_modules m = [nn_Conv2d 8 1 3 1 1 false].
Proof. eexists _, _, _, _. repeat split; vm_compute; reflexivity. Qed.

Example five_entry_row_raises :
  U2Net_init_rows {[ "encode" := [[PyInt 3; PyInt 3; PyInt 4; PyInt 8; PyBool false]];
                     "decode" := [] ]} 1 = Raise AssertionError.
Proof. vm_compute. reflexivity. Qed.

(** ** Python lists and loops *)

Section python_lists.
Context {A : Type}.
Implicit Types l : list A.

Lemma default_last_cons (x y : A) l :
  default x (last (y :: l)) = default y (last l).
Proof. rewrite last_cons. by destruct (last l). Qed.

Lemma pop_snoc l x : pop (l ++ [x]) = Ok (x, l).
Proof. unfold pop. by rewrite last_snoc, removelast_last. Qed.

Lemma pop_nil : pop (@nil A) = Raise IndexError.
Proof. done. Qed.

Lemma pop_Ok_inv l x l' : pop l = Ok (x, l') → l = l' ++ [x].
Proof.
  destruct l as [|a l0] using rev_ind; [done|].
  rewrite pop_snoc. by intros [= -> ->].
Qed.

(** [pop] raises exactly on the empty list. *)
Lemma pop_Raise_iff l : (∃ e, pop l = Raise e) ↔ l = [].
Proof.
  split.
  - intros [e He]. destruct l as [|a l0] using rev_ind; [done|].
    by rewrite pop_snoc in He.
  - intros ->. by exists IndexError.
Qed.
End python_lists.

Section chains.
Context {M : Type} (call : M → Tensor → Tensor).

Lemma length_chain ms x : length (chain call ms x) = length ms.
Proof. revert x. induction ms as [|m ms IH]; intros x; simpl; [done|]. by rewrite IH. Qed.

(** The loop [for m in modules: x = m(x); outputs.append(x)]. *)
Lemma foldl_encode_step ms x outs :
  foldl (encode_step call) (x, outs) ms =
  (default x (last (chain call ms x)), outs ++ chain call ms x).
Proof.
  revert x outs. induction ms as [|m ms IH]; intros x outs; simpl.
  - by rewrite app_nil_r.
  - rewrite IH, <- app_assoc. f_equal. symmetry. apply default_last_cons.
Qed.
End chains.

(** ** [RSU.__init__] *)

Lemma RSU_init_loop height mid_ch out_ch l e d :
  foldl (RSU_init_step height mid_ch out_ch) (e, d) l =
  (e ++ replicate (length l) (EncDown (DownConvBNReLU_init mid_ch mid_ch 3 1 true)),
   d ++ ((λ i, UpConvBNReLU_init (mid_ch * 2)
                 (if decide (i < height - 3) then mid_ch else out_ch) 3 1 true) <$> l)).
Proof.
  revert e d. induction l as [|i l IH]; intros e d; simpl.
  - by rewrite !app_nil_r.
  - rewrite IH. by rewrite <- !app_assoc.
Qed.

(** For [height >= 2] the constructor succeeds, and this is the block it
    builds. *)
Lemma RSU_init_Ok height in_ch mid_ch out_ch :
  height >= 2 →
  RSU_init height in_ch mid_ch out_ch =
  Ok (mkRSU (ConvBNReLU_init in_ch out_ch 3 1)
        ([EncDown (DownConvBNReLU_init out_ch mid_ch 3 1 false)]
           ++ replicate (Z.to_nat (height - 2))
                (EncDown (DownConvBNReLU_init mid_ch mid_ch 3 1 true))
           ++ [EncPlain (ConvBNReLU_init mid_ch mid_ch 3 2)])
        ([UpConvBNReLU_init (mid_ch * 2) mid_ch 3 1 false]
           ++ ((λ i, UpConvBNReLU_init (mid_ch * 2)
                       (if decide (i < height - 3) then mid_ch else out_ch) 3 1 true)
                 <$> range (height - 2)))).
Proof.
  intros Hh. unfold RSU_init.
  rewrite bool_decide_true by done. simpl.
  rewrite RSU_init_loop. unfold range. rewrite length_seqZ.
  by rewrite <- app_assoc.
Qed.

Lemma RSU_init_Raise height in_ch mid_ch out_ch :
  height < 2 → RSU_init height in_ch mid_ch out_ch = Raise AssertionError.
Proof.
  intros Hh. unfold RSU_init. rewrite bool_decide_false by lia. done.
Qed.

Lemma RSU_init_lengths height in_ch mid_ch out_ch m :
  RSU_init height in_ch mid_ch out_ch = Ok m →
  height >= 2 ∧
  Z.of_nat (length (rsu_encode_modules m)) = height ∧
  Z.of_nat (length (rsu_decode_modules m)) = height - 1.
Proof.
  intros Hm. destruct (decide (height >= 2)) as [Hh|Hh].
  - rewrite RSU_init_Ok in Hm by done. injection Hm as <-. simpl.
    rewrite !length_app, length_replicate, length_fmap. unfold range.
    rewrite length_seqZ. simpl. lia.
  - rewrite RSU_init_Raise in Hm by lia. done.
Qed.

(** ** [RSU.construct] *)

(** The decoder loop: when [encode_outputs] ends with the reversed list
    [skips], one skip per decoder stage, the loop pops them all and computes
    the left fold of the stages over the pairs (stage, skip). *)
Lemma RSU_decode_loop ds : ∀ x outs skips,
  length skips = length ds →
  for_each RSU_decode_step ds (x, outs ++ reverse skips) =
  Ok (foldl decoder_stage_spec x (zip ds skips), outs).
Proof.
  induction ds as [|d ds IH]; intros x outs [|s skips] Hlen;
    simplify_eq/=; [by rewrite app_nil_r|].
  rewrite reverse_cons, app_assoc, pop_snoc. simpl.
  by rewrite IH.
Qed.

(** If the decoder loop does not raise, [encode_outputs] held at least one
    element per decoder stage. *)
Lemma RSU_decode_loop_Ok_inv ds : ∀ x outs r,
  for_each RSU_decode_step ds (x, outs) = Ok r →
  (length ds ≤ length outs)%nat.
Proof.
  induction ds as [|d ds IH]; intros x outs r Hr; simpl in *; [lia|].
  destruct outs as [|o outs _] using rev_ind; [done|].
  rewrite pop_snoc in Hr. simpl in Hr. apply IH in Hr.
  rewrite length_app. simpl. lia.
Qed.

Lemma RSU_run_balanced m x :
  length (rsu_encode_modules m) = S (length (rsu_decode_modules m)) →
  ∃ bottleneck skips,
    RSU_encoder_outputs m x = reverse skips ++ [bottleneck] ∧
    length skips = length (rsu_decode_modules m) ∧
    RSU_run m x =
    Ok (AddOp (foldl decoder_stage_spec bottleneck (zip (rsu_decode_modules m) skips))
          (ConvBNReLU_construct (rsu_conv_in m) x), []).
Proof.
  intros Hlen. unfold RSU_run.
  rewrite foldl_encode_step. simpl.
  pose proof (length_chain EncodeCell_construct (rsu_encode_modules m)
                (ConvBNReLU_construct (rsu_conv_in m) x)) as Hc.
  fold (RSU_encoder_outputs m x) in Hc |- *.
  destruct (RSU_encoder_outputs m x) as [|b outs _] using rev_ind.
  { simpl in Hc. lia. }
  rewrite length_app in Hc. simpl in Hc.
  exists b, (reverse outs). rewrite reverse_involutive, length_reverse.
  split; [done|]. split; [lia|].
  rewrite pop_snoc. simpl.
  rewrite <- (reverse_involutive outs) at 1.
  rewrite <- (app_nil_l (reverse (reverse outs))).
  rewrite RSU_decode_loop by (rewrite length_reverse; lia).
  done.
Qed.

(** When the iteration of the decoder loop for the stage [d] starts,
    [encode_outputs] is not empty. *)
Lemma RSU_decode_prefix ds1 d ds2 x skips :
  length skips = length (ds1 ++ d :: ds2) →
  ∃ x1 outs1,
    for_each RSU_decode_step ds1 (x, reverse skips) = Ok (x1, outs1) ∧ outs1 ≠ [].
Proof.
  intros Hlen. rewrite length_app in Hlen. simpl in Hlen.
  rewrite <- (take_drop (length ds1) skips), reverse_app.
  rewrite RSU_decode_loop by (rewrite length_take; lia).
  eexists _, _. split; [done|].
  intros Hnil. apply (f_equal length) in Hnil.
  rewrite length_reverse, length_drop in Hnil. simpl in Hnil. lia.
Qed.

Lemma EncodeCell_construct_pools c x :
  EncodeCell_construct c x =
  ConvBNReLU_construct (EncodeCell_base c)
    (if pools c then MaxPool2dOp 2 2 true x else x).
Proof. by destruct c as [[b []]|b]. Qed.

Lemma UpConvBNReLU_construct_spec m prev skip :
  UpConvBNReLU_construct m prev skip = decoder_stage_spec prev (m, skip).
Proof. done. Qed.

(** ** Shape preservation of [ConvBNReLU] *)

Lemma conv_out_ConvBNReLU_init in_ch out_ch d n :
  conv_out (conv (ConvBNReLU_init in_ch out_ch 3 d)) n = n.
Proof.
  unfold conv_out, ConvBNReLU_init. simpl.
  rewrite Z.div_1_r. case_decide; subst; [change (3 `div` 2) with 1|]; lia.
Qed.

Lemma spatial_ConvBNReLU_construct in_ch out_ch d x :
  spatial (ConvBNReLU_construct (ConvBNReLU_init in_ch out_ch 3 d) x) = spatial x.
Proof.
  unfold spatial. cbn [ConvBNReLU_construct shape dimH dimW].
  by rewrite !conv_out_ConvBNReLU_init.
Qed.

Lemma RSU_cells_default_kernel height in_ch mid_ch out_ch m c :
  RSU_init height in_ch mid_ch out_ch = Ok m →
  c ∈ RSU_cells m → default_kernel c.
Proof.
  intros Hm Hc. destruct (RSU_init_lengths _ _ _ _ _ Hm) as (Hh & _ & _).
  rewrite RSU_init_Ok in Hm by done. injection Hm as <-.
  unfold RSU_cells in Hc. cbn [rsu_conv_in rsu_encode_modules rsu_decode_modules] in Hc.
  set_unfold in Hc. unfold default_kernel.
  destruct Hc as [->|[->|[(e & -> & [He|[->|[]]])|(u & -> & [->|(i & -> & _)])]]].
  - exists in_ch, out_ch, 1. by split; [lia|].
  - exists out_ch, mid_ch, 1. by split; [lia|].
  - apply elem_of_replicate in He as [-> _]. exists mid_ch, mid_ch, 1. by split; [lia|].
  - exists mid_ch, mid_ch, 2. by split; [lia|].
  - exists (mid_ch * 2), mid_ch, 1. by split; [lia|].
  - exists (mid_ch * 2), (if decide (i < height - 3) then mid_ch else out_ch), 1.
    by split; [lia|].
Qed.

Lemma RSU4F_cells_default_kernel in_ch mid_ch out_ch c :
  c ∈ RSU4F_cells (RSU4F_init in_ch mid_ch out_ch) → default_kernel c.
Proof.
  unfold RSU4F_cells, RSU4F_init, default_kernel. simpl. intros Hc.
  repeat (apply elem_of_cons in Hc as [->|Hc];
          [eexists _, _, _; split; [|reflexivity]; lia|]).
  by apply elem_of_nil in Hc.
Qed.

(** ** Properties of [RSU] *)

(** C1, as the specification states it, fails: the RSU block of height 7
    that [u2net_full] uses as its first encoder stage has five encoder stages
    that apply max pooling, not [height - 1 = 6]. *)
Lemma C1_pooling_stages_counterexample :
  ∃ m, RSU_init 7 3 32 64 = Ok m ∧
       Z.of_nat (length (pooling_stages m)) ≠ 7 - 1.
Proof.
  eexists. split; [by rewrite RSU_init_Ok|]. vm_compute. done.
Qed.

(** C1 (amended): for every [height >= 2] the encoder of the RSU block is
    made of [height - 1] [DownConvBNReLU] stages followed by a bottleneck
    stage of dilation 2.  The first [DownConvBNReLU] has its flag cleared
    and does not pool; the other [height - 2] apply 2x2 max pooling (stride
    2, ceil mode) before their ConvBNReLU; so exactly [height - 2] stages
    down-sample. *)
Theorem C1_RSU_encoder_stages height in_ch mid_ch out_ch :
  height >= 2 →
  ∃ m first downs bottleneck,
    RSU_init height in_ch mid_ch out_ch = Ok m ∧
    rsu_encode_modules m = [EncDown first] ++ (EncDown <$> downs) ++ [EncPlain bottleneck] ∧
    down_flag first = false ∧
    Z.of_nat (length (EncDown first :: (EncDown <$> downs))) = height - 1 ∧
    Forall (λ d, down_flag d = true) downs ∧
    Z.of_nat (length (pooling_stages m)) = height - 2 ∧
    dilation (conv bottleneck) = 2 ∧
    (∀ d x, d ∈ downs →
       DownConvBNReLU_construct d x =
       ConvBNReLU_construct (down_base d) (MaxPool2dOp 2 2 true x)) ∧
    (∀ x, DownConvBNReLU_construct first x = ConvBNReLU_construct (down_base first) x).
Proof.
  intros Hh.
  set (n := Z.to_nat (height - 2)).
  exists (mkRSU (ConvBNReLU_init in_ch out_ch 3 1)
            ([EncDown (DownConvBNReLU_init out_ch mid_ch 3 1 false)]
               ++ replicate n (EncDown (DownConvBNReLU_init mid_ch mid_ch 3 1 true))
               ++ [EncPlain (ConvBNReLU_init mid_ch mid_ch 3 2)])
            ([UpConvBNReLU_init (mid_ch * 2) mid_ch 3 1 false]
               ++ ((λ i, UpConvBNReLU_init (mid_ch * 2)
                           (if decide (i < height - 3) then mid_ch else out_ch) 3 1 true)
                     <$> range (height - 2)))),
    (DownConvBNReLU_init out_ch mid_ch 3 1 false),
    (replicate n (DownConvBNReLU_init mid_ch mid_ch 3 1 true)),
    (ConvBNReLU_init mid_ch mid_ch 3 2).
  split; [by apply RSU_init_Ok|].
  split; [by rewrite fmap_replicate|].
  split; [done|].
  split; [simpl; rewrite length_fmap, length_replicate; lia|].
  split; [by apply Forall_replicate|].
  split.
  { unfold pooling_stages. cbn [rsu_encode_modules].
    rewrite !filter_app, !length_app.
    assert (filter (λ c, pools c = true)
              (replicate n (EncDown (DownConvBNReLU_init mid_ch mid_ch 3 1 true)))
            = replicate n (EncDown (DownConvBNReLU_init mid_ch mid_ch 3 1 true))) as ->.
    { induction n as [|k IH]; [done|]. simpl. rewrite filter_cons_True by done.
      by rewrite IH. }
    rewrite length_replicate. simpl. lia. }
  split; [done|].
  split; [|done].
  intros d x Hd. by apply elem_of_replicate in Hd as [-> _].
Qed.

Lemma C1_RSU_encoder_stages_witness :
  ∃ m first downs bottleneck,
    RSU_init 7 3 32 64 = Ok m ∧
    rsu_encode_modules m = [EncDown first] ++ (EncDown <$> downs) ++ [EncPlain bottleneck] ∧
    down_flag first = false ∧
    Z.of_nat (length (EncDown first :: (EncDown <$> downs))) = 7 - 1 ∧
    Forall (λ d, down_flag d = true) downs ∧
    Z.of_nat (length (pooling_stages m)) = 7 - 2 ∧
    dilation (conv bottleneck) = 2 ∧
    (∀ d x, d ∈ downs →
       DownConvBNReLU_construct d x =
       ConvBNReLU_construct (down_base d) (MaxPool2dOp 2 2 true x)) ∧
    (∀ x, DownConvBNReLU_construct first x = ConvBNReLU_construct (down_base first) x).
Proof. apply (C1_RSU_encoder_stages 7 3 32 64). lia. Defined.

(** C5 fails at [height = 2], which [assert height >= 2] admits: the loop
    of [RSU.__init__] that gives the last decoder cell [out_ch] output
    channels does not run, so the only decoder cell has [mid_ch] output
    channels.  For [RSU(2, 3, 4, 8)] on a tensor of shape (1, 3, 8, 8) the
    data flow is the one the claim describes (the decoder cell takes the
    concatenation of the bottleneck output with the first encoder output),
    every call before [x + x_in] is given shapes that fit, but [x] has shape
    (1, 4, 8, 8) and [x_in] has shape (1, 8, 8, 8): the two operands of the
    residual sum cannot be broadcast, and no tensor is returned. *)
Theorem C5_RSU_height_2_residual_mismatch :
  ∃ m d x_in e0 bottleneck,
    RSU_init 2 3 4 8 = Ok m ∧
    RSU_encoder_outputs m (Input (mkShape 1 3 8 8)) = [e0; bottleneck] ∧
    rsu_decode_modules m = [UpConvBNReLU_init (4 * 2) 4 3 1 false] ∧
    d = UpConvBNReLU_construct (UpConvBNReLU_init (4 * 2) 4 3 1 false) bottleneck e0 ∧
    x_in = ConvBNReLU_construct (rsu_conv_in m) (Input (mkShape 1 3 8 8)) ∧
    RSU_construct m (Input (mkShape 1 3 8 8)) = Ok (AddOp d x_in) ∧
    well_shaped d ∧ well_shaped x_in ∧
    shape d = mkShape 1 4 8 8 ∧
    shape x_in = mkShape 1 8 8 8 ∧
    ¬ broadcastable (shape d) (shape x_in) ∧
    ¬ well_shaped (AddOp d x_in).
Proof.
  eexists _, _, _, _, _.
  split; [vm_compute; reflexivity|].
  split; [vm_compute; reflexivity|].
  split; [reflexivity|]. split; [reflexivity|]. split; [reflexivity|].
  split; [vm_compute; reflexivity|].
  split; [cbn; repeat split; repeat constructor; done|].
  split; [cbn; repeat split; done|].
  split; [vm_compute; reflexivity|]. split; [vm_compute; reflexivity|].
  assert (∀ a b, shape a = mkShape 1 4 8 8 → shape b = mkShape 1 8 8 8 →
                 ¬ broadcastable (shape a) (shape b)) as Hnb.
  { intros a b -> -> (_ & [HC|[HC|HC]] & _); simpl in HC; lia. }
  split.
  - apply Hnb; vm_compute; reflexivity.
  - intros (_ & _ & Hb). revert Hb. apply Hnb; vm_compute; reflexivity.
Qed.

(** C8: for every [height >= 2], [RSU] builds [height] encoder modules and
    [height - 1] decoder modules; on every input, [encode_outputs] is not
    empty at the first [pop] nor when the iteration of any decoder stage
    starts, [RSU.construct] returns (no [pop] raised [IndexError]), and
    [encode_outputs] is empty when the decoder loop ends. *)
Theorem C8_RSU_pops_in_range height in_ch mid_ch out_ch :
  height >= 2 →
  ∃ m,
    RSU_init height in_ch mid_ch out_ch = Ok m ∧
    Z.of_nat (length (rsu_encode_modules m)) = height ∧
    Z.of_nat (length (rsu_decode_modules m)) = height - 1 ∧
    ∀ x, ∃ y bottleneck outs,
      pop (RSU_encoder_outputs m x) = Ok (bottleneck, outs) ∧
      (∀ ds1 d ds2, rsu_decode_modules m = ds1 ++ d :: ds2 →
         ∃ x1 outs1,
           for_each RSU_decode_step ds1 (bottleneck, outs) = Ok (x1, outs1) ∧
           outs1 ≠ []) ∧
      RSU_run m x = Ok (y, []).
Proof.
  intros Hh.
  destruct (RSU_init height in_ch mid_ch out_ch) as [m|e] eqn:Hm;
    [|by rewrite RSU_init_Ok in Hm].
  destruct (RSU_init_lengths _ _ _ _ _ Hm) as (_ & Hle & Hld).
  exists m. split; [done|]. split; [done|]. split; [done|].
  intros x. destruct (RSU_run_balanced m x) as (b & skips & Houts & Hlen & Hrun); [lia|].
  eexists _, b, (reverse skips).
  split; [by rewrite Houts, pop_snoc|]. split; [|done].
  intros ds1 d ds2 Hds. apply (RSU_decode_prefix ds1 d ds2). by rewrite <- Hds.
Qed.

Lemma C8_RSU_pops_in_range_witness :
  ∃ m,
    RSU_init 4 256 128 512 = Ok m ∧
    Z.of_nat (length (rsu_encode_modules m)) = 4 ∧
    Z.of_nat (length (rsu_decode_modules m)) = 4 - 1 ∧
    ∀ x, ∃ y bottleneck outs,
      pop (RSU_encoder_outputs m x) = Ok (bottleneck, outs) ∧
      (∀ ds1 d ds2, rsu_decode_modules m = ds1 ++ d :: ds2 →
         ∃ x1 outs1,
           for_each RSU_decode_step ds1 (bottleneck, outs) = Ok (x1, outs1) ∧
           outs1 ≠ []) ∧
      RSU_run m x = Ok (y, []).
Proof. apply (C8_RSU_pops_in_range 4 256 128 512). lia. Defined.

(** C10: with the default kernel size 3 and any dilation [d >= 1], the
    padding chosen by [ConvBNReLU] ([kernel_size // 2] when [d = 1], [d]
    otherwise) makes the convolution, and so the whole cell, keep the height
    and width of its input; every ConvBNReLU cell of an [RSU] block (of any
    [height >= 2]) and of an [RSU4F] block is such a cell. *)
Theorem C10_ConvBNReLU_shape_preserving in_ch mid_ch out_ch height d x :
  d >= 1 → height >= 2 →
  (padding (conv (ConvBNReLU_init in_ch out_ch 3 d))
     = (if decide (d = 1) then 3 `div` 2 else d) ∧
   spatial (Conv2dOp (conv (ConvBNReLU_init in_ch out_ch 3 d)) x) = spatial x ∧
   spatial (ConvBNReLU_construct (ConvBNReLU_init in_ch out_ch 3 d) x) = spatial x) ∧
  (∃ m, RSU_init height in_ch mid_ch out_ch = Ok m ∧
        ∀ c y, c ∈ RSU_cells m →
               kernel_size (conv c) = 3 ∧
               spatial (ConvBNReLU_construct c y) = spatial y) ∧
  (∀ c y, c ∈ RSU4F_cells (RSU4F_init in_ch mid_ch out_ch) →
          kernel_size (conv c) = 3 ∧
          spatial (ConvBNReLU_construct c y) = spatial y).
Proof.
  intros Hd Hh. split; [|split].
  - split; [done|]. split; [|apply spatial_ConvBNReLU_construct].
    unfold spatial. cbn [shape dimH dimW].
    by rewrite !conv_out_ConvBNReLU_init.
  - destruct (RSU_init height in_ch mid_ch out_ch) as [m|e] eqn:Hm;
      [|by rewrite RSU_init_Ok in Hm].
    exists m. split; [done|]. intros c y Hc.
    destruct (RSU_cells_default_kernel _ _ _ _ _ _ Hm Hc) as (a & b & k & _ & ->).
    split; [done|]. apply spatial_ConvBNReLU_construct.
  - intros c y Hc.
    destruct (RSU4F_cells_default_kernel _ _ _ _ Hc) as (a & b & k & _ & ->).
    split; [done|]. apply spatial_ConvBNReLU_construct.
Qed.

Lemma C10_ConvBNReLU_shape_preserving_witness :
  (padding (conv (ConvBNReLU_init 16 64 3 8)) = (if decide (8 = 1) then 3 `div` 2 else 8) ∧
   spatial (Conv2dOp (conv (ConvBNReLU_init 16 64 3 8)) (Input (mkShape 1 16 18 18)))
     = spatial (Input (mkShape 1 16 18 18)) ∧
   spatial (ConvBNReLU_construct (ConvBNReLU_init 16 64 3 8) (Input (mkShape 1 16 18 18)))
     = spatial (Input (mkShape 1 16 18 18))) ∧
  (∃ m, RSU_init 5 16 32 64 = Ok m ∧
        ∀ c y, c ∈ RSU_cells m →
               kernel_size (conv c) = 3 ∧
               spatial (ConvBNReLU_construct c y) = spatial y) ∧
  (∀ c y, c ∈ RSU4F_cells (RSU4F_init 16 32 64) →
          kernel_size (conv c) = 3 ∧
          spatial (ConvBNReLU_construct c y) = spatial y).
Proof.
  apply (C10_ConvBNReLU_shape_preserving 16 32 64 5 8 (Input (mkShape 1 16 18 18))); lia.
Defined.

(** ** [RSU4F] *)

Lemma resolution_kept_refl x : resolution_kept x x.
Proof. split; [done|]. intros t Ht. by left. Qed.

Lemma resolution_kept_ConvBNReLU x y in_ch out_ch d :
  resolution_kept x y →
  resolution_kept x (ConvBNReLU_construct (ConvBNReLU_init in_ch out_ch 3 d) y).
Proof.
  intros [Hs Hn].
  assert (∀ c, spatial (Conv2dOp (conv (ConvBNReLU_init in_ch out_ch 3 d)) y) = c →
               c = spatial x) as Hconv.
  { intros c <-. unfold spatial. cbn [shape dimH dimW].
    by rewrite !conv_out_ConvBNReLU_init. }
  split.
  - by rewrite spatial_ConvBNReLU_construct.
  - intros t Ht. unfold ConvBNReLU_construct in Ht. cbn [nodes] in Ht.
    rewrite !elem_of_cons in Ht. destruct Ht as [->|[->|[->|Ht]]]; [| | |by apply Hn].
    all: right; split; [done|]; by apply Hconv.
Qed.

Lemma resolution_kept_cat x y1 y2 :
  resolution_kept x y1 → resolution_kept x y2 →
  resolution_kept x (CatOp [y1; y2] 1).
Proof.
  intros [Hs1 Hn1] [Hs2 Hn2]. split; [done|].
  intros t Ht. cbn [nodes fmap list_fmap concat] in Ht.
  rewrite app_nil_r, elem_of_cons, elem_of_app in Ht.
  destruct Ht as [->|[Ht|Ht]]; [|by apply Hn1|by apply Hn2].
  by right.
Qed.

Lemma resolution_kept_add x y1 y2 :
  resolution_kept x y1 → resolution_kept x y2 →
  resolution_kept x (AddOp y1 y2).
Proof.
  intros [Hs1 Hn1] [Hs2 Hn2].
  assert (spatial (AddOp y1 y2) = spatial x) as Hs.
  { unfold spatial in *. cbn [shape dimH dimW].
    injection Hs1 as -> ->. injection Hs2 as -> ->. by rewrite !Z.max_id. }
  split; [done|].
  intros t Ht. cbn [nodes] in Ht. rewrite elem_of_cons, elem_of_app in Ht.
  destruct Ht as [->|[Ht|Ht]]; [|by apply Hn1|by apply Hn2].
  by right.
Qed.

(** Follows the structure of the graph; matching on the head symbol keeps
    unification away from the shape computations. *)
Ltac resolution_kept :=
  lazymatch goal with
  | |- resolution_kept _ (ConvBNReLU_construct _ _) =>
      apply resolution_kept_ConvBNReLU; resolution_kept
  | |- resolution_kept _ (CatOp _ _) =>
      apply resolution_kept_cat; resolution_kept
  | |- resolution_kept _ (AddOp _ _) =>
      apply resolution_kept_add; resolution_kept
  | |- resolution_kept ?x ?x => apply resolution_kept_refl
  end.

(** [RSU4F.construct] never raises; this is the graph it returns. *)
Lemma RSU4F_run_Ok in_ch mid_ch out_ch x :
  let cell := ConvBNReLU_construct in
  let x_in := cell (ConvBNReLU_init in_ch out_ch 3 1) x in
  let e1 := cell (ConvBNReLU_init out_ch mid_ch 3 1) x_in in
  let e2 := cell (ConvBNReLU_init mid_ch mid_ch 3 2) e1 in
  let e3 := cell (ConvBNReLU_init mid_ch mid_ch 3 4) e2 in
  let e4 := cell (ConvBNReLU_init mid_ch mid_ch 3 8) e3 in
  let d3 := cell (ConvBNReLU_init (mid_ch * 2) mid_ch 3 4) (CatOp [e4; e3] 1) in
  let d2 := cell (ConvBNReLU_init (mid_ch * 2) mid_ch 3 2) (CatOp [d3; e2] 1) in
  let d1 := cell (ConvBNReLU_init (mid_ch * 2) out_ch 3 1) (CatOp [d2; e1] 1) in
  RSU4F_run (RSU4F_init in_ch mid_ch out_ch) x = Ok (AddOp d1 x_in, []).
Proof. reflexivity. Qed.

(** C4: [RSU4F] applies no pooling and no resizing, so every tensor it
    computes has the height and width of the input; the dilation rates of
    its encoder stages are 1, 2, 4, 8 in that order and those of its decoder
    stages 4, 2, 1. *)
Theorem C4_RSU4F_dilated_no_resampling in_ch mid_ch out_ch x :
  (dilation ∘ conv) <$> rsu4f_encode_modules (RSU4F_init in_ch mid_ch out_ch)
    = [1; 2; 4; 8] ∧
  (dilation ∘ conv) <$> rsu4f_decode_modules (RSU4F_init in_ch mid_ch out_ch)
    = [4; 2; 1] ∧
  ∃ y, RSU4F_construct (RSU4F_init in_ch mid_ch out_ch) x = Ok y ∧
       spatial y = spatial x ∧
       ∀ t, t ∈ nodes y → keeps_resolution x t.
Proof.
  split; [done|]. split; [done|].
  unfold RSU4F_construct. rewrite RSU4F_run_Ok. cbn zeta.
  eexists. split; [reflexivity|]. cbn [fst].
  match goal with
  | |- spatial ?y = _ ∧ _ => change (resolution_kept x y)
  end.
  resolution_kept.
Qed.

(** ** [U2Net.__init__] *)

Lemma RSU_construct_total height in_ch mid_ch out_ch m :
  RSU_init height in_ch mid_ch out_ch = Ok m → Stage_total (StageRSU m).
Proof.
  intros Hm x. destruct (RSU_init_lengths _ _ _ _ _ Hm) as (_ & Hle & Hld).
  destruct (RSU_run_balanced m x) as (b & skips & _ & _ & Hrun); [lia|].
  eexists. simpl. unfold RSU_construct. by rewrite Hrun.
Qed.

Lemma RSU4F_construct_total in_ch mid_ch out_ch :
  Stage_total (StageRSU4F (RSU4F_init in_ch mid_ch out_ch)).
Proof.
  intros x. eexists. simpl. unfold RSU4F_construct. by rewrite RSU4F_run_Ok.
Qed.

Lemma make_stage_Ok_inv c s :
  make_stage c = Ok s →
  Stage_total s ∧ Stage_conv_in s = ConvBNReLU_init (c_in_ch c) (c_out_ch c) 3 1.
Proof.
  unfold make_stage. destruct (c_RSU4F c).
  - intros [= <-]. split; [apply RSU4F_construct_total|done].
  - destruct (RSU_init _ _ _ _) as [m|e] eqn:Hm; [|done].
    intros [= <-]. split; [by eapply RSU_construct_total|].
    destruct (RSU_init_lengths _ _ _ _ _ Hm) as (Hh & _ & _).
    rewrite RSU_init_Ok in Hm by done. by injection Hm as <-.
Qed.

Lemma make_stages_Ok_inv cfgs : ∀ ss,
  make_stages cfgs = Ok ss → Forall2 (λ c s, make_stage c = Ok s) cfgs ss.
Proof.
  induction cfgs as [|c cfgs IH]; intros ss; simpl.
  - intros [= <-]. constructor.
  - destruct (make_stage c) as [s|e] eqn:Hs; [|done]. simpl.
    destruct (make_stages cfgs) as [ss'|e]; [|done]. simpl.
    intros [= <-]. constructor; [done|]. by apply IH.
Qed.

Lemma side_convs_cons out_ch c cfgs :
  side_convs out_ch (c :: cfgs) =
  (if c_side c then [nn_Conv2d (c_out_ch c) out_ch 3 1 1 false] else [])
    ++ side_convs out_ch cfgs.
Proof.
  unfold side_convs. destruct (c_side c) eqn:Hc.
  - by rewrite filter_cons_True.
  - rewrite filter_cons_False; [done|]. by rewrite Hc.
Qed.

(** The two loops of [U2Net.__init__]: the stages are appended in order and
    [side_list] grows by one convolution for every row whose [side] entry
    is set. *)
Lemma U2Net_init_loop out_ch cfgs : ∀ stages sides,
  for_each (U2Net_init_step out_ch) cfgs (stages, sides) =
  (λ new, (stages ++ new, sides ++ side_convs out_ch cfgs)) <$> make_stages cfgs.
Proof.
  induction cfgs as [|c cfgs IH]; intros stages sides; simpl.
  - by rewrite !app_nil_r.
  - destruct (make_stage c) as [s|e]; [|done]. simpl.
    rewrite IH, side_convs_cons.
    destruct (make_stages cfgs) as [ss|e]; [|done]. simpl.
    destruct (c_side c); simpl; by rewrite <- ?app_assoc.
Qed.

Lemma U2Net_init_eq cfg out_ch :
  U2Net_init cfg out_ch =
  match cfg !! "encode", cfg !! "decode" with
  | Some ce, Some cd =>
      es ← make_stages ce;
      ds ← make_stages cd;
      Ok (mkU2Net (Z.of_nat (length ce)) es ds
            (side_convs out_ch ce ++ side_convs out_ch cd)
            (nn_Conv2d (Z.of_nat (length ce) * out_ch) out_ch 1 0 1 false))
  | _, _ => Raise AssertionError
  end.
Proof.
  unfold U2Net_init, dict_in, dict_get.
  destruct (cfg !! "encode") as [ce|]; [|done].
  destruct (cfg !! "decode") as [cd|]; [|done].
  rewrite !bool_decide_true by (by eexists). simpl.
  rewrite U2Net_init_loop.
  destruct (make_stages ce) as [es|e]; [|done]. simpl.
  rewrite U2Net_init_loop.
  destruct (make_stages cd) as [ds|e]; [|done]. done.
Qed.

Lemma U2Net_init_Ok_inv cfg out_ch m :
  U2Net_init cfg out_ch = Ok m →
  ∃ ce cd,
    cfg !! "encode" = Some ce ∧ cfg !! "decode" = Some cd ∧
    Forall2 (λ c s, make_stage c = Ok s) ce (encode_modules m) ∧
    Forall2 (λ c s, make_stage c = Ok s) cd (decode_modules m) ∧
    encode_num m = Z.of_nat (length ce) ∧
    side_modules m = side_convs out_ch ce ++ side_convs out_ch cd ∧
    out_conv m = nn_Conv2d (encode_num m * out_ch) out_ch 1 0 1 false.
Proof.
  rewrite U2Net_init_eq.
  destruct (cfg !! "encode") as [ce|]; [|done].
  destruct (cfg !! "decode") as [cd|]; [|done].
  destruct (make_stages ce) as [es|e] eqn:Hes; [|done]. simpl.
  destruct (make_stages cd) as [ds|e] eqn:Hds; [|done]. simpl.
  intros [= <-]. exists ce, cd. simpl.
  repeat split; by try apply make_stages_Ok_inv.
Qed.

Lemma Forall2_make_stage_total cfgs ss :
  Forall2 (λ c s, make_stage c = Ok s) cfgs ss → Forall Stage_total ss.
Proof.
  induction 1 as [|c s cfgs ss Hs _ IH]; constructor; [|done].
  by apply make_stage_Ok_inv in Hs as [? _].
Qed.

Lemma side_convs_out_channels out_ch cfgs :
  Forall (λ c, out_channels c = out_ch ∧ kernel_size c = 3 ∧ padding c = 1)
    (side_convs out_ch cfgs).
Proof. unfold side_convs. apply Forall_fmap, Forall_true. done. Qed.

(** ** [U2Net.construct] *)

(** "collect encode outputs": every stage runs once, in order, and its
    output is appended. *)
Lemma U2Net_encode_loop n ims : ∀ x outs,
  Forall Stage_total (snd <$> ims) →
  ∃ x' new,
    for_each (U2Net_encode_step n) ims (x, outs) = Ok (x', outs ++ new) ∧
    Forall2 produced (snd <$> ims) new.
Proof.
  induction ims as [|[i s] ims IH]; intros x outs Htot; simpl.
  - exists x, []. rewrite app_nil_r. split; [done|constructor].
  - apply Forall_cons in Htot as [Hs Htot].
    destruct (Hs x) as (d & Hd). simpl in Hd. rewrite Hd. simpl.
    edestruct IH as (x' & new & -> & Hnew); [done|].
    eexists x', (_ :: new). rewrite <- app_assoc. split; [done|].
    constructor; [by eexists|done].
Qed.

(** "collect decode outputs": when [encode_outputs] ends with one skip
    connection per decoder stage, every stage pops one and prepends its
    output to [decode_outputs]. *)
Lemma U2Net_decode_loop ds : ∀ x outs skips dec_outs,
  Forall Stage_total ds →
  length skips = length ds →
  ∃ x' new,
    for_each U2Net_decode_step ds (x, outs ++ reverse skips, dec_outs) =
      Ok (x', outs, reverse new ++ dec_outs) ∧
    Forall2 produced ds new.
Proof.
  induction ds as [|s ds IH]; intros x outs [|k skips] dec_outs Htot Hlen;
    simplify_eq/=.
  - exists x, []. rewrite app_nil_r. split; [done|constructor].
  - apply Forall_cons in Htot as [Hs Htot].
    rewrite reverse_cons, app_assoc, pop_snoc. simpl.
    destruct (Hs (CatOp [InterpolateOp (spatial k) bilinear false x; k] 1)) as (d & Hd).
    rewrite Hd. simpl.
    edestruct IH as (x' & new & -> & Hnew); [done..|].
    eexists x', (_ :: new). rewrite reverse_cons, <- app_assoc. split; [done|].
    constructor; [by eexists|done].
Qed.

(** "collect side outputs": every side module pops one element of
    [decode_outputs] and prepends its resized prediction. *)
Lemma U2Net_side_loop h w sides : ∀ rest ts side_outs,
  length ts = length sides →
  for_each (U2Net_side_step h w) sides (rest ++ reverse ts, side_outs) =
  Ok (rest, reverse (zip_with (side_output h w) sides ts) ++ side_outs).
Proof.
  induction sides as [|c sides IH]; intros rest [|t ts] side_outs Hlen;
    simplify_eq/=.
  - by rewrite app_nil_r.
  - rewrite reverse_cons, app_assoc, pop_snoc. simpl.
    rewrite IH by done. by rewrite reverse_cons, <- app_assoc.
Qed.

(** The three phases of [U2Net.construct] on a network whose lists cannot
    run empty.  [e_last] is the output of the deepest encoder stage and
    [decs] are the outputs of the decoder stages in the order they run; the
    side modules are applied, in order, to [e_last :: decs]. *)
Lemma U2Net_construct_wf m training x :
  U2Net_wf m →
  ∃ x' enc_outs rest e_last decs,
    U2Net_collect_encode m x = Ok (x', enc_outs) ∧
    Forall2 produced (encode_modules m) enc_outs ∧
    last enc_outs = Some e_last ∧
    U2Net_collect_decode m enc_outs = Ok (rest, reverse decs ++ [e_last]) ∧
    Forall2 produced (decode_modules m) decs ∧
    U2Net_collect_side m (dimH (shape x)) (dimW (shape x)) (reverse decs ++ [e_last]) =
      Ok (reverse (drop (length (side_modules m)) (e_last :: decs)),
          reverse (zip_with (side_output (dimH (shape x)) (dimW (shape x)))
                     (side_modules m) (e_last :: decs))) ∧
    U2Net_construct m training x =
      Ok (let side_outputs :=
            reverse (zip_with (side_output (dimH (shape x)) (dimW (shape x)))
                       (side_modules m) (e_last :: decs)) in
          let fused := Conv2dOp (out_conv m) (CatOp side_outputs 1) in
          if training then OutList (fused :: side_outputs)
          else OutTensor (SigmoidOp fused)).
Proof.
  intros (Henc & Hdec & Hlt & Hle).
  (* collect encode outputs *)
  destruct (U2Net_encode_loop (encode_num m) (enumerate (encode_modules m)) x [])
    as (x' & enc_outs & Hrun_enc & Hprod_enc).
  { unfold enumerate. rewrite snd_zip; [done|]. rewrite length_seqZ. lia. }
  assert ((enumerate (encode_modules m)).*2 = encode_modules m) as Hsnd.
  { unfold enumerate. rewrite snd_zip; [done|]. rewrite length_seqZ. lia. }
  rewrite Hsnd in Hprod_enc. simpl in Hrun_enc.
  pose proof (Forall2_length _ _ _ Hprod_enc) as Hlen_enc.
  destruct enc_outs as [|e_last rest0 _] using rev_ind.
  { simpl in Hlen_enc. lia. }
  rewrite length_app in Hlen_enc. simpl in Hlen_enc.
  (* collect decode outputs *)
  set (n := (length rest0 - length (decode_modules m))%nat).
  destruct (U2Net_decode_loop (decode_modules m) e_last (take n rest0)
              (reverse (drop n rest0)) [e_last])
    as (x'' & decs & Hrun_dec & Hprod_dec); [done| |].
  { rewrite length_reverse, length_drop. lia. }
  rewrite reverse_involutive, take_drop in Hrun_dec.
  pose proof (Forall2_length _ _ _ Hprod_dec) as Hlen_dec.
  (* collect side outputs *)
  set (h := dimH (shape x)). set (w := dimW (shape x)).
  set (k := length (side_modules m)).
  assert (U2Net_collect_side m h w (reverse decs ++ [e_last]) =
          Ok (reverse (drop k (e_last :: decs)),
              reverse (zip_with (side_output h w) (side_modules m) (e_last :: decs))))
    as Hrun_side.
  { unfold U2Net_collect_side.
    rewrite <- reverse_cons, <- (take_drop k (e_last :: decs)) at 1.
    rewrite reverse_app, U2Net_side_loop, app_nil_r.
    - unfold k. by rewrite zip_with_take_r.
    - rewrite length_take. simpl. lia. }
  exists x', (rest0 ++ [e_last]), (take n rest0), e_last, decs.
  split; [done|]. split; [done|]. split; [apply last_snoc|].
  assert (U2Net_collect_decode m (rest0 ++ [e_last]) =
          Ok (take n rest0, reverse decs ++ [e_last])) as Hcd.
  { unfold U2Net_collect_decode. rewrite pop_snoc. simpl. by rewrite Hrun_dec. }
  split; [done|]. split; [done|]. split; [done|].
  unfold U2Net_construct. fold h w.
  unfold U2Net_collect_encode. rewrite Hrun_enc. simpl.
  rewrite Hcd. simpl. rewrite Hrun_side. simpl. by destruct training.
Qed.

Lemma U2Net_init_wf cfg out_ch m :
  U2Net_init cfg out_ch = Ok m →
  (length (decode_modules m) < length (encode_modules m))%nat →
  (length (side_modules m) ≤ S (length (decode_modules m)))%nat →
  U2Net_wf m.
Proof.
  intros Hm Hlt Hle.
  destruct (U2Net_init_Ok_inv _ _ _ Hm) as (ce & cd & _ & _ & Hes & Hds & _).
  by repeat split; try (by eapply Forall2_make_stage_total).
Qed.

(** ** [u2net_full] and [u2net_lite] *)

Lemma U2Net_init_Ok cfg out_ch ce cd es ds :
  cfg !! "encode" = Some ce → cfg !! "decode" = Some cd →
  make_stages ce = Ok es → make_stages cd = Ok ds →
  U2Net_init cfg out_ch =
  Ok (mkU2Net (Z.of_nat (length ce)) es ds
        (side_convs out_ch ce ++ side_convs out_ch cd)
        (nn_Conv2d (Z.of_nat (length ce) * out_ch) out_ch 1 0 1 false)).
Proof. intros Hce Hcd Hes Hds. by rewrite U2Net_init_eq, Hce, Hcd, Hes, Hds. Qed.

Lemma Forall2_make_stage_conv_in cfgs ss c0 :
  Forall2 (λ c s, make_stage c = Ok s) cfgs ss →
  Forall (λ c, (c_in_ch c, c_out_ch c) ≠ (c_in_ch c0, c_out_ch c0)) cfgs →
  Forall (λ s, Stage_conv_in s ≠ ConvBNReLU_init (c_in_ch c0) (c_out_ch c0) 3 1) ss.
Proof.
  induction 1 as [|c s cfgs ss Hs _ IH]; intros Hne; [constructor|].
  apply Forall_cons in Hne as [Hc Hne]. constructor; [|by apply IH].
  apply make_stage_Ok_inv in Hs as [_ ->]. intros Heq. apply Hc.
  unfold ConvBNReLU_init, nn_Conv2d in Heq. injection Heq; intros; congruence.
Qed.

(** A configuration with six encoder rows and five decoder rows, the last
    encoder row and every decoder row having a side output, builds a
    [six_stage_net]. *)
Lemma six_stage_net_init cfg out_ch ce cd c6 es ds :
  cfg !! "encode" = Some ce → cfg !! "decode" = Some cd →
  make_stages ce = Ok es → make_stages cd = Ok ds →
  length ce = 6%nat → length cd = 5%nat → last ce = Some c6 →
  filter (λ c, c_side c = true) ce = [c6] →
  filter (λ c, c_side c = true) cd = cd →
  Forall (λ c, (c_in_ch c, c_out_ch c) ≠ (c_in_ch c6, c_out_ch c6)) cd →
  ∃ m, U2Net_init cfg out_ch = Ok m ∧ six_stage_net out_ch m.
Proof.
  intros Hce Hcd Hes Hds Hlce Hlcd Hlast Hfe Hfd Hne.
  eexists. split; [by eapply U2Net_init_Ok|].
  pose proof (make_stages_Ok_inv _ _ Hes) as Hes2.
  pose proof (make_stages_Ok_inv _ _ Hds) as Hds2.
  pose proof (Forall2_length _ _ _ Hes2) as Hles.
  pose proof (Forall2_length _ _ _ Hds2) as Hlds.
  assert (length (side_convs out_ch ce ++ side_convs out_ch cd) = 6%nat) as Hsides.
  { unfold side_convs. rewrite Hfe, Hfd, length_app, !length_fmap. simpl. lia. }
  split; cbn [encode_num encode_modules decode_modules side_modules out_conv].
  - lia.
  - lia.
  - lia.
  - done.
  - apply Forall_app; split; apply side_convs_out_channels.
  - by rewrite Hlce.
  - repeat split; cbn [encode_modules decode_modules side_modules];
      [by eapply Forall2_make_stage_total..|lia|lia].
  - pose proof (Forall2_last _ _ _ Hes2) as Hl. rewrite Hlast in Hl.
    inversion Hl as [c s Hs Hc6 Hs6|]; subst.
    exists s. split; [done|].
    destruct (make_stage_Ok_inv _ _ Hs) as [Htot ->].
    split; [done|]. by eapply Forall2_make_stage_conv_in.
Qed.

Lemma shipped_six_stage_net :
  Forall (λ net, ∀ out_ch, ∃ m, net out_ch = Ok m ∧ six_stage_net out_ch m) shipped.
Proof.
  repeat constructor; intros out_ch.
  - unfold u2net_full.
    eapply (six_stage_net_init _ _ u2net_full_encode u2net_full_decode);
      try (vm_compute; reflexivity).
    repeat constructor; by vm_compute.
  - unfold u2net_lite.
    eapply (six_stage_net_init _ _ u2net_lite_encode u2net_lite_decode);
      try (vm_compute; reflexivity).
    repeat constructor; by vm_compute.
Qed.

(** ** Shapes of the side outputs *)

Lemma dimC_CatOp l a k :
  Forall (λ t, dimC (shape t) = k) l →
  dimC (shape (CatOp l a)) = Z.of_nat (length l) * k.
Proof.
  intros Hl.
  assert (foldr Z.add 0 (dimC <$> (shape <$> l)) = Z.of_nat (length l) * k) as Hsum.
  { induction Hl as [|t l Ht _ IH]; [done|].
    rewrite !fmap_cons. cbn [foldr length]. rewrite IH, Ht. lia. }
  cbn [shape]. destruct l as [|t l]; [done|].
  rewrite fmap_cons. cbn [dimC]. by rewrite <- fmap_cons.
Qed.

Lemma side_outputs_shape h w out_ch sides : ∀ ts,
  Forall (λ c, out_channels c = out_ch ∧ kernel_size c = 3 ∧ padding c = 1) sides →
  Forall (λ s, dimC (shape s) = out_ch ∧ spatial s = (h, w))
    (zip_with (side_output h w) sides ts).
Proof.
  induction sides as [|c sides IH]; intros [|t ts] Hs; simpl; try constructor.
  - apply Forall_cons in Hs as [(Hc & _) _]. done.
  - apply Forall_cons in Hs as [_ Hs]. by apply IH.
Qed.

(** The output of the deepest encoder stage of a [six_stage_net] is the
    output of an encoder stage and of no decoder stage. *)
Lemma deepest_encoder_output out_ch m enc_outs e_last :
  six_stage_net out_ch m →
  Forall2 produced (encode_modules m) enc_outs →
  last enc_outs = Some e_last →
  is_encode_stage_output m e_last ∧ ¬ is_decode_stage_output m e_last.
Proof.
  intros Hnet Hprod Hlast.
  destruct (six_deepest _ _ Hnet) as (e6 & He6 & Htot6 & Hne).
  pose proof (Forall2_last _ _ _ Hprod) as Hl. rewrite He6, Hlast in Hl.
  inversion Hl as [? ? [y Hy] |]; subst.
  split.
  - exists e6, y. split; [|done].
    apply last_Some in He6 as [l ->]. set_solver.
  - intros (d & y' & Hd & Hy').
    destruct (six_wf _ _ Hnet) as (_ & Hdec & _).
    rewrite Forall_forall in Hdec, Hne.
    destruct (Htot6 y) as (r & Hr). destruct (Hdec d Hd y') as (r' & Hr').
    rewrite Hr in Hy. rewrite Hr' in Hy'. simplify_eq.
    apply (Hne d Hd). destruct (Stage_conv_in d), (Stage_conv_in e6).
    unfold ConvBNReLU_construct in *. simpl in *. congruence.
Qed.

(** ** Properties of [U2Net] *)

(** C2: on every input [x], [U2Net.construct] returns in training mode the
    list made of the fused output (the 1x1 convolution [out_conv] applied
    to the concatenation of the side outputs, with no sigmoid) followed by
    all the side outputs, and in inference mode the sigmoid of the fused
    output, a single map with [out_ch] channels. *)
Theorem C2_U2Net_construct_modes cfg out_ch m x :
  U2Net_init cfg out_ch = Ok m →
  (length (decode_modules m) < length (encode_modules m))%nat →
  (length (side_modules m) ≤ S (length (decode_modules m)))%nat →
  ∃ x' enc_outs rest dec_outs unused side_outputs,
    U2Net_collect_encode m x = Ok (x', enc_outs) ∧
    U2Net_collect_decode m enc_outs = Ok (rest, dec_outs) ∧
    U2Net_collect_side m (dimH (shape x)) (dimW (shape x)) dec_outs
      = Ok (unused, side_outputs) ∧
    length side_outputs = length (side_modules m) ∧
    kernel_size (out_conv m) = 1 ∧
    U2Net_construct m true x =
      Ok (OutList (Conv2dOp (out_conv m) (CatOp side_outputs 1) :: side_outputs)) ∧
    U2Net_construct m false x =
      Ok (OutTensor (SigmoidOp (Conv2dOp (out_conv m) (CatOp side_outputs 1)))) ∧
    dimC (shape (SigmoidOp (Conv2dOp (out_conv m) (CatOp side_outputs 1)))) = out_ch.
Proof.
  intros Hm Hlt Hle.
  pose proof (U2Net_init_wf _ _ _ Hm Hlt Hle) as Hwf.
  destruct (U2Net_init_Ok_inv _ _ _ Hm) as (ce & cd & _ & _ & _ & Hds & _ & _ & Hout).
  destruct (U2Net_construct_wf m true x Hwf)
    as (x' & enc_outs & rest & e_last & decs & Henc & _ & _ & Hdec & Hpd & Hside & Htrain).
  destruct (U2Net_construct_wf m false x Hwf)
    as (x2 & enc_outs2 & rest2 & e_last2 & decs2 & Henc2 & _ & _ & Hdec2 & _ & _ & Hinfer).
  rewrite Henc in Henc2. injection Henc2 as <- <-.
  rewrite Hdec in Hdec2. injection Hdec2 as _ Heq.
  apply app_inj_tail in Heq as [Heq <-]. apply (inj reverse) in Heq as <-.
  eexists x', enc_outs, rest, _, _, _.
  split; [done|]. split; [done|]. split; [done|].
  split.
  { rewrite length_reverse, length_zip_with.
    pose proof (Forall2_length _ _ _ Hpd). simpl. lia. }
  split; [by rewrite Hout|].
  split; [done|]. split; [done|].
  cbn [shape dimC]. by rewrite Hout.
Qed.

Lemma C2_U2Net_construct_modes_witness :
  ∃ m x' enc_outs rest dec_outs unused side_outputs,
    U2Net_init u2net_full_cfg 1 = Ok m ∧
    U2Net_collect_encode m (Input (mkShape 1 3 288 288)) = Ok (x', enc_outs) ∧
    U2Net_collect_decode m enc_outs = Ok (rest, dec_outs) ∧
    U2Net_collect_side m 288 288 dec_outs = Ok (unused, side_outputs) ∧
    length side_outputs = length (side_modules m) ∧
    kernel_size (out_conv m) = 1 ∧
    U2Net_construct m true (Input (mkShape 1 3 288 288)) =
      Ok (OutList (Conv2dOp (out_conv m) (CatOp side_outputs 1) :: side_outputs)) ∧
    U2Net_construct m false (Input (mkShape 1 3 288 288)) =
      Ok (OutTensor (SigmoidOp (Conv2dOp (out_conv m) (CatOp side_outputs 1)))) ∧
    dimC (shape (SigmoidOp (Conv2dOp (out_conv m) (CatOp side_outputs 1)))) = 1.
Proof.
  assert (∃ m, U2Net_init u2net_full_cfg 1 = Ok m ∧
               (length (decode_modules m) < length (encode_modules m))%nat ∧
               (length (side_modules m) ≤ S (length (decode_modules m)))%nat)
    as (m & Hm & Hlt & Hle).
  { eexists. split; [vm_compute; reflexivity|]. split; vm_compute; lia. }
  destruct (C2_U2Net_construct_modes u2net_full_cfg 1 m (Input (mkShape 1 3 288 288))
              Hm Hlt Hle)
    as (x' & enc_outs & rest & dec_outs & unused & side_outputs & H).
  by exists m, x', enc_outs, rest, dec_outs, unused, side_outputs.
Defined.

(** C3, as the specification states it, fails: in the network built by
    [u2net_lite], on a 288x288 input, one of the side outputs is computed
    from a tensor that no decoder stage produced (it is the output of the
    deepest encoder stage). *)
Lemma C3_side_input_not_decoder_counterexample :
  ∃ m fused side_outputs c t,
    u2net_lite 1 = Ok m ∧
    U2Net_construct m true (Input (mkShape 1 3 288 288))
      = Ok (OutList (fused :: side_outputs)) ∧
    c ∈ side_modules m ∧
    side_output 288 288 c t ∈ side_outputs ∧
    ¬ is_decode_stage_output m t.
Proof.
  pose proof shipped_six_stage_net as Hs. unfold shipped in Hs.
  apply Forall_cons in Hs as [_ Hs]. apply Forall_cons in Hs as [Hs _].
  destruct (Hs 1) as (m & Hm & Hnet).
  destruct (U2Net_construct_wf m true (Input (mkShape 1 3 288 288)) (six_wf _ _ Hnet))
    as (x' & enc_outs & rest & e_last & decs & _ & Hpe & Hlast & _ & _ & _ & Hrun).
  pose proof (six_sides _ _ Hnet) as Hlen.
  destruct (side_modules m) as [|c sides] eqn:Hsides; [done|].
  cbv beta zeta iota in Hrun. cbn [zip_with shape dimH dimW] in Hrun.
  eexists m, _, _, c, e_last.
  split; [done|]. split; [exact Hrun|].
  split; [rewrite Hsides; by left|]. split.
  - apply elem_of_reverse. by left.
  - by eapply deepest_encoder_output.
Qed.

(** C3 (amended): every side output is the side convolution applied to an
    element of [decode_outputs] -- the output of the deepest encoder stage
    for the first side module, the outputs of the decoder stages, in the
    order they run, for the following ones -- resized bilinearly
    ([align_corners=False]) to the height and width of the input; the fused
    output is the 1x1 convolution [out_conv], with [encode_num * out_ch]
    input channels, applied to the channel-wise concatenation of all side
    outputs. *)
Theorem C3_side_outputs_and_fusion cfg out_ch m x :
  U2Net_init cfg out_ch = Ok m →
  (length (decode_modules m) < length (encode_modules m))%nat →
  (length (side_modules m) ≤ S (length (decode_modules m)))%nat →
  ∃ x' enc_outs e_last decs side_outputs,
    U2Net_collect_encode m x = Ok (x', enc_outs) ∧
    Forall2 produced (encode_modules m) enc_outs ∧
    last enc_outs = Some e_last ∧
    Forall2 produced (decode_modules m) decs ∧
    side_outputs =
      reverse (zip_with (λ c t, InterpolateOp (dimH (shape x), dimW (shape x))
                                  bilinear false (Conv2dOp c t))
                 (side_modules m) (e_last :: decs)) ∧
    Forall (λ s, spatial s = (dimH (shape x), dimW (shape x))) side_outputs ∧
    kernel_size (out_conv m) = 1 ∧
    in_channels (out_conv m) = encode_num m * out_ch ∧
    U2Net_construct m true x =
      Ok (OutList (Conv2dOp (out_conv m) (CatOp side_outputs 1) :: side_outputs)) ∧
    U2Net_construct m false x =
      Ok (OutTensor (SigmoidOp (Conv2dOp (out_conv m) (CatOp side_outputs 1)))).
Proof.
  intros Hm Hlt Hle.
  pose proof (U2Net_init_wf _ _ _ Hm Hlt Hle) as Hwf.
  destruct (U2Net_init_Ok_inv _ _ _ Hm) as (ce & cd & _ & _ & _ & _ & _ & Hsides & Hout).
  destruct (U2Net_construct_wf m true x Hwf)
    as (x' & enc_outs & rest & e_last & decs & Henc & Hpe & Hlast & Hdec & Hpd & _ & Htrain).
  destruct (U2Net_construct_wf m false x Hwf)
    as (x2 & enc_outs2 & rest2 & e_last2 & decs2 & Henc2 & _ & _ & Hdec2 & _ & _ & Hinfer).
  rewrite Henc in Henc2. injection Henc2 as <- <-.
  rewrite Hdec in Hdec2. injection Hdec2 as _ Heq.
  apply app_inj_tail in Heq as [Heq <-]. apply (inj reverse) in Heq as <-.
  exists x', enc_outs, e_last, decs. eexists.
  split; [done|]. split; [done|]. split; [done|]. split; [done|].
  split; [reflexivity|].
  split.
  { apply Forall_reverse.
    eapply Forall_impl;
      [apply (side_outputs_shape _ _ out_ch (side_modules m) (e_last :: decs))|].
    - rewrite Hsides. apply Forall_app; split; apply side_convs_out_channels.
    - by intros s [_ Hs]. }
  split; [by rewrite Hout|]. split; [by rewrite Hout|].
  split; [exact Htrain|exact Hinfer].
Qed.

Lemma C3_side_outputs_and_fusion_witness :
  ∃ m x' enc_outs e_last decs side_outputs,
    U2Net_init u2net_lite_cfg 1 = Ok m ∧
    U2Net_collect_encode m (Input (mkShape 1 3 288 288)) = Ok (x', enc_outs) ∧
    Forall2 produced (encode_modules m) enc_outs ∧
    last enc_outs = Some e_last ∧
    Forall2 produced (decode_modules m) decs ∧
    side_outputs =
      reverse (zip_with (λ c t, InterpolateOp (288, 288) bilinear false (Conv2dOp c t))
                 (side_modules m) (e_last :: decs)) ∧
    Forall (λ s, spatial s = (288, 288)) side_outputs ∧
    kernel_size (out_conv m) = 1 ∧
    in_channels (out_conv m) = encode_num m * 1 ∧
    U2Net_construct m true (Input (mkShape 1 3 288 288)) =
      Ok (OutList (Conv2dOp (out_conv m) (CatOp side_outputs 1) :: side_outputs)) ∧
    U2Net_construct m false (Input (mkShape 1 3 288 288)) =
      Ok (OutTensor (SigmoidOp (Conv2dOp (out_conv m) (CatOp side_outputs 1)))).
Proof.
  assert (∃ m, U2Net_init u2net_lite_cfg 1 = Ok m ∧
               (length (decode_modules m) < length (encode_modules m))%nat ∧
               (length (side_modules m) ≤ S (length (decode_modules m)))%nat)
    as (m & Hm & Hlt & Hle).
  { eexists. split; [vm_compute; reflexivity|]. split; vm_compute; lia. }
  destruct (C3_side_outputs_and_fusion u2net_lite_cfg 1 m (Input (mkShape 1 3 288 288))
              Hm Hlt Hle)
    as (x' & enc_outs & e_last & decs & side_outputs & H).
  by exists m, x', enc_outs, e_last, decs, side_outputs.
Defined.

Lemma side_heads_eq out_ch cfgs ss :
  make_stages cfgs = Ok ss → side_heads out_ch cfgs = Ok (side_convs out_ch cfgs).
Proof. intros Hss. unfold side_heads. by rewrite U2Net_init_loop, Hss. Qed.

(** C6, as the specification states it, fails: in the network built by
    [u2net_full] the encoder loop of [__init__] creates a side head (for
    the row En6), and [construct] applies that head to the output of an
    encoder stage, which no decoder stage produced. *)
Lemma C6_side_head_on_encoder_counterexample :
  ∃ m c fused side_outputs t,
    u2net_full 1 = Ok m ∧
    side_heads 1 u2net_full_encode = Ok [c] ∧
    side_modules m !! 0%nat = Some c ∧
    U2Net_construct m true (Input (mkShape 1 3 288 288))
      = Ok (OutList (fused :: side_outputs)) ∧
    side_output 288 288 c t ∈ side_outputs ∧
    is_encode_stage_output m t ∧
    ¬ is_decode_stage_output m t.
Proof.
  pose proof shipped_six_stage_net as Hs. unfold shipped in Hs.
  apply Forall_cons in Hs as [Hs _].
  destruct (Hs 1) as (m & Hm & Hnet).
  destruct (U2Net_init_Ok_inv _ _ _ Hm) as (ce & cd & Hce & _ & _ & _ & _ & Hsides & _).
  assert (u2net_full_cfg !! "encode" = Some u2net_full_encode) as Hlk
    by (vm_compute; reflexivity).
  rewrite Hlk in Hce. injection Hce as <-.
  destruct (U2Net_construct_wf m true (Input (mkShape 1 3 288 288)) (six_wf _ _ Hnet))
    as (x' & enc_outs & rest & e_last & decs & _ & Hpe & Hlast & _ & _ & _ & Hrun).
  change (side_convs 1 u2net_full_encode)
    with [nn_Conv2d 512 1 3 1 1 false] in Hsides.
  rewrite Hsides in Hrun.
  cbv beta zeta iota in Hrun. cbn [app zip_with shape dimH dimW] in Hrun.
  eexists m, _, _, _, e_last.
  split; [done|].
  split; [by eapply (side_heads_eq 1 u2net_full_encode); vm_compute|].
  split; [by rewrite Hsides|].
  split; [exact Hrun|]. split.
  - apply elem_of_reverse. by left.
  - by eapply deepest_encoder_output.
Qed.

Lemma make_stages_Forall2 cfgs ss :
  Forall2 (λ c s, make_stage c = Ok s) cfgs ss → make_stages cfgs = Ok ss.
Proof.
  induction 1 as [|c s cfgs ss Hs _ IH]; [done|].
  cbn [make_stages]. by rewrite Hs, IH.
Qed.

(** Where the side heads of a [six_stage_net] sit, when only the last
    encoder row and the decoder rows ask for a side output. *)
Lemma side_heads_placed cfg out_ch ce cd c6 m x :
  cfg !! "encode" = Some ce → cfg !! "decode" = Some cd →
  U2Net_init cfg out_ch = Ok m → six_stage_net out_ch m →
  last ce = Some c6 →
  side_convs out_ch (removelast ce) = [] →
  side_convs out_ch ce = [side_head out_ch c6] →
  side_convs out_ch cd = side_head out_ch <$> cd →
  ∃ e6 x' enc_outs rest e_last decs fused,
    Forall2 (λ c s, make_stage c = Ok s) ce (encode_modules m) ∧
    Forall2 (λ c s, make_stage c = Ok s) cd (decode_modules m) ∧
    last (encode_modules m) = Some e6 ∧
    make_stage c6 = Ok e6 ∧
    side_heads out_ch (removelast ce) = Ok [] ∧
    side_heads out_ch ce = Ok [side_head out_ch c6] ∧
    side_modules m = side_head out_ch c6 :: (side_head out_ch <$> cd) ∧
    U2Net_collect_encode m x = Ok (x', enc_outs) ∧
    Forall2 produced (encode_modules m) enc_outs ∧
    last enc_outs = Some e_last ∧
    produced e6 e_last ∧
    ¬ is_decode_stage_output m e_last ∧
    U2Net_collect_decode m enc_outs = Ok (rest, reverse decs ++ [e_last]) ∧
    Forall2 produced (decode_modules m) decs ∧
    U2Net_construct m true x =
      Ok (OutList (fused ::
            reverse (side_output (dimH (shape x)) (dimW (shape x)) (side_head out_ch c6) e_last
                     :: zip_with (side_output (dimH (shape x)) (dimW (shape x)))
                          (side_head out_ch <$> cd) decs))).
Proof.
  intros Hce Hcd Hm Hsix Hlast Hnone Hone Hall.
  destruct (U2Net_init_Ok_inv _ _ _ Hm) as (ce' & cd' & Hce' & Hcd' & Hes & Hds & _ & Hsides & _).
  rewrite Hce in Hce'. injection Hce' as <-. rewrite Hcd in Hcd'. injection Hcd' as <-.
  rewrite Hone, Hall in Hsides.
  pose proof (Forall2_last _ _ _ Hes) as Hl. rewrite Hlast in Hl.
  inversion Hl as [c e6 He6 Hc He|]; subst. symmetry in He.
  destruct (U2Net_construct_wf m true x (six_wf _ _ Hsix))
    as (x' & enc_outs & rest & e_last & decs & Henc & Hpe & Hlo & Hdec & Hpd & _ & Hrun).
  rewrite Hsides in Hrun. cbv beta zeta iota in Hrun. cbn [zip_with] in Hrun.
  pose proof (Forall2_last _ _ _ Hpe) as Hl2. rewrite He, Hlo in Hl2.
  inversion Hl2 as [? ? Hprod|]; subst.
  destruct (deepest_encoder_output _ _ _ _ Hsix Hpe Hlo) as [_ Hnd].
  exists e6, x', enc_outs, rest, e_last, decs. eexists.
  split; [done|]. split; [done|]. split; [done|]. split; [done|].
  split.
  { apply last_Some in Hlast as [ce0 ->]. rewrite removelast_last in Hnone |- *.
    apply Forall2_app_inv_l in Hes as (es0 & es1 & Hes0 & _ & _).
    by rewrite (side_heads_eq _ _ es0 (make_stages_Forall2 _ _ Hes0)), Hnone. }
  split.
  { by rewrite (side_heads_eq _ _ _ (make_stages_Forall2 _ _ Hes)), Hone. }
  split; [done|]. split; [done|]. split; [done|]. split; [done|]. split; [done|].
  split; [done|]. split; [done|]. split; [done|].
  exact Hrun.
Qed.

(** C6 (amended): in the networks built by [u2net_full] and [u2net_lite]
    only the last encoder row (En6) and the five decoder rows ask for a side
    output: the loop of [__init__] creates no side head for the rows
    En1 .. En5, one for En6 and one for each decoder row, in this order.
    [construct] applies the first head to the last element of
    [encode_outputs], the output of the stage built for En6, which is not
    the output of a decoder stage; it applies the head of each decoder row
    to the output of the stage built for that row. *)
Theorem C6_side_heads_placement :
  Forall (λ '(net, ce, cd),
    c_side <$> ce = [false; false; false; false; false; true] ∧
    c_side <$> cd = [true; true; true; true; true] ∧
    ∀ out_ch x,
      ∃ m c6 e6 x' enc_outs rest e_last decs fused,
        net out_ch = Ok m ∧
        last ce = Some c6 ∧
        Forall2 (λ c s, make_stage c = Ok s) ce (encode_modules m) ∧
        Forall2 (λ c s, make_stage c = Ok s) cd (decode_modules m) ∧
        last (encode_modules m) = Some e6 ∧
        make_stage c6 = Ok e6 ∧
        side_heads out_ch (removelast ce) = Ok [] ∧
        side_heads out_ch ce = Ok [side_head out_ch c6] ∧
        side_modules m = side_head out_ch c6 :: (side_head out_ch <$> cd) ∧
        U2Net_collect_encode m x = Ok (x', enc_outs) ∧
        Forall2 produced (encode_modules m) enc_outs ∧
        last enc_outs = Some e_last ∧
        produced e6 e_last ∧
        ¬ is_decode_stage_output m e_last ∧
        U2Net_collect_decode m enc_outs = Ok (rest, reverse decs ++ [e_last]) ∧
        Forall2 produced (decode_modules m) decs ∧
        U2Net_construct m true x =
          Ok (OutList (fused ::
                reverse (side_output (dimH (shape x)) (dimW (shape x))
                           (side_head out_ch c6) e_last
                         :: zip_with (side_output (dimH (shape x)) (dimW (shape x)))
                              (side_head out_ch <$> cd) decs))))
    shipped_rows.
Proof.
  pose proof shipped_six_stage_net as Hs. unfold shipped in Hs.
  apply Forall_cons in Hs as [Hfull Hs]. apply Forall_cons in Hs as [Hlite _].
  repeat constructor; try done; intros out_ch x.
  - destruct (Hfull out_ch) as (m & Hm & Hsix).
    destruct (side_heads_placed u2net_full_cfg out_ch u2net_full_encode u2net_full_decode
                (mkStageCfg 4 512 256 512 true true) m x)
      as (e6 & x' & enc_outs & rest & e_last & decs & fused & H); try done.
    by exists m, (mkStageCfg 4 512 256 512 true true), e6, x', enc_outs, rest, e_last, decs, fused.
  - destruct (Hlite out_ch) as (m & Hm & Hsix).
    destruct (side_heads_placed u2net_lite_cfg out_ch u2net_lite_encode u2net_lite_decode
                (mkStageCfg 4 64 16 64 true true) m x)
      as (e6 & x' & enc_outs & rest & e_last & decs & fused & H); try done.
    by exists m, (mkStageCfg 4 64 16 64 true true), e6, x', enc_outs, rest, e_last, decs, fused.
Qed.

(** C9: in the networks built by [u2net_full] and [u2net_lite] there are
    six side modules, as many as [encode_num]; in [construct],
    [decode_outputs] holds six tensors when the side loop starts (the output
    of the deepest encoder stage and one output per decoder stage) and is
    empty when it ends; the concatenation of the six side outputs, which
    [construct] passes to the fusion convolution [out_conv], has
    [encode_num * out_ch] channels, the number of input channels of
    [out_conv]. *)
Theorem C9_side_outputs_match_fusion :
  Forall (λ net, ∀ out_ch x,
    ∃ m x' enc_outs rest e_last decs side_outputs,
      net out_ch = Ok m ∧
      Z.of_nat (length (side_modules m)) = encode_num m ∧
      encode_num m = 6 ∧
      U2Net_collect_encode m x = Ok (x', enc_outs) ∧
      last enc_outs = Some e_last ∧
      U2Net_collect_decode m enc_outs = Ok (rest, reverse decs ++ [e_last]) ∧
      Forall2 produced (decode_modules m) decs ∧
      length (reverse decs ++ [e_last]) = 6%nat ∧
      U2Net_collect_side m (dimH (shape x)) (dimW (shape x)) (reverse decs ++ [e_last])
        = Ok ([], side_outputs) ∧
      length side_outputs = 6%nat ∧
      dimC (shape (CatOp side_outputs 1)) = encode_num m * out_ch ∧
      in_channels (out_conv m) = encode_num m * out_ch ∧
      kernel_size (out_conv m) = 1 ∧
      U2Net_construct m true x =
        Ok (OutList (Conv2dOp (out_conv m) (CatOp side_outputs 1) :: side_outputs)) ∧
      U2Net_construct m false x =
        Ok (OutTensor (SigmoidOp (Conv2dOp (out_conv m) (CatOp side_outputs 1))))) shipped.
Proof.
  eapply Forall_impl; [apply shipped_six_stage_net|].
  intros net Hnet out_ch x. destruct (Hnet out_ch) as (m & Hm & Hsix).
  destruct (U2Net_construct_wf m true x (six_wf _ _ Hsix))
    as (x' & enc_outs & rest & e_last & decs & Henc & Hpe & Hlast & Hdec & Hpd & Hside & Htrain).
  destruct (U2Net_construct_wf m false x (six_wf _ _ Hsix))
    as (x2 & enc_outs2 & rest2 & e_last2 & decs2 & Henc2 & _ & _ & Hdec2 & _ & _ & Hinfer).
  rewrite Henc in Henc2. injection Henc2 as <- <-.
  rewrite Hdec in Hdec2. injection Hdec2 as _ Heq.
  apply app_inj_tail in Heq as [Heq <-]. apply (inj reverse) in Heq as <-.
  pose proof (Forall2_length _ _ _ Hpd) as Hld.
  rewrite (six_decoders _ _ Hsix) in Hld.
  rewrite (six_sides _ _ Hsix) in Hside.
  rewrite drop_ge in Hside by (simpl; lia).
  exists m, x', enc_outs, rest, e_last, decs. eexists.
  split; [done|].
  split; [by rewrite (six_sides _ _ Hsix), (six_encode_num _ _ Hsix)|].
  split; [by apply (six_encode_num _ _ Hsix)|].
  split; [done|]. split; [done|]. split; [done|]. split; [done|].
  split; [rewrite length_app, length_reverse; simpl; lia|].
  split; [exact Hside|].
  assert (length (reverse (zip_with (side_output (dimH (shape x)) (dimW (shape x)))
                             (side_modules m) (e_last :: decs))) = 6%nat) as Hlen.
  { rewrite length_reverse, length_zip_with, (six_sides _ _ Hsix).
    cbn [length]. lia. }
  split; [done|].
  split.
  { rewrite (dimC_CatOp _ _ out_ch), Hlen, (six_encode_num _ _ Hsix); [done|].
    apply Forall_reverse.
    eapply Forall_impl; [apply side_outputs_shape, (six_sides_out _ _ Hsix)|].
    by intros s [Hs _]. }
  split; [rewrite (six_out_conv _ _ Hsix), (six_encode_num _ _ Hsix); done|].
  split; [by rewrite (six_out_conv _ _ Hsix)|].
  split; [exact Htrain|exact Hinfer].
Qed.

(** * Shapes, data flow and errors *)


Lemma pool_out_ceil_half n : pool_out 2 2 true n = ceil_half n.
Proof.
  unfold pool_out, ceil_half.
  replace (- (n - 2)) with (- (n + 1) + 1 + 1 * 2) by lia.
  rewrite Z.div_add by lia.
  assert (- (- (n + 1) + 1) `div` 2 = (n + 1) `div` 2 - 1 + 1) as Hq; [|lia].
  pose proof (Z.div_mod (n + 1) 2 ltac:(lia)) as H1.
  pose proof (Z.mod_pos_bound (n + 1) 2 ltac:(lia)) as H2.
  pose proof (Z.div_mod (- (n + 1) + 1) 2 ltac:(lia)) as H3.
  pose proof (Z.mod_pos_bound (- (n + 1) + 1) 2 ltac:(lia)) as H4.
  lia.
Qed.

Lemma shape_ConvBNReLU in_ch out_ch d y :
  shape (ConvBNReLU_construct (ConvBNReLU_init in_ch out_ch 3 d) y) =
  mkShape (dimN (shape y)) out_ch (dimH (shape y)) (dimW (shape y)).
Proof.
  cbn [ConvBNReLU_construct shape].
  by rewrite !conv_out_ConvBNReLU_init.
Qed.

Lemma well_shaped_ConvBNReLU in_ch out_ch k d y :
  well_shaped (ConvBNReLU_construct (ConvBNReLU_init in_ch out_ch k d) y) ↔
  well_shaped y ∧ dimC (shape y) = in_ch.
Proof. cbn. intuition. Qed.

Lemma spatial_pool y :
  spatial (MaxPool2dOp 2 2 true y) = ceil_half2 (spatial y).
Proof. unfold spatial, ceil_half2. cbn [shape dimH dimW fst snd]. by rewrite !pool_out_ceil_half. Qed.

Lemma shape_Down in_ch out_ch flag y :
  shape (DownConvBNReLU_construct (DownConvBNReLU_init in_ch out_ch 3 1 flag) y) =
  mkShape (dimN (shape y)) out_ch
    (if flag then ceil_half (dimH (shape y)) else dimH (shape y))
    (if flag then ceil_half (dimW (shape y)) else dimW (shape y)).
Proof.
  unfold DownConvBNReLU_construct, DownConvBNReLU_init. cbn [down_flag down_base].
  change (ReLUOp (BatchNorm2dOp ?b (Conv2dOp ?c ?x)))
    with (ConvBNReLU_construct (mkConvBNReLU c b) x).
  destruct flag.
  - rewrite <- !pool_out_ceil_half. apply shape_ConvBNReLU.
  - apply shape_ConvBNReLU.
Qed.

Section chain_facts.
Context {M : Type} (call : M → Tensor → Tensor).

Lemma chain_app ms1 ms2 x :
  chain call (ms1 ++ ms2) x =
  chain call ms1 x ++ chain call ms2 (default x (last (chain call ms1 x))).
Proof.
  revert x. induction ms1 as [|m ms1 IH]; intros x; [done|].
  cbn [app chain]. rewrite IH. cbn [app]. f_equal. f_equal. f_equal.
  symmetry. apply default_last_cons.
Qed.

Lemma chain_Forall (P : Tensor → Prop) ms x :
  (∀ m y, m ∈ ms → P y → P (call m y)) → P x → Forall P (chain call ms x).
Proof.
  revert x. induction ms as [|m ms IH]; intros x Hstep Hx; cbn [chain]; constructor.
  - apply Hstep; [by left|done].
  - apply IH; [|apply Hstep; [by left|done]].
    intros m' y Hm'. apply Hstep. by right.
Qed.

(** A stack of [n] copies of a cell that maps the resolution by [f]. *)
Lemma chain_replicate_spatial (f : Z * Z → Z * Z) m n : ∀ x,
  (∀ y, spatial (call m y) = f (spatial y)) →
  spatial <$> chain call (replicate n m) x =
  (λ i, Nat.iter (S i) f (spatial x)) <$> seq 0 n.
Proof.
  induction n as [|n IH]; intros x Hf; [done|].
  cbn [replicate chain seq]. rewrite !fmap_cons, IH by done.
  f_equal; [by rewrite Hf|].
  rewrite <- fmap_S_seq, <- list_fmap_compose.
  apply list_fmap_ext. intros _ i _. cbn [compose].
  rewrite Hf. by rewrite <- !Nat.iter_succ_r.
Qed.

Lemma last_chain_replicate_spatial (f : Z * Z → Z * Z) m n x :
  (∀ y, spatial (call m y) = f (spatial y)) →
  spatial (default x (last (chain call (replicate n m) x))) =
  Nat.iter n f (spatial x).
Proof.
  intros Hf. destruct n as [|n]; [done|].
  pose proof (chain_replicate_spatial f m (S n) x Hf) as Heq.
  apply (f_equal last) in Heq. rewrite !fmap_last in Heq.
  rewrite seq_S, last_snoc in Heq. cbn [fmap option_fmap option_map plus] in Heq.
  destruct (last (chain call (replicate (S n) m) x)) as [t|]; [|done].
  by injection Heq.
Qed.
End chain_facts.

Lemma dimN_EncodeCell c y :
  dimN (shape (EncodeCell_construct c y)) = dimN (shape y).
Proof. by destruct c as [[b []]|b]. Qed.

Lemma dimN_decoder_stage prev ms :
  dimN (shape (decoder_stage_spec prev ms)) = dimN (shape prev).
Proof. destruct ms as [[b []] skip]; done. Qed.

Lemma dimN_fold_decoders l : ∀ d,
  dimN (shape (foldl decoder_stage_spec d l)) = dimN (shape d).
Proof.
  induction l as [|ms l IH]; intros d; [done|].
  cbn [foldl]. by rewrite IH, dimN_decoder_stage.
Qed.

Lemma shape_decoder_stage a b flag prev skip :
  shape (decoder_stage_spec prev (UpConvBNReLU_init a b 3 1 flag, skip)) =
  mkShape (dimN (shape prev)) b
    (if flag then dimH (shape skip) else dimH (shape prev))
    (if flag then dimW (shape skip) else dimW (shape prev)).
Proof.
  unfold decoder_stage_spec, UpConvBNReLU_init. cbn [up_flag up_base].
  rewrite shape_ConvBNReLU. by destruct flag.
Qed.

Lemma batch_channels_ConvBNReLU N a b d y :
  batch_channels N a y →
  batch_channels N b (ConvBNReLU_construct (ConvBNReLU_init a b 3 d) y).
Proof.
  intros (Hw & HN & HC). split; [by apply well_shaped_ConvBNReLU|].
  by rewrite shape_ConvBNReLU.
Qed.

Lemma batch_channels_Down N a b flag y :
  batch_channels N a y →
  batch_channels N b (DownConvBNReLU_construct (DownConvBNReLU_init a b 3 1 flag) y).
Proof.
  intros (Hw & HN & HC). split; [|by rewrite shape_Down].
  unfold DownConvBNReLU_construct, DownConvBNReLU_init. cbn [down_flag down_base].
  destruct flag; cbn; intuition.
Qed.

Lemma batch_channels_decoder_stage N c1 c2 a b flag prev skip :
  batch_channels N c1 prev → batch_channels N c2 skip →
  c1 + c2 = a →
  flag = true ∨ spatial skip = spatial prev →
  batch_channels N b (decoder_stage_spec prev (UpConvBNReLU_init a b 3 1 flag, skip)).
Proof.
  intros (Hw1 & HN1 & HC1) (Hw2 & HN2 & HC2) Ha Hflag.
  split; [|by rewrite shape_decoder_stage].
  unfold decoder_stage_spec, UpConvBNReLU_init. cbn [up_flag up_base].
  apply well_shaped_ConvBNReLU. destruct flag.
  - cbn. split; [|lia]. split; [done|].
    constructor; [|constructor]. by rewrite HN1, HN2.
  - destruct Hflag as [|Hsp]; [done|]. injection Hsp as HH HW.
    cbn. split; [|lia]. split; [done|].
    constructor; [|constructor]. by rewrite HN1, HN2, HH, HW.
Qed.

Section RSU_shapes.
Context (in_ch mid_ch out_ch : Z).

Local Abbreviation Down0 := (DownConvBNReLU_init out_ch mid_ch 3 1 false).
Local Abbreviation DownMid := (DownConvBNReLU_init mid_ch mid_ch 3 1 true).
Local Abbreviation Bott := (ConvBNReLU_init mid_ch mid_ch 3 2).
Local Abbreviation Up0 := (UpConvBNReLU_init (mid_ch * 2) mid_ch 3 1 false).
Local Abbreviation UpMid := (UpConvBNReLU_init (mid_ch * 2) mid_ch 3 1 true).
Local Abbreviation UpOut := (UpConvBNReLU_init (mid_ch * 2) out_ch 3 1 true).
Local Abbreviation x_in x := (ConvBNReLU_construct (ConvBNReLU_init in_ch out_ch 3 1) x).
Local Abbreviation e0 x := (DownConvBNReLU_construct Down0 (x_in x)).
Local Abbreviation downs n x := (chain EncodeCell_construct (replicate n (EncDown DownMid)) (e0 x)).
Local Abbreviation deepest n x := (default (e0 x) (last (downs n x))).
Local Abbreviation bott n x := (ConvBNReLU_construct Bott (deepest n x)).

(** The decoder cells built by the loop of [RSU.__init__]: all have
    [mid_ch] output channels but the last, which has [out_ch]. *)
Lemma RSU_init_decoders height :
  height >= 3 →
  (λ i, UpConvBNReLU_init (mid_ch * 2)
          (if decide (i < height - 3) then mid_ch else out_ch) 3 1 true)
    <$> range (height - 2)
  = replicate (Z.to_nat (height - 3)) UpMid ++ [UpOut].
Proof.
  intros Hh. unfold range.
  replace (height - 2) with (Z.of_nat (S (Z.to_nat (height - 3)))) by lia.
  rewrite seqZ_S, fmap_app. f_equal.
  - trans (replicate (length (seqZ 0 (Z.of_nat (Z.to_nat (height - 3))))) UpMid).
    + apply const_fmap. intros i j Hj. apply lookup_seqZ in Hj as [-> Hi].
      rewrite decide_True; [done|lia].
    + f_equal. rewrite length_seqZ. lia.
  - cbn. rewrite decide_False; [done|lia].
Qed.

(** [RSU.construct] on a block built by [RSU.__init__], with the encoder
    outputs spelled out. *)
Lemma RSU_run_explicit height m x :
  RSU_init height in_ch mid_ch out_ch = Ok m →
  let n := Z.to_nat (height - 2) in
  RSU_encoder_outputs m x = e0 x :: downs n x ++ [bott n x] ∧
  RSU_run m x =
    Ok (AddOp (foldl decoder_stage_spec (bott n x)
                 (zip (rsu_decode_modules m) (reverse (e0 x :: downs n x))))
          (x_in x), []).
Proof.
  intros Hm n.
  destruct (RSU_init_lengths _ _ _ _ _ Hm) as (Hh & Hle & Hld).
  destruct (RSU_run_balanced m x) as (b & skips & Houts & Hlen & Hrun); [lia|].
  pose proof Hm as Hm'. rewrite RSU_init_Ok in Hm' by done. injection Hm' as Hm'.
  assert (rsu_conv_in m = ConvBNReLU_init in_ch out_ch 3 1) as Hin by (by rewrite <- Hm').
  assert (RSU_encoder_outputs m x = e0 x :: downs n x ++ [bott n x]) as HE.
  { rewrite <- Hm'.
    unfold RSU_encoder_outputs. cbn [rsu_encode_modules rsu_conv_in app chain].
    f_equal. rewrite chain_app. f_equal. }
  split; [done|].
  rewrite HE in Houts. rewrite app_comm_cons in Houts.
  apply app_inj_tail in Houts as [Hskips <-].
  rewrite Hskips, reverse_involutive. rewrite Hin in Hrun. exact Hrun.
Qed.

(** The resolutions of the encoder outputs of an [RSU] block. *)
Lemma RSU_encoder_resolutions height m x :
  RSU_init height in_ch mid_ch out_ch = Ok m →
  let n := Z.to_nat (height - 2) in
  spatial <$> RSU_encoder_outputs m x =
  spatial x :: ((λ i, Nat.iter (S i) ceil_half2 (spatial x)) <$> seq 0 n)
    ++ [Nat.iter n ceil_half2 (spatial x)].
Proof.
  intros Hm n. destruct (RSU_run_explicit height m x Hm) as [-> _]. fold n.
  assert (spatial (e0 x) = spatial x) as He0.
  { unfold spatial. by rewrite shape_Down, shape_ConvBNReLU. }
  assert (∀ y, spatial (EncodeCell_construct (EncDown DownMid) y)
               = ceil_half2 (spatial y)) as Hdown.
  { intros y. unfold spatial, ceil_half2. cbn [EncodeCell_construct].
    by rewrite shape_Down. }
  rewrite fmap_cons, fmap_app, He0. f_equal. f_equal.
  - by rewrite (chain_replicate_spatial _ ceil_half2), He0.
  - cbn [fmap list_fmap]. f_equal.
    rewrite spatial_ConvBNReLU_construct.
    by rewrite (last_chain_replicate_spatial _ ceil_half2), He0.
Qed.

(** The decoder of a block of height at least 3: the first stage joins the
    bottleneck with the deepest encoder output at the same resolution, the
    last one resizes to the first encoder output. *)
Lemma RSU_run_ge3 height m x :
  height >= 3 →
  RSU_init height in_ch mid_ch out_ch = Ok m →
  let k := Z.to_nat (height - 3) in
  let s0 := EncodeCell_construct (EncDown DownMid) (deepest k x) in
  let b := ConvBNReLU_construct Bott s0 in
  let d1 := decoder_stage_spec b (Up0, s0) in
  let dmid := foldl decoder_stage_spec d1 (zip (replicate k UpMid) (reverse (downs k x))) in
  RSU_run m x = Ok (AddOp (decoder_stage_spec dmid (UpOut, e0 x)) (x_in x), []).
Proof.
  intros Hh Hm k s0 b d1 dmid.
  destruct (RSU_run_explicit height m x Hm) as [_ ->].
  pose proof Hm as Hm'. rewrite RSU_init_Ok in Hm' by lia. injection Hm' as Hm'.
  assert (rsu_decode_modules m = Up0 :: replicate k UpMid ++ [UpOut]) as ->.
  { rewrite <- Hm'. cbn [rsu_decode_modules app]. by rewrite RSU_init_decoders. }
  replace (Z.to_nat (height - 2)) with (S k) by lia.
  assert (downs (S k) x = downs k x ++ [s0]) as ->.
  { replace (replicate (S k) (EncDown DownMid))
      with (replicate k (EncDown DownMid) ++ [EncDown DownMid])
      by (by rewrite <- replicate_cons_app).
    by rewrite chain_app. }
  rewrite last_snoc. cbn [default].
  rewrite reverse_cons, reverse_app. cbn [reverse rev_append app zip_with].
  change (rev_append [] [s0]) with [s0]. cbn [app zip_with foldl].
  rewrite zip_with_app by (by rewrite length_replicate, length_reverse, length_chain,
                                  length_replicate).
  by rewrite foldl_app.
Qed.

Lemma batch_channels_downs N k x :
  batch_channels N mid_ch (e0 x) →
  Forall (batch_channels N mid_ch) (downs k x) ∧
  batch_channels N mid_ch (deepest k x).
Proof.
  intros He0.
  assert (Forall (batch_channels N mid_ch) (downs k x)) as HF.
  { apply chain_Forall; [|done]. intros c y Hc Hy.
    apply elem_of_replicate in Hc as [-> _]. by apply batch_channels_Down. }
  split; [done|].
  destruct (last (downs k x)) as [t|] eqn:Hl; [|done].
  apply last_Some in Hl as [l Hl]. rewrite Hl in HF.
  by apply Forall_app in HF as [_ [? _]%Forall_cons].
Qed.

Lemma batch_channels_fold_UpMid N k : ∀ mids d,
  batch_channels N mid_ch d →
  Forall (batch_channels N mid_ch) mids →
  batch_channels N mid_ch
    (foldl decoder_stage_spec d (zip (replicate k UpMid) mids)).
Proof.
  induction k as [|k IH]; intros [|s mids] d Hd Hm; try done.
  apply Forall_cons in Hm as [Hs Hm]. cbn [replicate zip_with foldl].
  apply IH; [|done].
  eapply batch_channels_decoder_stage; [done..|lia|by left].
Qed.

(** A block of height at least 3 returns a tensor with the batch size,
    height and width of its input and [out_ch] channels; when the input is
    well shaped and has [in_ch] channels, so is all of the graph. *)
Lemma RSU_shape_ge3 height m x :
  height >= 3 →
  RSU_init height in_ch mid_ch out_ch = Ok m →
  ∃ y, RSU_construct m x = Ok y ∧
       shape y = mkShape (dimN (shape x)) out_ch (dimH (shape x)) (dimW (shape x)) ∧
       (well_shaped x → dimC (shape x) = in_ch → well_shaped y).
Proof.
  intros Hh Hm. unfold RSU_construct. rewrite (RSU_run_ge3 height m x Hh Hm).
  set (k := Z.to_nat (height - 3)).
  set (s0 := EncodeCell_construct (EncDown DownMid) (deepest k x)).
  set (b := ConvBNReLU_construct Bott s0).
  set (d1 := decoder_stage_spec b (Up0, s0)).
  set (dmid := foldl decoder_stage_spec d1 (zip (replicate k UpMid) (reverse (downs k x)))).
  eexists. split; [reflexivity|].
  assert (shape (x_in x) = mkShape (dimN (shape x)) out_ch (dimH (shape x)) (dimW (shape x)))
    as Hxin by apply shape_ConvBNReLU.
  assert (shape (e0 x) = mkShape (dimN (shape x)) mid_ch (dimH (shape x)) (dimW (shape x)))
    as He0 by (by rewrite shape_Down, Hxin).
  assert (dimN (shape dmid) = dimN (shape x)) as HN.
  { unfold dmid. rewrite dimN_fold_decoders. unfold d1. rewrite dimN_decoder_stage.
    unfold b. rewrite shape_ConvBNReLU. cbn [dimN]. unfold s0.
    rewrite dimN_EncodeCell.
    destruct (last (downs k x)) as [t|] eqn:Hl; cbn [default]; [|by rewrite He0].
    assert (Forall (λ t, dimN (shape t) = dimN (shape x)) (downs k x)) as HF.
    { apply chain_Forall; [|by rewrite He0]. intros c y _ <-. apply dimN_EncodeCell. }
    apply last_Some in Hl as [l Hl]. rewrite Hl in HF.
    by apply Forall_app in HF as [_ [? _]%Forall_cons]. }
  assert (shape (decoder_stage_spec dmid (UpOut, e0 x))
          = mkShape (dimN (shape x)) out_ch (dimH (shape x)) (dimW (shape x))) as Hd.
  { by rewrite shape_decoder_stage, HN, He0. }
  split.
  { cbn [fst shape]. rewrite Hd, Hxin. cbn [dimN dimC dimH dimW].
    by rewrite !Z.max_id. }
  intros Hw HC. cbn [fst].
  assert (batch_channels (dimN (shape x)) out_ch (x_in x)) as Bxin
    by (by apply batch_channels_ConvBNReLU).
  assert (batch_channels (dimN (shape x)) mid_ch (e0 x)) as Be0
    by (by apply batch_channels_Down).
  destruct (batch_channels_downs _ k x Be0) as [Bdowns Bdeep].
  assert (batch_channels (dimN (shape x)) mid_ch s0) as Bs0
    by (by apply batch_channels_Down).
  assert (batch_channels (dimN (shape x)) mid_ch b) as Bb
    by (by apply batch_channels_ConvBNReLU).
  assert (batch_channels (dimN (shape x)) mid_ch d1) as Bd1.
  { eapply batch_channels_decoder_stage; [done..|lia|right].
    unfold b. by rewrite spatial_ConvBNReLU_construct. }
  assert (batch_channels (dimN (shape x)) mid_ch dmid) as Bdmid.
  { apply batch_channels_fold_UpMid; [done|]. by apply Forall_reverse. }
  assert (batch_channels (dimN (shape x)) out_ch (decoder_stage_spec dmid (UpOut, e0 x)))
    as (Bd & _ & _).
  { eapply batch_channels_decoder_stage; [done..|lia|by left]. }
  destruct Bxin as (Wxin & _ & _).
  cbn [well_shaped]. split; [done|]. split; [done|].
  rewrite Hd, Hxin. by repeat split; left.
Qed.

(** The edge [height = 2]: the loop of [RSU.__init__] does not run, the only
    decoder cell has [mid_ch] output channels, and the residual sum adds a
    tensor with [mid_ch] channels to one with [out_ch] channels. *)
Lemma RSU_shape_2 m x :
  RSU_init 2 in_ch mid_ch out_ch = Ok m →
  ∃ d, RSU_construct m x = Ok (AddOp d (x_in x)) ∧
       shape d = mkShape (dimN (shape x)) mid_ch (dimH (shape x)) (dimW (shape x)) ∧
       shape (x_in x) = mkShape (dimN (shape x)) out_ch (dimH (shape x)) (dimW (shape x)) ∧
       (well_shaped x → dimC (shape x) = in_ch → well_shaped d ∧ well_shaped (x_in x)).
Proof.
  intros Hm. unfold RSU_construct.
  destruct (RSU_run_explicit 2 m x Hm) as [_ ->].
  pose proof Hm as Hm'. rewrite RSU_init_Ok in Hm' by lia. injection Hm' as Hm'.
  rewrite <- Hm'. cbn [rsu_decode_modules].
  exists (decoder_stage_spec (bott 0 x) (Up0, e0 x)).
  split; [done|]. split; [|split; [apply shape_ConvBNReLU|]].
  - rewrite shape_decoder_stage. cbn [replicate chain last default].
    by rewrite shape_ConvBNReLU, shape_Down, shape_ConvBNReLU.
  - intros Hw HC. set (N := dimN (shape x)).
    assert (batch_channels N out_ch (x_in x)) as Bxin
      by (by apply batch_channels_ConvBNReLU).
    assert (batch_channels N mid_ch (e0 x)) as Be0 by (by apply batch_channels_Down).
    assert (batch_channels N mid_ch (bott 0 x)) as Bb
      by (by apply batch_channels_ConvBNReLU).
    assert (batch_channels N mid_ch (decoder_stage_spec (bott 0 x) (Up0, e0 x)))
      as (Wd & _ & _).
    { eapply batch_channels_decoder_stage; [done..|lia|right].
      cbn [replicate chain last default]. by rewrite spatial_ConvBNReLU_construct. }
    split; [done|]. by destruct Bxin.
Qed.
End RSU_shapes.

Lemma shape_cat2 a b ax :
  shape (CatOp [a; b] ax) =
  mkShape (dimN (shape a)) (dimC (shape a) + dimC (shape b)) (dimH (shape a)) (dimW (shape a)).
Proof. cbn. by rewrite Z.add_0_r. Qed.

Lemma batch_channels_cat2 N c1 c2 a b :
  batch_channels N c1 a → batch_channels N c2 b → spatial b = spatial a →
  batch_channels N (c1 + c2) (CatOp [a; b] 1) ∧ spatial (CatOp [a; b] 1) = spatial a.
Proof.
  intros (Hw1 & HN1 & HC1) (Hw2 & HN2 & HC2) Hsp. injection Hsp as HH HW.
  split; [|done]. split; [|by rewrite shape_cat2, HC1, HC2].
  cbn. split; [done|]. constructor; [|constructor]. by rewrite HN1, HN2, HH, HW.
Qed.

Lemma batch_channels_add N c a b :
  batch_channels N c a → batch_channels N c b → spatial a = spatial b →
  batch_channels N c (AddOp a b) ∧ spatial (AddOp a b) = spatial b.
Proof.
  intros (Hw1 & HN1 & HC1) (Hw2 & HN2 & HC2) Hsp. injection Hsp as HH HW.
  assert (shape (AddOp a b) = shape b) as Hs.
  { cbn [shape]. rewrite HN1, HN2, HC1, HC2, HH, HW, !Z.max_id.
    destruct (shape b); cbn in *; congruence. }
  split; [|unfold spatial; by rewrite Hs].
  split; [|by rewrite Hs].
  cbn [well_shaped]. split; [done|]. split; [done|].
  unfold broadcastable. rewrite HN1, HN2, HC1, HC2, HH, HW. by repeat split; left.
Qed.

(** Shapes pushed forward through the cells, for graphs too deep to unfold. *)
Lemma shape_ConvBNReLU_fwd N c h w a b d y :
  shape y = mkShape N c h w →
  shape (ConvBNReLU_construct (ConvBNReLU_init a b 3 d) y) = mkShape N b h w.
Proof. intros Hy. by rewrite shape_ConvBNReLU, Hy. Qed.

Lemma shape_cat2_fwd N c1 c2 h w s a b ax :
  shape a = mkShape N c1 h w → shape b = s → dimC s = c2 →
  shape (CatOp [a; b] ax) = mkShape N (c1 + c2) h w.
Proof. intros Ha Hb Hc. by rewrite shape_cat2, Ha, Hb, Hc. Qed.

Lemma shape_add_fwd s a b :
  shape a = s → shape b = s → shape (AddOp a b) = s.
Proof.
  intros Ha Hb. cbn [shape]. rewrite Ha, Hb, !Z.max_id. by destruct s.
Qed.

(** [RSU4F.construct] returns a tensor with the batch size, height and
    width of its input and [out_ch] channels; when the input is well shaped
    and has [in_ch] channels, so is all of the graph. *)
Lemma RSU4F_shape in_ch mid_ch out_ch x :
  ∃ y, RSU4F_construct (RSU4F_init in_ch mid_ch out_ch) x = Ok y ∧
       shape y = mkShape (dimN (shape x)) out_ch (dimH (shape x)) (dimW (shape x)) ∧
       (well_shaped x → dimC (shape x) = in_ch → well_shaped y).
Proof.
  unfold RSU4F_construct. rewrite RSU4F_run_Ok. cbn zeta.
  eexists. split; [reflexivity|]. cbn [fst].
  set (N := dimN (shape x)). set (h := dimH (shape x)). set (w := dimW (shape x)).
  assert (shape x = mkShape N (dimC (shape x)) h w) as Sx by (by destruct (shape x)).
  pose proof (shape_ConvBNReLU_fwd _ _ _ _ in_ch out_ch 1 _ Sx) as Sxin.
  pose proof (shape_ConvBNReLU_fwd _ _ _ _ out_ch mid_ch 1 _ Sxin) as S1.
  pose proof (shape_ConvBNReLU_fwd _ _ _ _ mid_ch mid_ch 2 _ S1) as S2.
  pose proof (shape_ConvBNReLU_fwd _ _ _ _ mid_ch mid_ch 4 _ S2) as S3.
  pose proof (shape_ConvBNReLU_fwd _ _ _ _ mid_ch mid_ch 8 _ S3) as S4.
  pose proof (shape_cat2_fwd _ _ mid_ch _ _ _ _ _ 1 S4 S3 eq_refl) as SC3.
  pose proof (shape_ConvBNReLU_fwd _ _ _ _ (mid_ch * 2) mid_ch 4 _ SC3) as SD3.
  pose proof (shape_cat2_fwd _ _ mid_ch _ _ _ _ _ 1 SD3 S2 eq_refl) as SC2.
  pose proof (shape_ConvBNReLU_fwd _ _ _ _ (mid_ch * 2) mid_ch 2 _ SC2) as SD2.
  pose proof (shape_cat2_fwd _ _ mid_ch _ _ _ _ _ 1 SD2 S1 eq_refl) as SC1.
  pose proof (shape_ConvBNReLU_fwd _ _ _ _ (mid_ch * 2) out_ch 1 _ SC1) as SD1.
  split; [exact (shape_add_fwd _ _ _ SD1 Sxin)|].
  intros Hw HC.
  assert (∀ c t, shape t = mkShape N c h w → dimN (shape t) = N ∧ dimC (shape t) = c
                                            ∧ spatial t = (h, w)) as Hsh.
  { intros c t Ht. unfold spatial. by rewrite Ht. }
  assert (batch_channels N in_ch x) as Bx by done.
  pose proof (batch_channels_ConvBNReLU N in_ch out_ch 1 x Bx) as Bxin.
  pose proof (batch_channels_ConvBNReLU N out_ch mid_ch 1 _ Bxin) as B1.
  pose proof (batch_channels_ConvBNReLU N mid_ch mid_ch 2 _ B1) as B2.
  pose proof (batch_channels_ConvBNReLU N mid_ch mid_ch 4 _ B2) as B3.
  pose proof (batch_channels_ConvBNReLU N mid_ch mid_ch 8 _ B3) as B4.
  destruct (batch_channels_cat2 N _ _ _ _ B4 B3) as [C3 _].
  { destruct (Hsh _ _ S4) as (_ & _ & ->). by destruct (Hsh _ _ S3) as (_ & _ & ->). }
  replace (mid_ch + mid_ch) with (mid_ch * 2) in C3 by lia.
  pose proof (batch_channels_ConvBNReLU N _ mid_ch 4 _ C3) as D3.
  destruct (batch_channels_cat2 N _ _ _ _ D3 B2) as [C2 _].
  { destruct (Hsh _ _ SD3) as (_ & _ & ->). by destruct (Hsh _ _ S2) as (_ & _ & ->). }
  replace (mid_ch + mid_ch) with (mid_ch * 2) in C2 by lia.
  pose proof (batch_channels_ConvBNReLU N _ mid_ch 2 _ C2) as D2.
  destruct (batch_channels_cat2 N _ _ _ _ D2 B1) as [C1 _].
  { destruct (Hsh _ _ SD2) as (_ & _ & ->). by destruct (Hsh _ _ S1) as (_ & _ & ->). }
  replace (mid_ch + mid_ch) with (mid_ch * 2) in C1 by lia.
  pose proof (batch_channels_ConvBNReLU N _ out_ch 1 _ C1) as D1.
  destruct (batch_channels_add N _ _ _ D1 Bxin) as [(Hy & _ & _) _]; [|exact Hy].
  destruct (Hsh _ _ SD1) as (_ & _ & ->). by destruct (Hsh _ _ Sxin) as (_ & _ & ->).
Qed.

(** ** Stages *)

Lemma make_stage_shape c s x :
  make_stage c = Ok s → row_ok c = true →
  ∃ y, Stage_construct s x = Ok y ∧
       shape y = mkShape (dimN (shape x)) (c_out_ch c) (dimH (shape x)) (dimW (shape x)) ∧
       (well_shaped x → dimC (shape x) = c_in_ch c → well_shaped y).
Proof.
  unfold make_stage, row_ok. destruct (c_RSU4F c); cbn [orb].
  - intros [= <-] _. apply RSU4F_shape.
  - destruct (RSU_init _ _ _ _) as [m|e] eqn:Hm; [|done].
    intros [= <-] Hh%bool_decide_eq_true. cbn [Stage_construct].
    by eapply RSU_shape_ge3.
Qed.

(** Every stage keeps the batch size, the height and the width. *)
Lemma make_stage_spatial c s x y :
  make_stage c = Ok s → Stage_construct s x = Ok y →
  spatial y = spatial x ∧ dimN (shape y) = dimN (shape x).
Proof.
  unfold make_stage. destruct (c_RSU4F c).
  - intros [= <-] Hy. destruct (RSU4F_shape (c_in_ch c) (c_mid_ch c) (c_out_ch c) x)
      as (y' & Hy' & Hs & _).
    cbn [Stage_construct] in Hy. rewrite Hy' in Hy. injection Hy as <-.
    unfold spatial. by rewrite Hs.
  - destruct (RSU_init _ _ _ _) as [m|e] eqn:Hm; [|done].
    intros [= <-] Hy. cbn [Stage_construct] in Hy.
    destruct (RSU_init_lengths _ _ _ _ _ Hm) as (Hh & _ & _).
    destruct (decide (c_height c = 2)) as [H2|H2].
    + rewrite H2 in Hm. destruct (RSU_shape_2 _ _ _ _ x Hm) as (d & Hd & Sd & Sx & _).
      rewrite Hd in Hy. injection Hy as <-. unfold spatial. cbn [shape].
      rewrite Sd, Sx. cbn [dimN dimH dimW]. by rewrite !Z.max_id.
    + assert (c_height c >= 3) as H3 by lia.
      destruct (RSU_shape_ge3 _ _ _ _ m x H3 Hm) as (y' & Hy' & Hs & _).
      rewrite Hy' in Hy. injection Hy as <-. unfold spatial. by rewrite Hs.
Qed.

(** ** The loops of [U2Net.construct], with their data flow *)

Lemma U2Net_encode_loop_fed n ims : ∀ x outs,
  Forall Stage_total (snd <$> ims) →
  ∃ x' new,
    for_each (U2Net_encode_step n) ims (x, outs) = Ok (x', outs ++ new) ∧
    fed n ims x new.
Proof.
  induction ims as [|[i s] ims IH]; intros x outs Htot; simpl.
  - exists x, []. by rewrite app_nil_r.
  - apply Forall_cons in Htot as [Hs Htot].
    destruct (Hs x) as (d & Hd). simpl in Hd. rewrite Hd. simpl.
    edestruct IH as (x' & new & -> & Hnew); [done|].
    eexists x', (_ :: new). rewrite <- app_assoc. split; [done|].
    split; [done|]. exact Hnew.
Qed.

Lemma U2Net_decode_loop_joined ds : ∀ x outs skips dec_outs,
  Forall Stage_total ds →
  length skips = length ds →
  ∃ x' new,
    for_each U2Net_decode_step ds (x, outs ++ reverse skips, dec_outs) =
      Ok (x', outs, reverse new ++ dec_outs) ∧
    joined ds skips x new.
Proof.
  induction ds as [|s ds IH]; intros x outs [|k skips] dec_outs Htot Hlen;
    simplify_eq/=.
  - exists x, []. by rewrite app_nil_r.
  - apply Forall_cons in Htot as [Hs Htot].
    rewrite reverse_cons, app_assoc, pop_snoc. simpl.
    destruct (Hs (CatOp [InterpolateOp (spatial k) bilinear false x; k] 1)) as (d & Hd).
    rewrite Hd. simpl.
    edestruct IH as (x' & new & -> & Hnew); [done..|].
    eexists x', (_ :: new). rewrite reverse_cons, <- app_assoc. split; [done|].
    split; [done|]. exact Hnew.
Qed.

(** The decoder loop raises [IndexError] when [encode_outputs] holds fewer
    tensors than there are decoder stages. *)
Lemma U2Net_decode_loop_short ds : ∀ x outs dec_outs,
  Forall Stage_total ds →
  (length outs < length ds)%nat →
  for_each U2Net_decode_step ds (x, outs, dec_outs) = Raise IndexError.
Proof.
  induction ds as [|s ds IH]; intros x outs dec_outs Htot Hlen; simpl in *; [lia|].
  apply Forall_cons in Htot as [Hs Htot].
  destruct outs as [|k outs _] using rev_ind; [done|].
  rewrite pop_snoc. simpl.
  destruct (Hs (CatOp [InterpolateOp (spatial k) bilinear false x; k] 1)) as (d & Hd).
  rewrite Hd. simpl. apply IH; [done|]. rewrite length_app in Hlen. simpl in Hlen. lia.
Qed.

(** The side loop raises [IndexError] when there are more side modules than
    tensors in [decode_outputs]. *)
Lemma U2Net_side_loop_short h w sides : ∀ dec_outs side_outs,
  (length dec_outs < length sides)%nat →
  for_each (U2Net_side_step h w) sides (dec_outs, side_outs) = Raise IndexError.
Proof.
  induction sides as [|c sides IH]; intros dec_outs side_outs Hlen; simpl in *; [lia|].
  destruct dec_outs as [|k outs _] using rev_ind; [done|].
  rewrite pop_snoc. simpl. apply IH. rewrite length_app in Hlen. simpl in Hlen. lia.
Qed.

Lemma fed_length n ims : ∀ x ys, fed n ims x ys → length ys = length ims.
Proof.
  induction ims as [|[i s] ims IH]; intros x [|y ys]; cbn [fed]; try done.
  intros [_ H]. cbn [length]. f_equal. by eapply IH.
Qed.

Lemma joined_length ds : ∀ skips x ys, joined ds skips x ys → length ys = length ds.
Proof.
  induction ds as [|d ds IH]; intros [|k skips] x [|y ys]; cbn [joined]; try done.
  intros [_ H]. cbn [length]. f_equal. by eapply IH.
Qed.

Lemma length_enumerate {A} (l : list A) : length (enumerate l) = length l.
Proof. unfold enumerate. rewrite length_zip_with, length_seqZ. lia. Qed.

Lemma snd_enumerate {A} (l : list A) : (enumerate l).*2 = l.
Proof. unfold enumerate. rewrite snd_zip; [done|]. rewrite length_seqZ. lia. Qed.

(** "collect encode outputs" never raises when the stages do not. *)
Lemma U2Net_collect_encode_fed m x :
  Forall Stage_total (encode_modules m) →
  ∃ x' enc_outs,
    U2Net_collect_encode m x = Ok (x', enc_outs) ∧
    fed (encode_num m) (enumerate (encode_modules m)) x enc_outs.
Proof.
  intros Htot.
  destruct (U2Net_encode_loop_fed (encode_num m) (enumerate (encode_modules m)) x [])
    as (x' & enc_outs & Hrun & Hfed); [by rewrite snd_enumerate|].
  by exists x', enc_outs.
Qed.

(** "collect decode outputs" when there are more encoder outputs than
    decoder stages: the skip connections are the last encoder outputs
    below the deepest one, deepest first. *)
Lemma U2Net_collect_decode_joined m enc_outs :
  Forall Stage_total (decode_modules m) →
  (length (decode_modules m) < length enc_outs)%nat →
  let n := (length enc_outs - 1 - length (decode_modules m))%nat in
  ∃ e_last decs,
    last enc_outs = Some e_last ∧
    U2Net_collect_decode m enc_outs
      = Ok (take n (removelast enc_outs), reverse decs ++ [e_last]) ∧
    joined (decode_modules m) (reverse (drop n (removelast enc_outs))) e_last decs.
Proof.
  intros Htot Hlt. cbv zeta. destruct enc_outs as [|e_last rest _] using rev_ind.
  { simpl in Hlt. lia. }
  rewrite length_app in Hlt. rewrite removelast_last, length_app. cbn [length] in *.
  set (n := (length rest + 1 - 1 - length (decode_modules m))%nat).
  destruct (U2Net_decode_loop_joined (decode_modules m) e_last (take n rest)
              (reverse (drop n rest)) [e_last])
    as (x'' & decs & Hrun & Hj); [done| |].
  { rewrite length_reverse, length_drop. lia. }
  rewrite reverse_involutive, take_drop in Hrun.
  exists e_last, decs. split; [apply last_snoc|]. split; [|done].
  unfold U2Net_collect_decode. rewrite pop_snoc. simpl. by rewrite Hrun.
Qed.

(** With as many decoder stages as encoder outputs, or more, a [pop] meets
    an empty [encode_outputs]. *)
Lemma U2Net_collect_decode_short m enc_outs :
  Forall Stage_total (decode_modules m) →
  (length enc_outs ≤ length (decode_modules m))%nat →
  U2Net_collect_decode m enc_outs = Raise IndexError.
Proof.
  intros Htot Hle. unfold U2Net_collect_decode.
  destruct enc_outs as [|e_last rest _] using rev_ind; [done|].
  rewrite pop_snoc. simpl.
  rewrite U2Net_decode_loop_short; [done..|].
  rewrite length_app in Hle. simpl in Hle. lia.
Qed.

(** [U2Net.construct] on a network whose stages never raise: it returns
    when there are fewer decoder than encoder stages and at most one side
    module per element of [decode_outputs], and raises [IndexError]
    otherwise. *)
Lemma U2Net_construct_cases m training x :
  Forall Stage_total (encode_modules m) →
  Forall Stage_total (decode_modules m) →
  if decide ((length (decode_modules m) < length (encode_modules m))%nat ∧
             (length (side_modules m) ≤ S (length (decode_modules m)))%nat)
  then ∃ out, U2Net_construct m training x = Ok out
  else U2Net_construct m training x = Raise IndexError.
Proof.
  intros Henc Hdec. case_decide as Hc.
  - destruct Hc as [Hlt Hle].
    destruct (U2Net_construct_wf m training x) as (? & ? & ? & ? & ? & H); [done|].
    destruct H as (_ & _ & _ & _ & _ & _ & ->). by eexists.
  - destruct (U2Net_collect_encode_fed m x Henc) as (x' & enc_outs & Hrun & Hfed).
    pose proof (fed_length _ _ _ _ Hfed) as Hlen. rewrite length_enumerate in Hlen.
    unfold U2Net_construct. rewrite Hrun. simpl.
    destruct (decide (length (decode_modules m) < length (encode_modules m))%nat)
      as [Hlt|Hge].
    + destruct (U2Net_collect_decode_joined m enc_outs Hdec) as (e & decs & _ & -> & Hj);
        [lia|]. simpl.
      unfold U2Net_collect_side. rewrite U2Net_side_loop_short; [done|].
      pose proof (joined_length _ _ _ _ Hj).
      rewrite length_app, length_reverse. simpl. lia.
    + rewrite U2Net_collect_decode_short; [done..|]. lia.
Qed.

(** [U2Net.construct] with the data flow of its encoder and decoder loops. *)
Lemma U2Net_construct_flow m training x :
  U2Net_wf m →
  ∃ x' enc_outs e_last decs,
    U2Net_collect_encode m x = Ok (x', enc_outs) ∧
    fed (encode_num m) (enumerate (encode_modules m)) x enc_outs ∧
    last enc_outs = Some e_last ∧
    joined (decode_modules m)
      (reverse (drop (length enc_outs - 1 - length (decode_modules m))
                  (removelast enc_outs))) e_last decs ∧
    U2Net_construct m training x =
      Ok (let side_outputs :=
            reverse (zip_with (side_output (dimH (shape x)) (dimW (shape x)))
                       (side_modules m) (e_last :: decs)) in
          let fused := Conv2dOp (out_conv m) (CatOp side_outputs 1) in
          if training then OutList (fused :: side_outputs)
          else OutTensor (SigmoidOp fused)).
Proof.
  intros Hwf. pose proof Hwf as (Henc & Hdec & Hlt & Hle).
  destruct (U2Net_collect_encode_fed m x Henc) as (x' & enc_outs & Hrun & Hfed).
  pose proof (fed_length _ _ _ _ Hfed) as Hlen. rewrite length_enumerate in Hlen.
  destruct (U2Net_collect_decode_joined m enc_outs Hdec) as (e & decs & Hlast & Hcd & Hj);
    [lia|].
  destruct (U2Net_construct_wf m training x Hwf)
    as (x2 & enc2 & rest2 & e2 & decs2 & Hrun2 & _ & _ & Hcd2 & _ & _ & Hc).
  rewrite Hrun in Hrun2. injection Hrun2 as <- <-.
  rewrite Hcd in Hcd2. injection Hcd2 as _ Heq.
  apply app_inj_tail in Heq as [Heq <-]. apply (inj reverse) in Heq as <-.
  by exists x', enc_outs, e, decs.
Qed.

(** The stages keep the resolution and the pooling between them halves it:
    the output of encoder stage [i] has the input resolution halved [i]
    times, rounding up. *)
Lemma fed_resolutions cs ss :
  Forall2 (λ c s, make_stage c = Ok s) cs ss →
  ∀ (j : Z) x ys,
    fed (j + Z.of_nat (length ss)) (zip (seqZ j (Z.of_nat (length ss))) ss) x ys →
    spatial <$> ys = (λ i, Nat.iter i ceil_half2 (spatial x)) <$> seq 0 (length ss) ∧
    Forall (λ y, dimN (shape y) = dimN (shape x)) ys.
Proof.
  induction 1 as [|c s cs ss Hs _ IH]; intros j x ys Hfed.
  - destruct ys; [|done]. by split.
  - cbn [length] in Hfed. rewrite seqZ_cons in Hfed by lia.
    cbn [zip_with fed] in Hfed. destruct ys as [|y ys]; [done|].
    destruct Hfed as [Hy Hfed].
    destruct (make_stage_spatial _ _ _ _ Hs Hy) as [Hsp HN].
    cbn [length seq]. rewrite !fmap_cons. cbn [Nat.iter].
    destruct ss as [|s' ss'].
    { cbn [length zip_with] in Hfed. rewrite seqZ_nil in Hfed by done.
      destruct ys; [|done]. split; [by rewrite Hsp|by repeat constructor]. }
    replace (Z.pred (Z.of_nat (S (length (s' :: ss')))))
      with (Z.of_nat (length (s' :: ss'))) in Hfed by lia.
    replace (j + Z.of_nat (S (length (s' :: ss'))))
      with (Z.succ j + Z.of_nat (length (s' :: ss'))) in Hfed by lia.
    rewrite decide_True in Hfed by (cbn [length]; lia).
    apply IH in Hfed as [Hsps HNs]. split.
    + rewrite Hsp. f_equal. rewrite Hsps, spatial_pool, Hsp.
      rewrite <- fmap_S_seq, <- list_fmap_compose.
      apply list_fmap_ext. intros _ i _. cbn [compose].
      by rewrite <- Nat.iter_succ_r.
    + constructor; [done|]. eapply Forall_impl; [exact HNs|].
      intros t ->. cbn [shape dimN]. done.
Qed.

(** Every decoder stage returns a tensor with the resolution of its skip
    connection. *)
Lemma joined_resolutions cd ds :
  Forall2 (λ c s, make_stage c = Ok s) cd ds →
  ∀ skips x ys,
    joined ds skips x ys →
    spatial <$> ys = spatial <$> take (length ds) skips.
Proof.
  induction 1 as [|c s cd ds Hs _ IH]; intros [|k skips] x [|y ys]; cbn [joined]; try done.
  intros [Hy Hj]. destruct (make_stage_spatial _ _ _ _ Hs Hy) as [Hsp _].
  cbn [length take]. rewrite !fmap_cons. f_equal; [|by eapply IH].
  by rewrite Hsp.
Qed.

(** ** Channel counts through [U2Net.construct] *)

Lemma batch_channels_pool N c y :
  batch_channels N c y → batch_channels N c (MaxPool2dOp 2 2 true y).
Proof. by intros (? & ? & ?). Qed.

Lemma fed_channels N cs ss :
  Forall2 (λ c s, make_stage c = Ok s) cs ss →
  ∀ n ims cin x ys,
    ims.*2 = ss → fed n ims x ys →
    enc_wired cin cs = true → batch_channels N cin x →
    Forall2 (λ c y, batch_channels N (c_out_ch c) y) cs ys.
Proof.
  induction 1 as [|c s cs ss Hs _ IH]; intros n [|[i s'] ims] cin x ys Hims Hfed Hw Hx;
    simplify_eq/=.
  - destruct ys; [constructor|done].
  - destruct ys as [|y ys]; [done|]. destruct Hfed as [Hy Hfed].
    apply andb_prop in Hw as [[Hok Hc%bool_decide_eq_true]%andb_prop Hw].
    destruct (make_stage_shape _ _ x Hs Hok) as (y' & Hy' & Hsh & Hws).
    rewrite Hy' in Hy. injection Hy as ->.
    destruct Hx as (Wx & Nx & Cx).
    assert (batch_channels N (c_out_ch c) y) as By.
    { split; [apply Hws; congruence|]. by rewrite Hsh. }
    constructor; [done|].
    eapply IH; [done|exact Hfed|done|].
    case_decide; [by apply batch_channels_pool|done].
Qed.

Lemma batch_channels_join N c1 c2 x k :
  batch_channels N c1 x → batch_channels N c2 k →
  batch_channels N (c1 + c2) (CatOp [InterpolateOp (spatial k) bilinear false x; k] 1).
Proof.
  intros (Hw1 & HN1 & HC1) (Hw2 & HN2 & HC2).
  split; [|by rewrite shape_cat2; cbn [shape dimN dimC]; rewrite HC1, HC2].
  cbn. split; [done|]. constructor; [|constructor]. by rewrite HN1, HN2.
Qed.

Lemma joined_channels N cd ds :
  Forall2 (λ c s, make_stage c = Ok s) cd ds →
  ∀ skips ks cprev x ys,
    joined ds skips x ys →
    dec_wired cprev cd ks = true →
    Forall2 (batch_channels N) ks skips →
    batch_channels N cprev x →
    Forall2 (λ c y, batch_channels N (c_out_ch c) y) cd ys.
Proof.
  induction 1 as [|c s cd ds Hs _ IH]; intros [|k skips] ks cprev x [|y ys] Hj Hw Hks Hx;
    cbn [joined] in Hj; try done; [constructor..|].
  destruct Hj as [Hy Hj].
  destruct ks as [|kc ks]; [by inversion Hks|].
  apply Forall2_cons in Hks as [Hk Hks].
  cbn [dec_wired] in Hw.
  apply andb_prop in Hw as [[Hok Hc%bool_decide_eq_true]%andb_prop Hw].
  pose proof (batch_channels_join _ _ _ _ _ Hx Hk) as (Wj & Nj & Cj).
  destruct (make_stage_shape _ _ (CatOp [InterpolateOp (spatial k) bilinear false x; k] 1)
              Hs Hok) as (y' & Hy' & Hsh & Hws).
  rewrite Hy' in Hy. injection Hy as ->.
  assert (batch_channels N (c_out_ch c) y) as By.
  { split; [apply Hws; congruence|]. by rewrite Hsh. }
  constructor; [done|]. by eapply IH.
Qed.

Lemma side_outputs_well_shaped N h w out_ch rows : ∀ ts,
  Forall2 (λ c t, batch_channels N (c_out_ch c) t) rows ts →
  Forall (λ s, well_shaped s ∧ shape s = mkShape N out_ch h w)
    (zip_with (side_output h w)
       ((λ c, nn_Conv2d (c_out_ch c) out_ch 3 1 1 false) <$> rows) ts).
Proof.
  induction rows as [|c rows IH]; intros [|t ts] Hf;
    try (by inversion Hf); try (by constructor).
  apply Forall2_cons in Hf as [(Wt & Nt & Ct) Hf].
  rewrite fmap_cons. cbn [zip_with]. constructor; [|by apply IH].
  cbn. by rewrite Nt.
Qed.

Lemma cat_well_shaped N c h w ax l :
  l ≠ [] →
  Forall (λ s, well_shaped s ∧ shape s = mkShape N c h w) l →
  well_shaped (CatOp l ax) ∧
  shape (CatOp l ax) = mkShape N (Z.of_nat (length l) * c) h w.
Proof.
  intros Hne Hl. split.
  - cbn [well_shaped]. split.
    + induction Hl as [|t l [Ht _] _ IH]; cbn [foldr]; [done|]. split; [done|].
      destruct l; [done|]. by apply IH.
    + destruct l as [|t l]; [done|]. rewrite fmap_cons.
      apply Forall_cons in Hl as [[_ Ht] Hl]. rewrite Ht. cbn [dimN dimH dimW].
      apply Forall_fmap. eapply Forall_impl; [exact Hl|].
      intros s [_ Hs]. cbn. by rewrite Hs.
  - assert (dimC (shape (CatOp l ax)) = Z.of_nat (length l) * c) as HC.
    { apply dimC_CatOp. eapply Forall_impl; [exact Hl|]. intros s [_ Hs]. by rewrite Hs. }
    destruct l as [|t l]; [done|]. apply Forall_cons in Hl as [[_ Ht] _].
    cbn [shape] in HC |- *. rewrite fmap_cons in HC |- *. cbn [dimC] in HC.
    rewrite HC, Ht. done.
Qed.

Lemma fusion_well_shaped N cin out_ch h w y :
  well_shaped y → shape y = mkShape N cin h w →
  well_shaped (Conv2dOp (nn_Conv2d cin out_ch 1 0 1 false) y) ∧
  shape (Conv2dOp (nn_Conv2d cin out_ch 1 0 1 false) y) = mkShape N out_ch h w.
Proof.
  intros Hw Hs. split; [cbn; by rewrite Hs|].
  cbn [shape]. rewrite Hs. unfold conv_out. cbn.
  rewrite !Z.div_1_r. f_equal; lia.
Qed.

Lemma row_ok_make_stage c : row_ok c = true → ∃ s, make_stage c = Ok s.
Proof.
  unfold row_ok, make_stage. destruct (c_RSU4F c); cbn [orb]; [by eexists|].
  intros Hh%bool_decide_eq_true. rewrite RSU_init_Ok by lia. by eexists.
Qed.

Lemma Forall_row_ok_make_stages cs :
  Forall (λ c, row_ok c = true) cs → ∃ ss, make_stages cs = Ok ss.
Proof.
  induction 1 as [|c cs Hc _ [ss IH]]; [by eexists|].
  destruct (row_ok_make_stage c Hc) as [s Hs]. cbn [make_stages].
  rewrite Hs, IH. by eexists.
Qed.

Lemma enc_wired_row_ok cs : ∀ cin, enc_wired cin cs = true → Forall (λ c, row_ok c = true) cs.
Proof.
  induction cs as [|c cs IH]; intros cin Hw; [constructor|].
  cbn [enc_wired] in Hw. apply andb_prop in Hw as [[Hok _]%andb_prop Hw].
  constructor; [done|]. by eapply IH.
Qed.

Lemma dec_wired_row_ok cd : ∀ cprev ks,
  dec_wired cprev cd ks = true → Forall (λ c, row_ok c = true) cd.
Proof.
  induction cd as [|c cd IH]; intros cprev [|k ks] Hw; try done; try constructor.
  - cbn [dec_wired] in Hw. by apply andb_prop in Hw as [[Hok _]%andb_prop Hw].
  - cbn [dec_wired] in Hw. apply andb_prop in Hw as [_ Hw]. by eapply IH.
Qed.

Lemma side_rows_last ce n :
  c_side <$> ce = replicate n false ++ [true] →
  ∃ ce0 c6, ce = ce0 ++ [c6] ∧ filter (λ c, c_side c = true) ce = [c6].
Proof.
  intros Hs. destruct ce as [|c6 ce0 _] using rev_ind.
  { by destruct n. }
  rewrite fmap_app in Hs. apply app_inj_tail in Hs as [Hs0 Hs6].
  exists ce0, c6. split; [done|]. rewrite filter_app.
  assert (filter (λ c, c_side c = true) ce0 = []) as ->.
  { clear Hs6. revert n Hs0. induction ce0 as [|c ce0 IH]; intros [|n] Hs0; try done.
    rewrite fmap_cons in Hs0. cbn [replicate] in Hs0. injection Hs0 as Hc Hs0.
    rewrite filter_cons_False by (by rewrite Hc). by eapply IH. }
  by rewrite filter_cons_True.
Qed.

Lemma side_rows_all cd :
  forallb c_side cd = true → filter (λ c, c_side c = true) cd = cd.
Proof.
  induction cd as [|c cd IH]; [done|]. cbn [forallb].
  intros [Hc Hcd]%andb_prop. rewrite filter_cons_True by done. by rewrite IH.
Qed.

(** A configuration whose channel counts fit together builds a network
    that returns, on every well-shaped input with [cin] channels, only
    well-shaped tensors, with the batch size, height and width of the input
    and [out_ch] channels. *)
Lemma U2Net_wired_well_shaped cfg out_ch ce cd cin training x :
  cfg !! "encode" = Some ce → cfg !! "decode" = Some cd →
  U2Net_wired cin ce cd = true →
  well_shaped x → dimC (shape x) = cin →
  ∃ m out,
    U2Net_init cfg out_ch = Ok m ∧
    U2Net_construct m training x = Ok out ∧
    length (output_tensors out) = (if training then S (length ce) else 1)%nat ∧
    Forall (λ t, well_shaped t ∧
                 shape t = mkShape (dimN (shape x)) out_ch (dimH (shape x)) (dimW (shape x)))
      (output_tensors out).
Proof.
  intros Hce Hcd Hwired Hwx HCx. unfold U2Net_wired in Hwired.
  destruct (reverse (c_out_ch <$> ce)) as [|c_last ks] eqn:Hrev; [done|].
  apply andb_prop in Hwired as [Hwired Hsd].
  apply andb_prop in Hwired as [Hwired Hse%bool_decide_eq_true].
  apply andb_prop in Hwired as [Hwired Hlen%bool_decide_eq_true].
  apply andb_prop in Hwired as [Henc Hdec].
  destruct (Forall_row_ok_make_stages ce (enc_wired_row_ok _ _ Henc)) as [es Hes].
  destruct (Forall_row_ok_make_stages cd (dec_wired_row_ok _ _ _ Hdec)) as [ds Hds].
  pose proof (U2Net_init_Ok cfg out_ch ce cd es ds Hce Hcd Hes Hds) as Hm.
  set (m := mkU2Net (Z.of_nat (length ce)) es ds
              (side_convs out_ch ce ++ side_convs out_ch cd)
              (nn_Conv2d (Z.of_nat (length ce) * out_ch) out_ch 1 0 1 false)) in *.
  pose proof (make_stages_Ok_inv _ _ Hes) as Hes2.
  pose proof (make_stages_Ok_inv _ _ Hds) as Hds2.
  pose proof (Forall2_length _ _ _ Hes2) as Hles.
  pose proof (Forall2_length _ _ _ Hds2) as Hlds.
  destruct (side_rows_last ce _ Hse) as (ce0 & c6 & Hce0 & Hfe).
  pose proof (side_rows_all cd Hsd) as Hfd.
  assert (side_modules m
          = (λ c, nn_Conv2d (c_out_ch c) out_ch 3 1 1 false) <$> (c6 :: cd)) as Hsides.
  { cbn [m side_modules]. unfold side_convs. by rewrite Hfe, Hfd. }
  assert (c_last = c_out_ch c6 ∧ ks = reverse (c_out_ch <$> ce0)) as [-> ->].
  { rewrite Hce0, fmap_app, reverse_app in Hrev. by injection Hrev as <- <-. }
  assert (U2Net_wf m) as Hwf.
  { repeat split; cbn [m encode_modules decode_modules].
    - by eapply Forall2_make_stage_total.
    - by eapply Forall2_make_stage_total.
    - lia.
    - rewrite Hsides, length_fmap. cbn [length]. lia. }
  destruct (U2Net_construct_flow m training x Hwf)
    as (x' & enc_outs & e_last & decs & _ & Hfed & Hlast & Hj & Hrun).
  pose proof (fed_length _ _ _ _ Hfed) as Hle. rewrite length_enumerate in Hle.
  cbn [m encode_modules decode_modules encode_num] in Hfed, Hj, Hle.
  set (N := dimN (shape x)) in *.
  (* encoder *)
  assert (Forall2 (λ c y, batch_channels N (c_out_ch c) y) ce enc_outs) as Benc.
  { eapply (fed_channels N ce es Hes2 _ (enumerate es));
      [apply snd_enumerate|exact Hfed|exact Henc|done]. }
  apply last_Some in Hlast as [R ->].
  rewrite Hce0 in Benc. apply Forall2_app_inv in Benc as [Benc0 Be6];
    [|rewrite length_app in Hle; rewrite Hce0, length_app in Hles; cbn [length] in *; lia].
  apply Forall2_cons in Be6 as [Be6 _].
  (* decoder *)
  rewrite removelast_last, length_app in Hj. cbn [length] in Hj.
  replace (length R + 1 - 1 - length ds)%nat with 0%nat in Hj
    by (rewrite length_app in Hle; cbn [length] in Hle; lia).
  rewrite drop_0 in Hj.
  assert (Forall2 (λ c y, batch_channels N (c_out_ch c) y) cd decs) as Bdec.
  { eapply (joined_channels N cd ds Hds2 _ _ _ _ _ Hj Hdec); [|exact Be6].
    apply Forall2_reverse, Forall2_fmap_l. exact Benc0. }
  (* side outputs and fusion *)
  set (h := dimH (shape x)) in *. set (w := dimW (shape x)) in *.
  assert (Forall (λ s, well_shaped s ∧ shape s = mkShape N out_ch h w)
            (reverse (zip_with (side_output h w) (side_modules m) (e_last :: decs))))
    as Hso.
  { apply Forall_reverse. rewrite Hsides. apply side_outputs_well_shaped.
    by constructor. }
  assert (length (reverse (zip_with (side_output h w) (side_modules m) (e_last :: decs)))
          = length ce) as Hlso.
  { rewrite length_reverse, length_zip_with, Hsides, length_fmap.
    pose proof (Forall2_length _ _ _ Bdec). cbn [length]. lia. }
  destruct (cat_well_shaped N out_ch h w 1 _ ltac:(by intros Hnil; rewrite Hnil in Hlso;
                                                      cbn in Hlso; lia) Hso)
    as [Wcat Scat].
  rewrite Hlso in Scat.
  destruct (fusion_well_shaped N _ out_ch h w _ Wcat Scat) as [Wf Sf].
  exists m. eexists. split; [done|]. split; [exact Hrun|].
  cbn [m out_conv]. cbv zeta. destruct training; cbn [output_tensors].
  - split; [cbn [length]; by rewrite Hlso|]. constructor; [done|]. exact Hso.
  - split; [done|]. constructor; [|constructor]. done.
Qed.

(** ** [U2Net.__init__]: when it raises *)

Lemma make_stage_cases c :
  if row_valid c then ∃ s, make_stage c = Ok s
  else make_stage c = Raise AssertionError.
Proof.
  unfold row_valid, make_stage. destruct (c_RSU4F c); cbn [orb]; [by eexists|].
  case_bool_decide as Hh.
  - rewrite RSU_init_Ok by done. by eexists.
  - rewrite RSU_init_Raise by lia. done.
Qed.

Lemma make_stages_cases cs :
  if forallb row_valid cs then ∃ ss, make_stages cs = Ok ss ∧ length ss = length cs
  else make_stages cs = Raise AssertionError.
Proof.
  induction cs as [|c cs IH]; cbn [forallb make_stages]; [by eexists|].
  pose proof (make_stage_cases c) as Hc. destruct (row_valid c); cbn [andb].
  - destruct Hc as [s ->]. cbn. destruct (forallb row_valid cs).
    + destruct IH as (ss & -> & Hl). eexists. split; [done|]. cbn. by rewrite Hl.
    + by rewrite IH.
  - by rewrite Hc.
Qed.

Lemma make_stage_Raise c e : make_stage c = Raise e → e = AssertionError.
Proof.
  intros He. pose proof (make_stage_cases c) as Hc. destruct (row_valid c).
  - destruct Hc as [s Hs]. congruence.
  - congruence.
Qed.

(** ** [U2Net.__init__] on rows given as lists *)

(** On a list of six entries the loop body does what [U2Net_init_step] does
    on the row read from it; on any other list [assert len(c) == 6] fails. *)
Lemma U2Net_init_row_read out_ch st c :
  U2Net_init_row out_ch st c =
  match read_row c with
  | Some r => U2Net_init_step out_ch st r
  | None => Raise AssertionError
  end.
Proof.
  destruct st as [stages sides].
  destruct c as [|c0 [|c1 [|c2 [|c3 [|c4 [|c5 [|c6 c]]]]]]]; try done.
  cbn [U2Net_init_row read_row U2Net_init_step make_stage c_RSU4F c_height c_in_ch
         c_mid_ch c_out_ch c_side length].
  rewrite bool_decide_true by done. cbn [py_assert mbind Result_bind].
  by destruct (is_False c4).
Qed.

Lemma U2Net_init_step_Raise out_ch st r e :
  U2Net_init_step out_ch st r = Raise e → e = AssertionError.
Proof.
  destruct st as [stages sides]. cbn [U2Net_init_step].
  destruct (make_stage r) as [s|e'] eqn:Hs; [done|].
  intros [= <-]. by eapply make_stage_Raise.
Qed.

Lemma make_stages_Raise cs e : make_stages cs = Raise e → e = AssertionError.
Proof.
  intros He. pose proof (make_stages_cases cs) as Hc. destruct (forallb row_valid cs).
  - destruct Hc as (ss & Hs & _). congruence.
  - congruence.
Qed.

(** The loop over rows given as lists: the loop over the rows read from
    them, unless one of them does not have six entries. *)
Lemma U2Net_init_rows_loop out_ch rows : ∀ st,
  for_each (U2Net_init_row out_ch) rows st =
  match mapM read_row rows with
  | Some rs => for_each (U2Net_init_step out_ch) rs st
  | None => Raise AssertionError
  end.
Proof.
  induction rows as [|c rows IH]; intros st; [done|].
  cbn [for_each mapM]. rewrite U2Net_init_row_read.
  destruct (read_row c) as [r|]; [|done]. cbn [mbind option_bind].
  destruct (U2Net_init_step out_ch st r) as [st'|e] eqn:Hst.
  - cbn [mbind Result_bind]. rewrite IH.
    destruct (mapM read_row rows) as [rs|]; cbn; [|done]. by rewrite Hst.
  - pose proof (U2Net_init_step_Raise _ _ _ _ Hst) as ->.
    destruct (mapM read_row rows) as [rs|]; cbn; [|done]. by rewrite Hst.
Qed.

Lemma forallb_row_passes rows :
  forallb row_passes rows =
  match mapM read_row rows with
  | Some rs => forallb row_valid rs
  | None => false
  end.
Proof.
  induction rows as [|c rows IH]; [done|].
  cbn [forallb mapM]. rewrite IH. unfold row_passes.
  destruct (read_row c) as [r|]; [|done]. cbn.
  destruct (mapM read_row rows) as [rs|]; cbn; [done|]. by rewrite andb_false_r.
Qed.

(** [U2Net.__init__] on rows given as lists, in terms of the rows read from
    them. *)
Lemma U2Net_init_rows_eq cfg out_ch :
  U2Net_init_rows cfg out_ch =
  match cfg !! "encode", cfg !! "decode" with
  | Some ce, Some cd =>
      match mapM read_row ce, mapM read_row cd with
      | Some rce, Some rcd =>
          es ← make_stages rce;
          ds ← make_stages rcd;
          Ok (mkU2Net (Z.of_nat (length ce)) es ds
                (side_convs out_ch rce ++ side_convs out_ch rcd)
                (nn_Conv2d (Z.of_nat (length ce) * out_ch) out_ch 1 0 1 false))
      | _, _ => Raise AssertionError
      end
  | _, _ => Raise AssertionError
  end.
Proof.
  unfold U2Net_init_rows, dict_in, dict_get.
  destruct (cfg !! "encode") as [ce|]; [|done].
  destruct (cfg !! "decode") as [cd|]; [|done].
  rewrite !bool_decide_true by (by eexists). cbn [py_assert mbind Result_bind].
  rewrite U2Net_init_rows_loop.
  destruct (mapM read_row ce) as [rce|]; [|done].
  rewrite U2Net_init_loop.
  destruct (make_stages rce) as [es|e] eqn:Hes; cbn.
  - rewrite U2Net_init_rows_loop.
    destruct (mapM read_row cd) as [rcd|]; [|done].
    rewrite U2Net_init_loop.
    destruct (make_stages rcd) as [ds|e]; [|done]. done.
  - apply make_stages_Raise in Hes as ->. by destruct (mapM read_row cd).
Qed.

(** On rows written [[height, in_ch, mid_ch, out_ch, RSU4F, side]] with
    integers and booleans, [__init__] on lists is [U2Net_init] on the
    rows. *)
Lemma U2Net_init_rows_row_list (cfg : gmap string (list StageCfg)) out_ch :
  U2Net_init_rows ((λ rows : list StageCfg, row_list <$> rows) <$> cfg) out_ch
  = U2Net_init cfg out_ch.
Proof.
  assert (∀ cs, mapM read_row (row_list <$> cs) = Some cs) as Hread.
  { induction cs as [|c cs IH]; [done|]. rewrite fmap_cons. cbn [mapM]. rewrite IH.
    destruct c as [h i mi o [] []]; done. }
  rewrite U2Net_init_rows_eq, U2Net_init_eq, !lookup_fmap.
  destruct (cfg !! "encode") as [ce|]; [|done].
  destruct (cfg !! "decode") as [cd|]; [|done].
  cbn [fmap option_fmap option_map]. rewrite !Hread, length_fmap. done.
Qed.

(** ** Further properties *)

(** X1: the decoder cells that [RSU.__init__] builds.  All take
    [2 * mid_ch] input channels; the first does not resize its input, the
    others do; for [height >= 3] the last has [out_ch] output channels and
    the others [mid_ch]; for [height = 2] the only cell has [mid_ch] output
    channels. *)
Theorem X1_RSU_decoder_plan height in_ch mid_ch out_ch :
  height >= 2 →
  ∃ m, RSU_init height in_ch mid_ch out_ch = Ok m ∧
       up_flag <$> rsu_decode_modules m
         = false :: replicate (Z.to_nat (height - 2)) true ∧
       (in_channels ∘ conv ∘ up_base) <$> rsu_decode_modules m
         = replicate (Z.to_nat (height - 1)) (mid_ch * 2) ∧
       (out_channels ∘ conv ∘ up_base) <$> rsu_decode_modules m
         = if decide (height = 2) then [mid_ch]
           else replicate (Z.to_nat (height - 2)) mid_ch ++ [out_ch].
Proof.
  intros Hh. eexists. split; [by apply RSU_init_Ok|]. cbn [rsu_decode_modules app].
  destruct (decide (height = 2)) as [->|Hne].
  { by repeat split. }
  rewrite RSU_init_decoders by lia.
  replace (Z.to_nat (height - 2)) with (S (Z.to_nat (height - 3))) by lia.
  replace (Z.to_nat (height - 1)) with (S (S (Z.to_nat (height - 3)))) by lia.
  rewrite !fmap_cons, !fmap_app, !fmap_replicate. cbn [fmap list_fmap compose].
  split; [|split].
  - cbn. by rewrite replicate_cons_app.
  - cbn. f_equal. by rewrite replicate_cons_app.
  - by cbn.
Qed.

Lemma X1_RSU_decoder_plan_witness :
  ∃ m, RSU_init 7 3 32 64 = Ok m ∧
       up_flag <$> rsu_decode_modules m
         = false :: replicate (Z.to_nat (7 - 2)) true ∧
       (in_channels ∘ conv ∘ up_base) <$> rsu_decode_modules m
         = replicate (Z.to_nat (7 - 1)) (32 * 2) ∧
       (out_channels ∘ conv ∘ up_base) <$> rsu_decode_modules m
         = if decide (7 = 2) then [32]
           else replicate (Z.to_nat (7 - 2)) 32 ++ [64].
Proof. apply (X1_RSU_decoder_plan 7 3 32 64). lia. Defined.

(** X2: the resolutions of the encoder outputs of an [RSU] block.  The
    first stage keeps the resolution of the input; each of the following
    [height - 2] stages halves the height and the width of the one before
    it, rounding up; the bottleneck keeps the resolution of the deepest of
    them. *)
Theorem X2_RSU_encoder_resolutions height in_ch mid_ch out_ch x :
  height >= 2 →
  ∃ m, RSU_init height in_ch mid_ch out_ch = Ok m ∧
       spatial <$> RSU_encoder_outputs m x =
       spatial x
         :: ((λ i, Nat.iter (S i) ceil_half2 (spatial x)) <$> seq 0 (Z.to_nat (height - 2)))
         ++ [Nat.iter (Z.to_nat (height - 2)) ceil_half2 (spatial x)].
Proof.
  intros Hh.
  destruct (RSU_init height in_ch mid_ch out_ch) as [m|e] eqn:Hm;
    [|by rewrite RSU_init_Ok in Hm].
  exists m. split; [done|]. by eapply RSU_encoder_resolutions.
Qed.

Lemma X2_RSU_encoder_resolutions_witness :
  ∃ m, RSU_init 4 3 4 8 = Ok m ∧
       spatial <$> RSU_encoder_outputs m (Input (mkShape 1 3 9 9)) =
       spatial (Input (mkShape 1 3 9 9))
         :: ((λ i, Nat.iter (S i) ceil_half2 (spatial (Input (mkShape 1 3 9 9))))
               <$> seq 0 (Z.to_nat (4 - 2)))
         ++ [Nat.iter (Z.to_nat (4 - 2)) ceil_half2 (spatial (Input (mkShape 1 3 9 9)))].
Proof. apply (X2_RSU_encoder_resolutions 4 3 4 8 (Input (mkShape 1 3 9 9))). lia. Defined.

(** X3: an [RSU] block of height at least 3 returns a tensor with the
    batch size, height and width of its input and [out_ch] channels; when
    the input is well shaped and has [in_ch] channels, every operator of
    the block is applied to arguments whose shapes fit. *)
Theorem X3_RSU_output_shape height in_ch mid_ch out_ch x :
  height >= 3 →
  ∃ m y, RSU_init height in_ch mid_ch out_ch = Ok m ∧
         RSU_construct m x = Ok y ∧
         shape y = mkShape (dimN (shape x)) out_ch (dimH (shape x)) (dimW (shape x)) ∧
         (well_shaped x → dimC (shape x) = in_ch → well_shaped y).
Proof.
  intros Hh.
  destruct (RSU_init height in_ch mid_ch out_ch) as [m|e] eqn:Hm;
    [|by rewrite RSU_init_Ok in Hm by lia].
  destruct (RSU_shape_ge3 _ _ _ _ m x Hh Hm) as (y & Hy).
  by exists m, y.
Qed.

Lemma X3_RSU_output_shape_witness :
  ∃ m y, RSU_init 7 3 32 64 = Ok m ∧
         RSU_construct m (Input (mkShape 1 3 288 288)) = Ok y ∧
         shape y = mkShape (dimN (shape (Input (mkShape 1 3 288 288)))) 64
                     (dimH (shape (Input (mkShape 1 3 288 288))))
                     (dimW (shape (Input (mkShape 1 3 288 288)))) ∧
         (well_shaped (Input (mkShape 1 3 288 288)) →
          dimC (shape (Input (mkShape 1 3 288 288))) = 3 → well_shaped y).
Proof. apply (X3_RSU_output_shape 7 3 32 64 (Input (mkShape 1 3 288 288))). lia. Defined.

(** X4: the edge [height = 2].  The loop of [RSU.__init__] does not run,
    so the only decoder cell has [mid_ch] output channels: the residual sum
    adds a tensor with [mid_ch] channels to the input projection, which has
    [out_ch] channels.  The sum is well shaped only if the two channel
    counts are equal or one of them is 1, and it is well shaped when they
    are equal and the input is well shaped with [in_ch] channels. *)
Theorem X4_RSU_height_2_residual in_ch mid_ch out_ch x :
  ∃ m d, RSU_init 2 in_ch mid_ch out_ch = Ok m ∧
         RSU_construct m x = Ok (AddOp d (ConvBNReLU_construct (rsu_conv_in m) x)) ∧
         dimC (shape d) = mid_ch ∧
         dimC (shape (ConvBNReLU_construct (rsu_conv_in m) x)) = out_ch ∧
         (well_shaped (AddOp d (ConvBNReLU_construct (rsu_conv_in m) x)) →
          broadcast_dim mid_ch out_ch) ∧
         (well_shaped x → dimC (shape x) = in_ch → mid_ch = out_ch →
          well_shaped (AddOp d (ConvBNReLU_construct (rsu_conv_in m) x))).
Proof.
  destruct (RSU_init 2 in_ch mid_ch out_ch) as [m|e] eqn:Hm;
    [|by rewrite RSU_init_Ok in Hm].
  destruct (RSU_shape_2 _ _ _ m x Hm) as (d & Hd & Sd & Sx & Hws).
  pose proof Hm as Hm'. rewrite RSU_init_Ok in Hm' by lia. injection Hm' as Hm'.
  assert (rsu_conv_in m = ConvBNReLU_init in_ch out_ch 3 1) as Hin by (by rewrite <- Hm').
  exists m, d. rewrite Hin. split; [done|]. split; [done|].
  split; [by rewrite Sd|]. split; [by rewrite Sx|]. split.
  - intros (_ & _ & (_ & HC & _)). by rewrite Sd, Sx in HC.
  - intros Hw HC <-. destruct (Hws Hw HC) as [Wd Wx].
    cbn [well_shaped]. split; [done|]. split; [done|].
    unfold broadcastable. rewrite Sd, Sx. by repeat split; left.
Qed.

(** X5: [RSU4F.construct] returns a tensor with the batch size, height and
    width of its input and [out_ch] channels; when the input is well shaped
    and has [in_ch] channels, every operator of the block is applied to
    arguments whose shapes fit. *)
Theorem X5_RSU4F_output_shape in_ch mid_ch out_ch x :
  ∃ y, RSU4F_construct (RSU4F_init in_ch mid_ch out_ch) x = Ok y ∧
       shape y = mkShape (dimN (shape x)) out_ch (dimH (shape x)) (dimW (shape x)) ∧
       (well_shaped x → dimC (shape x) = in_ch → well_shaped y).
Proof. apply RSU4F_shape. Qed.

(** X6: [U2Net.__init__] on a configuration whose rows are lists of
    integers and booleans.  Without the key "encode" or "decode" the first
    assertions fail.  With both keys, a positive [out_ch], at least one
    encoder row and positive integers as the channel counts [c[1:4]] of every
    row (what the framework's constructors are given is then a positive
    [int]): when every row has six entries and every row whose fifth entry
    is [False] has a height of at least 2, [__init__] returns a network with
    one stage per row -- an [RSU4F] block unless the fifth entry is the
    object [False] (so also when it is [0]), else an [RSU] block --, one side
    convolution for every row whose sixth entry is the object [True] (not
    for [1]), encoder rows first, and a fusion convolution with
    [len(cfg["encode"]) * out_ch] input channels; otherwise an assertion
    fails and [AssertionError] is raised. *)
Theorem X6_U2Net_init_assertions cfg out_ch :
  (cfg !! "encode" = None ∨ cfg !! "decode" = None →
   U2Net_init_rows cfg out_ch = Raise AssertionError) ∧
  ∀ ce cd,
    cfg !! "encode" = Some ce → cfg !! "decode" = Some cd →
    0 < out_ch → ce ≠ [] → forallb channels_positive (ce ++ cd) = true →
    if forallb row_passes ce && forallb row_passes cd
    then ∃ m rce rcd,
           U2Net_init_rows cfg out_ch = Ok m ∧
           mapM read_row ce = Some rce ∧
           mapM read_row cd = Some rcd ∧
           Forall2 (λ r s, make_stage r = Ok s) rce (encode_modules m) ∧
           Forall2 (λ r s, make_stage r = Ok s) rcd (decode_modules m) ∧
           encode_num m = Z.of_nat (length ce) ∧
           side_modules m
             = side_head out_ch <$> filter (λ r, c_side r = true) (rce ++ rcd) ∧
           out_conv m = nn_Conv2d (Z.of_nat (length ce) * out_ch) out_ch 1 0 1 false
    else U2Net_init_rows cfg out_ch = Raise AssertionError.
Proof.
  rewrite U2Net_init_rows_eq. split.
  { intros [->| ->]; [done|]. by destruct (cfg !! "encode"). }
  intros ce cd -> -> _ _ _. rewrite !forallb_row_passes.
  destruct (mapM read_row ce) as [rce|]; [|done].
  pose proof (make_stages_cases rce) as Hce.
  destruct (forallb row_valid rce); cbn [andb].
  - destruct Hce as (es & Hes & _).
    destruct (mapM read_row cd) as [rcd|]; [|done].
    pose proof (make_stages_cases rcd) as Hcd.
    destruct (forallb row_valid rcd).
    + destruct Hcd as (ds & Hds & _). rewrite Hes, Hds. cbn.
      eexists _, rce, rcd. split; [done|]. cbn.
      split; [done|]. split; [done|].
      split; [by apply make_stages_Ok_inv|]. split; [by apply make_stages_Ok_inv|].
      split; [done|]. split; [|done].
      unfold side_convs, side_head. by rewrite filter_app, fmap_app.
    + by rewrite Hes, Hcd.
  - rewrite Hce. by destruct (mapM read_row cd).
Qed.

Lemma X6_U2Net_init_assertions_witness :
  ∃ m rce rcd,
    U2Net_init_rows int_flags_cfg 1 = Ok m ∧
    mapM read_row [[PyInt 3; PyInt 3; PyInt 4; PyInt 8; PyBool false; PyBool false];
                   [PyInt 4; PyInt 8; PyInt 4; PyInt 8; PyInt 0; PyBool true]] = Some rce ∧
    mapM read_row [[PyInt 3; PyInt 16; PyInt 4; PyInt 8; PyBool false; PyInt 1]] = Some rcd ∧
    Forall2 (λ r s, make_stage r = Ok s) rce (encode_modules m) ∧
    Forall2 (λ r s, make_stage r = Ok s) rcd (decode_modules m) ∧
    encode_num m = 2 ∧
    side_modules m = side_head 1 <$> filter (λ r, c_side r = true) (rce ++ rcd) ∧
    out_conv m = nn_Conv2d (2 * 1) 1 1 0 1 false.
Proof.
  apply (proj2 (X6_U2Net_init_assertions int_flags_cfg 1)
           [[PyInt 3; PyInt 3; PyInt 4; PyInt 8; PyBool false; PyBool false];
            [PyInt 4; PyInt 8; PyInt 4; PyInt 8; PyInt 0; PyBool true]]
           [[PyInt 3; PyInt 16; PyInt 4; PyInt 8; PyBool false; PyInt 1]]).
  - vm_compute. reflexivity.
  - vm_compute. reflexivity.
  - lia.
  - done.
  - reflexivity.
Defined.

(** X7: [U2Net.__init__] does not compare the lengths of its lists, and
    [U2Net.construct] can return only when they fit.  If [construct]
    returns on a network built from a configuration, then the configuration
    has fewer decoder than encoder rows and at most one row asking for a
    side output per element of [decode_outputs] (the decoder rows and one
    more); the network has one stage per row and one side module per row
    asking for one, and the value returned holds one tensor per side module
    and the fused map in training mode, a single tensor otherwise. *)
Theorem X7_U2Net_construct_returns_only_if cfg out_ch m training x out :
  U2Net_init cfg out_ch = Ok m →
  U2Net_construct m training x = Ok out →
  ∃ ce cd,
    cfg !! "encode" = Some ce ∧ cfg !! "decode" = Some cd ∧
    (length cd < length ce)%nat ∧
    (length (filter (λ c, c_side c = true) (ce ++ cd)) ≤ S (length cd))%nat ∧
    length (encode_modules m) = length ce ∧
    length (decode_modules m) = length cd ∧
    length (side_modules m) = length (filter (λ c, c_side c = true) (ce ++ cd)) ∧
    length (output_tensors out)
      = (if training then S (length (side_modules m)) else 1)%nat.
Proof.
  intros Hm Hout.
  destruct (U2Net_init_Ok_inv _ _ _ Hm) as (ce & cd & Hce & Hcd & Hes & Hds & _ & Hsides & _).
  pose proof (Forall2_length _ _ _ Hes) as Hles.
  pose proof (Forall2_length _ _ _ Hds) as Hlds.
  assert (length (side_modules m) = length (filter (λ c, c_side c = true) (ce ++ cd)))
    as Hls.
  { rewrite Hsides. unfold side_convs. by rewrite filter_app, !length_app, !length_fmap. }
  pose proof (U2Net_construct_cases m training x
                (Forall2_make_stage_total _ _ Hes) (Forall2_make_stage_total _ _ Hds))
    as Hcases.
  case_decide as Hc; [|congruence]. destruct Hc as [Hlt Hle].
  exists ce, cd. split; [done|]. split; [done|].
  split; [lia|]. split; [lia|]. split; [done|]. split; [done|]. split; [done|].
  destruct (U2Net_construct_wf m training x (U2Net_init_wf _ _ _ Hm Hlt Hle))
    as (x' & enc_outs & rest & e_last & decs & _ & _ & _ & _ & Hpd & _ & Hrun).
  rewrite Hrun in Hout. injection Hout as <-.
  pose proof (Forall2_length _ _ _ Hpd) as Hld.
  destruct training; cbn [output_tensors length]; [|done].
  rewrite length_reverse, length_zip_with. cbn [length]. lia.
Qed.

Lemma X7_U2Net_construct_returns_only_if_witness :
  ∃ m out ce cd,
    U2Net_init tiny_cfg 1 = Ok m ∧
    U2Net_construct m true (Input (mkShape 1 3 7 5)) = Ok out ∧
    tiny_cfg !! "encode" = Some ce ∧ tiny_cfg !! "decode" = Some cd ∧
    (length cd < length ce)%nat ∧
    (length (filter (λ c, c_side c = true) (ce ++ cd)) ≤ S (length cd))%nat ∧
    length (encode_modules m) = length ce ∧
    length (decode_modules m) = length cd ∧
    length (side_modules m) = length (filter (λ c, c_side c = true) (ce ++ cd)) ∧
    length (output_tensors out) = S (length (side_modules m)).
Proof.
  assert (∃ m out, U2Net_init tiny_cfg 1 = Ok m ∧
                   U2Net_construct m true (Input (mkShape 1 3 7 5)) = Ok out)
    as (m & out & Hm & Hout).
  { eexists _, _. split; vm_compute; reflexivity. }
  destruct (X7_U2Net_construct_returns_only_if tiny_cfg 1 m true (Input (mkShape 1 3 7 5))
              out Hm Hout) as (ce & cd & H).
  by exists m, out, ce, cd.
Defined.

(** X8: the data flow of [U2Net.construct] on a network built by
    [U2Net.__init__] with fewer decoder than encoder stages.  Every encoder
    stage but the first is run on the max-pooled output of the stage before
    it, and the output of the last one is not pooled ([fed]); every decoder
    stage is run on the concatenation of the previous output (the deepest
    encoder output for the first), resized to the resolution of its skip
    connection, with that skip connection, the skip connections being the
    encoder outputs below the deepest one, deepest first ([joined]). *)
Theorem X8_U2Net_data_flow cfg out_ch m x :
  U2Net_init cfg out_ch = Ok m →
  (length (decode_modules m) < length (encode_modules m))%nat →
  ∃ x' enc_outs e_last decs,
    U2Net_collect_encode m x = Ok (x', enc_outs) ∧
    fed (Z.of_nat (length (encode_modules m))) (enumerate (encode_modules m)) x enc_outs ∧
    last enc_outs = Some e_last ∧
    U2Net_collect_decode m enc_outs
      = Ok (take (length enc_outs - 1 - length (decode_modules m)) (removelast enc_outs),
            reverse decs ++ [e_last]) ∧
    joined (decode_modules m)
      (reverse (drop (length enc_outs - 1 - length (decode_modules m))
                  (removelast enc_outs))) e_last decs.
Proof.
  intros Hm Hlt.
  destruct (U2Net_init_Ok_inv _ _ _ Hm) as (ce & cd & _ & _ & Hes & Hds & Hnum & _).
  pose proof (Forall2_length _ _ _ Hes) as Hles.
  destruct (U2Net_collect_encode_fed m x) as (x' & enc_outs & Hrun & Hfed);
    [by eapply Forall2_make_stage_total|].
  pose proof (fed_length _ _ _ _ Hfed) as Hlen. rewrite length_enumerate in Hlen.
  destruct (U2Net_collect_decode_joined m enc_outs) as (e & decs & Hlast & Hcd & Hj);
    [by eapply Forall2_make_stage_total|lia|].
  exists x', enc_outs, e, decs. rewrite Hnum, Hles in Hfed. done.
Qed.

Lemma X8_U2Net_data_flow_witness :
  ∃ m x' enc_outs e_last decs,
    U2Net_init tiny_cfg 1 = Ok m ∧
    U2Net_collect_encode m (Input (mkShape 1 3 7 5)) = Ok (x', enc_outs) ∧
    fed (Z.of_nat (length (encode_modules m))) (enumerate (encode_modules m))
      (Input (mkShape 1 3 7 5)) enc_outs ∧
    last enc_outs = Some e_last ∧
    U2Net_collect_decode m enc_outs
      = Ok (take (length enc_outs - 1 - length (decode_modules m)) (removelast enc_outs),
            reverse decs ++ [e_last]) ∧
    joined (decode_modules m)
      (reverse (drop (length enc_outs - 1 - length (decode_modules m))
                  (removelast enc_outs))) e_last decs.
Proof.
  assert (∃ m, U2Net_init tiny_cfg 1 = Ok m ∧
               (length (decode_modules m) < length (encode_modules m))%nat)
    as (m & Hm & Hlt).
  { eexists. split; [vm_compute; reflexivity|]. vm_compute. lia. }
  destruct (X8_U2Net_data_flow tiny_cfg 1 m (Input (mkShape 1 3 7 5)) Hm Hlt)
    as (x' & enc_outs & e_last & decs & H).
  by exists m, x', enc_outs, e_last, decs.
Defined.

Lemma reverse_seq n k :
  reverse (seq n k) = (λ j, (n + k - 1 - j)%nat) <$> seq 0 k.
Proof.
  induction k as [|k IH]; [done|].
  rewrite seq_S, reverse_app, IH. cbn [reverse rev_append app seq].
  rewrite fmap_cons. f_equal; [lia|].
  rewrite <- fmap_S_seq, <- list_fmap_compose.
  apply list_fmap_ext. intros _ j _. cbn [compose]. lia.
Qed.

(** The resolutions of the encoder and decoder outputs of a network built
    by [U2Net.__init__]. *)
Lemma U2Net_resolutions cfg out_ch m x :
  U2Net_init cfg out_ch = Ok m →
  (length (decode_modules m) < length (encode_modules m))%nat →
  ∃ x' enc_outs rest e_last decs,
    U2Net_collect_encode m x = Ok (x', enc_outs) ∧
    U2Net_collect_decode m enc_outs = Ok (rest, reverse decs ++ [e_last]) ∧
    spatial <$> enc_outs =
      (λ i, Nat.iter i ceil_half2 (spatial x)) <$> seq 0 (length (encode_modules m)) ∧
    spatial <$> decs =
      (λ j, Nat.iter (length (encode_modules m) - 2 - j) ceil_half2 (spatial x))
        <$> seq 0 (length (decode_modules m)).
Proof.
  intros Hm Hlt.
  destruct (U2Net_init_Ok_inv _ _ _ Hm) as (ce & cd & _ & _ & Hes & Hds & Hnum & _).
  pose proof (Forall2_length _ _ _ Hes) as Hles.
  destruct (U2Net_collect_encode_fed m x) as (x' & enc_outs & Hrun & Hfed);
    [by eapply Forall2_make_stage_total|].
  pose proof (fed_length _ _ _ _ Hfed) as Hlen. rewrite length_enumerate in Hlen.
  destruct (U2Net_collect_decode_joined m enc_outs) as (e & decs & Hlast & Hcd & Hj);
    [by eapply Forall2_make_stage_total|lia|].
  set (f := λ i, Nat.iter i ceil_half2 (spatial x)).
  assert (spatial <$> enc_outs = f <$> seq 0 (length (encode_modules m))) as Henc.
  { rewrite Hnum, Hles in Hfed. unfold enumerate in Hfed.
    by destruct (fed_resolutions ce (encode_modules m) Hes 0 x enc_outs Hfed). }
  eexists x', enc_outs, _, e, decs. split; [done|]. split; [exact Hcd|].
  split; [done|].
  rewrite (joined_resolutions cd (decode_modules m) Hds _ _ _ Hj).
  apply last_Some in Hlast as [R ->].
  rewrite removelast_last, length_app in *. cbn [length] in *.
  set (L := length (decode_modules m)) in *.
  set (n := (length R + 1 - 1 - L)%nat).
  rewrite take_ge by (rewrite length_reverse, length_drop; lia).
  assert (spatial <$> R = f <$> seq 0 (length R)) as HR.
  { rewrite <- Hlen in Henc. replace (length R + 1)%nat with (S (length R)) in Henc by lia.
    rewrite seq_S, !fmap_app in Henc. by apply app_inj_tail in Henc as [? _]. }
  rewrite fmap_reverse, fmap_drop, HR, <- fmap_drop, drop_seq, <- fmap_reverse.
  replace (length R - n)%nat with L by lia.
  rewrite reverse_seq, <- list_fmap_compose.
  apply list_fmap_ext. intros i j Hjl%lookup_seq. cbn [compose]. unfold f.
  f_equal. lia.
Qed.

(** X9: the resolutions in a network built by [U2Net.__init__] with fewer
    decoder than encoder stages.  The output of encoder stage [i] has the
    height and width of the input halved [i] times, rounding up; the output
    of decoder stage [j] has the resolution of encoder stage
    [len(encode_modules) - 2 - j]. *)
Theorem X9_U2Net_resolutions cfg out_ch m x :
  U2Net_init cfg out_ch = Ok m →
  (length (decode_modules m) < length (encode_modules m))%nat →
  ∃ x' enc_outs rest e_last decs,
    U2Net_collect_encode m x = Ok (x', enc_outs) ∧
    U2Net_collect_decode m enc_outs = Ok (rest, reverse decs ++ [e_last]) ∧
    spatial <$> enc_outs =
      (λ i, Nat.iter i ceil_half2 (spatial x)) <$> seq 0 (length (encode_modules m)) ∧
    spatial <$> decs =
      (λ j, Nat.iter (length (encode_modules m) - 2 - j) ceil_half2 (spatial x))
        <$> seq 0 (length (decode_modules m)).
Proof. apply U2Net_resolutions. Qed.

Lemma X9_U2Net_resolutions_witness :
  ∃ m x' enc_outs rest e_last decs,
    U2Net_init u2net_full_cfg 1 = Ok m ∧
    U2Net_collect_encode m (Input (mkShape 1 3 288 288)) = Ok (x', enc_outs) ∧
    U2Net_collect_decode m enc_outs = Ok (rest, reverse decs ++ [e_last]) ∧
    spatial <$> enc_outs =
      (λ i, Nat.iter i ceil_half2 (spatial (Input (mkShape 1 3 288 288))))
        <$> seq 0 (length (encode_modules m)) ∧
    spatial <$> decs =
      (λ j, Nat.iter (length (encode_modules m) - 2 - j) ceil_half2
              (spatial (Input (mkShape 1 3 288 288))))
        <$> seq 0 (length (decode_modules m)).
Proof.
  assert (∃ m, U2Net_init u2net_full_cfg 1 = Ok m ∧
               (length (decode_modules m) < length (encode_modules m))%nat)
    as (m & Hm & Hlt).
  { eexists. split; [vm_compute; reflexivity|]. vm_compute. lia. }
  destruct (X9_U2Net_resolutions u2net_full_cfg 1 m (Input (mkShape 1 3 288 288)) Hm Hlt)
    as (x' & enc_outs & rest & e_last & decs & H).
  by exists m, x', enc_outs, rest, e_last, decs.
Defined.

(** X10: channel counts that fit in the configuration make a network whose
    graph is well shaped.  When the encoder rows are chained from [cin]
    input channels, there is one decoder row per encoder row but the last,
    each taking the channels of the stage before it plus those of the
    encoder stage at its level, every row builds a stage with [c_out_ch]
    output channels, and the last encoder row and all decoder rows have a
    side output ([U2Net_wired]), then [U2Net.__init__] succeeds and, on
    every well-shaped input with [cin] channels, [U2Net.construct] returns
    only well-shaped tensors with the batch size, height and width of the
    input and [out_ch] channels: the fused map and one side output per
    encoder row in training mode, one map in inference mode. *)
Theorem X10_U2Net_wired_well_shaped cfg out_ch ce cd cin training x :
  cfg !! "encode" = Some ce → cfg !! "decode" = Some cd →
  U2Net_wired cin ce cd = true →
  well_shaped x → dimC (shape x) = cin →
  ∃ m out,
    U2Net_init cfg out_ch = Ok m ∧
    U2Net_construct m training x = Ok out ∧
    length (output_tensors out) = (if training then S (length ce) else 1)%nat ∧
    Forall (λ t, well_shaped t ∧
                 shape t = mkShape (dimN (shape x)) out_ch (dimH (shape x)) (dimW (shape x)))
      (output_tensors out).
Proof. apply U2Net_wired_well_shaped. Qed.

Lemma X10_U2Net_wired_well_shaped_witness :
  ∃ m out,
    U2Net_init tiny_cfg 1 = Ok m ∧
    U2Net_construct m true (Input (mkShape 1 3 7 5)) = Ok out ∧
    length (output_tensors out) = 3%nat ∧
    Forall (λ t, well_shaped t ∧
                 shape t = mkShape (dimN (shape (Input (mkShape 1 3 7 5)))) 1
                             (dimH (shape (Input (mkShape 1 3 7 5))))
                             (dimW (shape (Input (mkShape 1 3 7 5)))))
      (output_tensors out).
Proof.
  apply (X10_U2Net_wired_well_shaped tiny_cfg 1
           [mkStageCfg 3 3 4 8 false false; mkStageCfg 4 8 4 8 true true]
           [mkStageCfg 3 16 4 8 false true] 3 true (Input (mkShape 1 3 7 5))).
  - vm_compute. reflexivity.
  - vm_compute. reflexivity.
  - vm_compute. reflexivity.
  - exact I.
  - reflexivity.
Defined.

(** X11: [u2net_full] and [u2net_lite] fit together.  For every [out_ch]
    and every well-shaped input with 3 channels, of any batch size, height
    and width, [construct] returns, and every tensor it returns (the fused
    map and the six side outputs in training mode, the sigmoid map in
    inference mode) is well shaped and has the batch size, height and width
    of the input and [out_ch] channels. *)
Theorem X11_shipped_well_shaped :
  Forall (λ net, ∀ out_ch training x,
    well_shaped x → dimC (shape x) = 3 →
    ∃ m out,
      net out_ch = Ok m ∧
      U2Net_construct m training x = Ok out ∧
      length (output_tensors out) = (if training then 7 else 1)%nat ∧
      Forall (λ t, well_shaped t ∧
                   shape t = mkShape (dimN (shape x)) out_ch (dimH (shape x)) (dimW (shape x)))
        (output_tensors out)) shipped.
Proof.
  repeat constructor; intros out_ch training x Hx HC.
  - apply (U2Net_wired_well_shaped u2net_full_cfg out_ch
             u2net_full_encode u2net_full_decode 3 training x);
      try done; vm_compute; reflexivity.
  - apply (U2Net_wired_well_shaped u2net_lite_cfg out_ch
             u2net_lite_encode u2net_lite_decode 3 training x);
      try done; vm_compute; reflexivity.
Qed.

(** X13: the data flow of [RSU.construct] where its residual sum fits: for
    [height >= 3], and for [height = 2] when [mid_ch = out_ch].  The decoder
    stages are paired with the encoder outputs below the bottleneck, taken
    in reverse order; each takes the concatenation of the previous decoder
    output (the bottleneck output for the first), resized when its flag is
    set, with its encoder output; the block returns the last decoder output
    plus the input projection [conv_in(x)], which is what [RSU_spec]
    describes.  The result has the batch size, height and width of the
    input and [out_ch] channels, and every call of the block is given
    shapes that fit when the input is well shaped with [in_ch] channels. *)
Theorem X13_RSU_construct_data_flow height in_ch mid_ch out_ch x :
  height >= 2 →
  (height = 2 → mid_ch = out_ch) →
  ∃ m bottleneck skips y,
    RSU_init height in_ch mid_ch out_ch = Ok m ∧
    RSU_encoder_outputs m x = reverse skips ++ [bottleneck] ∧
    length skips = length (rsu_decode_modules m) ∧
    y = AddOp (foldl decoder_stage_spec bottleneck (zip (rsu_decode_modules m) skips))
          (ConvBNReLU_construct (rsu_conv_in m) x) ∧
    RSU_construct m x = Ok y ∧
    RSU_spec m x = Some y ∧
    shape y = mkShape (dimN (shape x)) out_ch (dimH (shape x)) (dimW (shape x)) ∧
    (well_shaped x → dimC (shape x) = in_ch → well_shaped y).
Proof.
  intros Hh H2.
  destruct (RSU_init height in_ch mid_ch out_ch) as [m|e] eqn:Hm;
    [|by rewrite RSU_init_Ok in Hm].
  destruct (RSU_init_lengths _ _ _ _ _ Hm) as (_ & Hle & Hld).
  destruct (RSU_run_balanced m x) as (b & skips & Houts & Hlen & Hrun); [lia|].
  assert (RSU_construct m x =
          Ok (AddOp (foldl decoder_stage_spec b (zip (rsu_decode_modules m) skips))
                (ConvBNReLU_construct (rsu_conv_in m) x))) as Hc.
  { unfold RSU_construct. by rewrite Hrun. }
  exists m, b, skips. eexists. split; [done|]. split; [done|]. split; [done|].
  split; [reflexivity|]. split; [done|].
  split.
  { unfold RSU_spec. rewrite Houts, last_snoc, removelast_last, reverse_involutive.
    simpl. by rewrite decide_True. }
  destruct (decide (height = 2)) as [->|Hne].
  - specialize (H2 eq_refl). subst mid_ch.
    destruct (RSU_shape_2 _ _ _ m x Hm) as (d & Hd & Sd & Sx & Hws).
    rewrite Hd in Hc.
    assert (AddOp (foldl decoder_stage_spec b (zip (rsu_decode_modules m) skips))
              (ConvBNReLU_construct (rsu_conv_in m) x)
            = AddOp d (ConvBNReLU_construct (ConvBNReLU_init in_ch out_ch 3 1) x))
      as -> by congruence.
    split.
    + cbn [shape]. rewrite Sd, Sx. cbn [dimN dimC dimH dimW]. by rewrite !Z.max_id.
    + intros Hw HC. destruct (Hws Hw HC) as [Wd Wx].
      cbn [well_shaped]. split; [done|]. split; [done|].
      unfold broadcastable. rewrite Sd, Sx. by repeat split; left.
  - assert (height >= 3) as H3 by lia.
    destruct (RSU_shape_ge3 _ _ _ _ m x H3 Hm) as (y & Hy & Hs & Hw).
    rewrite Hy in Hc. injection Hc as <-. done.
Qed.

Lemma X13_RSU_construct_data_flow_witness :
  ∃ m bottleneck skips y,
    RSU_init 7 3 32 64 = Ok m ∧
    RSU_encoder_outputs m (Input (mkShape 1 3 288 288)) = reverse skips ++ [bottleneck] ∧
    length skips = length (rsu_decode_modules m) ∧
    y = AddOp (foldl decoder_stage_spec bottleneck (zip (rsu_decode_modules m) skips))
          (ConvBNReLU_construct (rsu_conv_in m) (Input (mkShape 1 3 288 288))) ∧
    RSU_construct m (Input (mkShape 1 3 288 288)) = Ok y ∧
    RSU_spec m (Input (mkShape 1 3 288 288)) = Some y ∧
    shape y = mkShape (dimN (shape (Input (mkShape 1 3 288 288)))) 64
                (dimH (shape (Input (mkShape 1 3 288 288))))
                (dimW (shape (Input (mkShape 1 3 288 288)))) ∧
    (well_shaped (Input (mkShape 1 3 288 288)) →
     dimC (shape (Input (mkShape 1 3 288 288))) = 3 → well_shaped y).
Proof.
  apply (X13_RSU_construct_data_flow 7 3 32 64 (Input (mkShape 1 3 288 288))); lia.
Defined.
